(** * mimikit: the feature-store build pipeline of [mmk/data/factory.py]

    A shallow embedding of the parallel build-and-aggregate pipeline
    ([file_to_db], [make_db_for_each_file], [ds_definitions_from_infos],
    [create_datasets_from_defs], [make_integration_args], [integrate],
    [aggregate_dbs], [make_root_db]) together with the layout bookkeeping
    it relies on.  The file system and the HDF5 containers are an explicit
    store that every operation threads through; Python exceptions are the
    [Err] results of a small state-and-error monad. *)

From Stdlib Require Import Ascii String.
From stdpp Require Import gmap strings list fin_maps.

(** ** Python string primitives used by the module *)

Module Py.

(** [s.split(sep)] for a one-character separator. *)
Fixpoint split (sep : ascii) (s : string) : list string :=
  match s with
  | EmptyString => [EmptyString]
  | String c s' =>
      if decide (c = sep) then EmptyString :: split sep s'
      else match split sep s' with
           | h :: t => String c h :: t
           | [] => [String c EmptyString]
           end
  end.

(** [sep.join(parts)]. *)
Fixpoint join (sep : string) (parts : list string) : string :=
  match parts with
  | [] => EmptyString
  | [x] => x
  | x :: rest => x +:+ sep +:+ join sep rest
  end.

(** [c in s] for a one-character [c]. *)
Fixpoint contains (c : ascii) (s : string) : bool :=
  match s with
  | EmptyString => false
  | String c' s' => if decide (c' = c) then true else contains c s'
  end.

(** [parts[:-1]] and [parts[-1]]; the latter is only applied to the result
    of [split], which is never empty. *)
Definition init (parts : list string) : list string := removelast parts.

Definition final (parts : list string) : string := List.last parts EmptyString.

(** The remainder of [s] after the prefix [p], when [s.startswith(p)]. *)
Fixpoint strip_prefix (p s : string) : option string :=
  match p, s with
  | EmptyString, _ => Some s
  | String a p', String b s' =>
      if decide (a = b) then strip_prefix p' s' else None
  | String _ _, EmptyString => None
  end.

End Py.

Definition slash : ascii := "/"%char.

Definition dot : ascii := "."%char.

(** ** Exceptions and results *)

Inductive exn :=
| AssertionError (msg : string)
| ValueError (msg : string)
| TypeError (msg : string)
| IndexError (msg : string)
| KeyError (key : string)
| AttributeError (attr : string)
| OSError (path : string)
| RuntimeError (msg : string)
| EmptyInputError.

Inductive result (A : Type) :=
| Ok (a : A)
| Err (e : exn).

Arguments Ok {A} a.
Arguments Err {A} e.

#[global] Instance result_ret : MRet result := λ A a, Ok a.

#[global] Instance result_bind : MBind result :=
  λ A B k r, match r with Ok a => k a | Err e => Err e end.

#[global] Instance result_fmap : FMap result :=
  λ A B g r, match r with Ok a => Ok (g a) | Err e => Err e end.

Definition is_Ok {A} (r : result A) : Prop := ∃ a, r = Ok a.

(** The message of the assertion on lines 191-192; the spec calls this
    failure [ShapeMismatchError]. *)
Definition ShapeMismatchError : exn :=
  AssertionError
    "all features should have the same dimensions but for the first axis".

(** ** Data *)

(** One entry of a dense array along its leading axis.  The pipeline only
    moves entries around, it never computes on them. *)
Definition row : Type := list Z.

(** A numpy array of at least one dimension: its [shape] is the number of
    rows followed by [nd_dims]. *)
Record ndarray := NdArray {
  nd_dtype : string;
  nd_dims : list nat;
  nd_rows : list row
}.

Definition nd_shape (a : ndarray) : list nat := length (nd_rows a) :: nd_dims a.

(** Index labels of a pandas frame: positions of a [RangeIndex] or strings. *)
Inductive label :=
| LInt (i : nat)
| LStr (s : string).

#[global] Instance label_eq_dec : EqDecision label.
Proof. solve_decision. Defined.

(** A row of a [Metadata] frame: its index label, its [name] column when
    the frame has one, and the bounds of the half-open range. *)
Record Segment := MkSegment {
  seg_index : label;
  seg_name : option label;
  start : nat;
  stop : nat
}.

#[global] Instance Segment_eq_dec : EqDecision Segment.
Proof. solve_decision. Defined.

Definition attributes : Type := list (string * string).

(** What the extraction function returns for one feature: a dense array,
    a table, or anything else (which [file_to_db] skips). *)
Inductive value :=
| Dense (a : ndarray)
| Table (m : list Segment)
| Opaque.

(** The per-feature cells of an [info] row; [None] is pandas' NaN.  The
    [size] cell, a formatted byte count, is left out: nothing reads it. *)
Record feat_info := FeatInfo {
  fi_dtype : string;
  fi_shape : list nat
}.

#[global] Instance feat_info_eq_dec : EqDecision feat_info.
Proof. solve_decision. Defined.

Record info_row := InfoRow {
  directory : string;
  name : string;
  columns : gmap string (option feat_info)
}.

(** What an HDF5 container holds under one key. *)
Inductive node :=
| Dataset (a : ndarray) (attrs : attributes)
| Frame (m : list Segment)
| Info (rows : list info_row).

(** The file system (path to container) and the log of the module's
    [logger]. *)
Record world := World {
  files : gmap string (gmap string node);
  log : list string
}.

Definition set_files (g : gmap string (gmap string node) → gmap string (gmap string node))
    (w : world) : world :=
  {| files := g (files w); log := log w |}.

(** ** The state-and-exception monad of the effectful functions *)

Definition M (A : Type) : Type := world → result A * world.

Definition ret {A} (a : A) : M A := λ w, (Ok a, w).

Definition raise {A} (e : exn) : M A := λ w, (Err e, w).

Definition lift {A} (r : result A) : M A := λ w, (r, w).

Definition bind {A B} (c : M A) (k : A → M B) : M B :=
  λ w, match c w with
       | (Ok a, w') => k a w'
       | (Err e, w') => (Err e, w')
       end.

Notation "'let*' x := c 'in' k" := (bind c (λ x, k))
  (at level 10, x pattern, c at level 100, k at level 200, only parsing).

(** A [for] loop with an accumulator, and one collecting results. *)
Fixpoint foldM {A B} (body : B → A → M B) (acc : B) (l : list A) : M B :=
  match l with
  | [] => ret acc
  | x :: rest => let* acc' := body acc x in foldM body acc' rest
  end.

Fixpoint forM {A B} (body : A → M B) (l : list A) : M (list B) :=
  match l with
  | [] => ret []
  | x :: rest =>
      let* y := body x in
      let* ys := forM body rest in
      ret (y :: ys)
  end.

Definition forM_ {A} (body : A → M unit) (l : list A) : M unit :=
  foldM (λ _ x, body x) () l.

(** ** The store capability: h5py and pandas' HDF interface

    Keys of a container are flat strings; groups are not modelled apart
    from listing the members of ["layouts"]. *)

Inductive open_mode := ModeW | ModeRPlus.

Definition logger_info (msg : string) : M unit :=
  λ w, (Ok (), {| files := files w; log := log w ++ [msg] |}).

(** [h5py.File(path, mode)]: ["w"] creates or truncates, ["r+"] needs the
    file to exist. *)
Definition h5_open (path : string) (mode : open_mode) : M unit :=
  λ w, match mode with
       | ModeW => (Ok (), set_files <[path := ∅]> w)
       | ModeRPlus =>
           match files w !! path with
           | Some _ => (Ok (), w)
           | None => (Err (OSError path), w)
           end
       end.

(** [h5py.File(path, "r")]. *)
Definition h5_read (path : string) : M (gmap string node) :=
  λ w, match files w !! path with
       | Some f => (Ok f, w)
       | None => (Err (OSError path), w)
       end.

(** [f.create_dataset(name, ...)] on the open container [path]: an
    existing name is an error. *)
Definition create_dataset (path key : string) (a : ndarray) (attrs : attributes)
    : M unit :=
  let* f := h5_read path in
  match f !! key with
  | Some _ => raise (ValueError "Unable to create dataset (name already exists)")
  | None => λ w, (Ok (), set_files <[path := <[key := Dataset a attrs]> f]> w)
  end.

(** [frame.to_hdf(path, key, "r+")]: the node under [key] is replaced. *)
Definition to_hdf (path key : string) (n : node) : M unit :=
  let* f := h5_read path in
  λ w, (Ok (), set_files <[path := <[key := n]> f]> w).

Definition read_key (path key : string) : M node :=
  let* f := h5_read path in
  match f !! key with
  | Some n => ret n
  | None => raise (KeyError key)
  end.

(** [pd.read_hdf(path, key)] of a [Metadata] table. *)
Definition read_hdf (path key : string) : M (list Segment) :=
  let* n := read_key path key in
  match n with
  | Frame m => ret m
  | _ => raise (TypeError key)
  end.

(** [f[key][()]]: the whole dataset. *)
Definition read_dataset (path key : string) : M ndarray :=
  let* n := read_key path key in
  match n with
  | Dataset a _ => ret a
  | _ => raise (TypeError key)
  end.

(** [os.remove(path)]. *)
Definition os_remove (path : string) : M unit :=
  λ w, match files w !! path with
       | Some _ => (Ok (), set_files (delete path) w)
       | None => (Err (OSError path), w)
       end.

(** Assignment to the slice [start:stop] of [rows], with Python's clipping
    of the bounds; the data must fill the selection exactly. *)
Definition write_rows (indices : nat * nat) (data rows : list row)
    : option (list row) :=
  let stop' := indices.2 `min` length rows in
  let start' := indices.1 `min` stop' in
  if decide (length data = stop' - start')
  then Some (take start' rows ++ data ++ drop stop' rows)
  else None.

(** [f[key][indices] = data]. *)
Definition write_range (path key : string) (indices : nat * nat) (data : ndarray)
    : M unit :=
  let* f := h5_read path in
  match f !! key with
  | Some (Dataset a attrs) =>
      if decide (nd_dims data = nd_dims a) then
        match write_rows indices (nd_rows data) (nd_rows a) with
        | Some rows' =>
            λ w, (Ok (),
                  set_files <[path := <[key := Dataset (NdArray (nd_dtype a) (nd_dims a) rows') attrs]> f]> w)
        | None => raise (TypeError "Can't broadcast")
        end
      else raise (TypeError "Can't broadcast")
  | Some _ => raise (TypeError key)
  | None => raise (KeyError key)
  end.

(** ** The layout index *)

Module Metadata.

(** Modelled from the spec: the class [Metadata] of [mmk/data/metadata.py]
    is imported by the module but is not among the sources.  Section 4.1
    gives the contract of [from_duration]: it computes cumulative offsets,
    one segment per duration; a fresh frame has a [RangeIndex] and no
    [name] column. *)
Fixpoint cumulative (offset i : nat) (durations : list nat) : list Segment :=
  match durations with
  | [] => []
  | d :: rest =>
      MkSegment (LInt i) None offset (offset + d)
        :: cumulative (offset + d) (S i) rest
  end.

(** Modelled from the spec: [Metadata.from_duration], absent from the
    sources; section 4.1: cumulative offsets, [EmptyInputError] on the
    empty sequence. *)
Definition from_duration (durations : list nat) : result (list Segment) :=
  match durations with
  | [] => Err EmptyInputError
  | _ :: _ => Ok (cumulative 0 0 durations)
  end.

(** Modelled from the spec: [Metadata.last_stop], absent from the sources;
    section 3: the stop of the last segment, which an empty layout does
    not have. *)
Definition last_stop (m : list Segment) : result nat :=
  match last m with
  | Some s => Ok (stop s)
  | None => Err (IndexError "last_stop of an empty layout")
  end.

(** Modelled from the spec: [Metadata.slices], absent from the sources;
    section 4.1: the ordered decomposition into one row range per
    segment. *)
Definition slices (m : list Segment) : list (nat * nat) :=
  (λ s, (start s, stop s)) <$> m.

(** The pandas operations the module applies to a frame. *)

(** [df.name]: the column, when the frame has one. *)
Definition name_column (m : list Segment) : result (list label) :=
  mapM (λ s, match seg_name s with
             | Some l => Ok l
             | None => Err (AttributeError "name")
             end) m.

(** [layout.index = paths]. *)
Definition set_index (paths : list string) (m : list Segment)
    : result (list Segment) :=
  if decide (length paths = length m)
  then Ok (zip_with (λ p s, MkSegment (LStr p) (seg_name s) (start s) (stop s))
             paths m)
  else Err (ValueError "Length mismatch").

(** [layout.reset_index(drop=False, inplace=True)] followed by
    [layout.rename(columns={"index": "name"})]: the old index becomes the
    [name] column and the index is a fresh [RangeIndex]. *)
Definition reset_index_rename (m : list Segment) : list Segment :=
  imap (λ i s, MkSegment (LInt i) (Some (seg_index s)) (start s) (stop s)) m.

(** [scr.loc[:, ("start", "stop")] = scr.loc[:, ("start", "stop")].values + offset]. *)
Definition add_offset (offset : nat) (m : list Segment) : list Segment :=
  (λ s, MkSegment (seg_index s) (seg_name s) (start s + offset) (stop s + offset))
    <$> m.

(** [pd.concat(..., ignore_index=True)] relabels the rows. *)
Definition ignore_index (m : list Segment) : list Segment :=
  imap (λ i s, MkSegment (LInt i) (seg_name s) (start s) (stop s)) m.

(** [scr.loc[:, "name"] = value]. *)
Definition set_name (value : string) (m : list Segment) : list Segment :=
  (λ s, MkSegment (seg_index s) (Some (LStr value)) (start s) (stop s)) <$> m.

(** The invariants section 3 of the spec asks of a layout. *)
Fixpoint contiguous (m : list Segment) : Prop :=
  match m with
  | s :: (s' :: _) as rest => stop s = start s' ∧ contiguous rest
  | _ => True
  end.

Definition starts_at_zero (m : list Segment) : Prop :=
  start <$> head m = Some 0.

End Metadata.

(** The persisted form of a layout: segment name and bounds, in order. *)
Definition bounds (s : Segment) : nat * nat := (start s, stop s).

(** ** Helper functions of the module *)

(** [_empty_info], lines 91-97: one group of columns per feature other
    than ["metadata"], all NaN. *)
Definition _empty_info (features_names : list string)
    : gmap string (option feat_info) :=
  list_to_map ((λ feat, (feat, None)) <$>
               filter (λ feat, feat ≠ "metadata") features_names).

(** [split_path], lines 100-103. *)
Definition split_path (path : string) : string * string :=
  let parts := Py.split slash path in
  (Py.join "/" (Py.init parts), Py.final parts).

(** The store path of line 121:
    [".".join(abs_path.split(".")[:-1] + ["h5"])]. *)
Definition tmp_db_of (abs_path : string) : string :=
  Py.join "." (Py.init (Py.split dot abs_path) ++ ["h5"]).

(** Lines 182-184 of [ds_definitions_from_infos]: ["/".join(parts)], then
    [".".join(path.split(".")[:-1]) + ".h5"]. *)
Definition rejoin (parts : string * string) : string :=
  Py.join "/" [parts.1; parts.2].

Definition change_extension (path : string) : string :=
  Py.join "." (Py.init (Py.split dot path)) +:+ ".h5".

(** ** [file_to_db], lines 108-141 *)

Abbreviation features := (gmap string (attributes * value)).

(** The body of the loop of lines 126-134 on the container [tmp_db]; the
    accumulator is the single row of [info].  Setting the cells of a dense
    feature adds its columns when [_empty_info] left them out. *)
Definition store_feature (tmp_db : string)
    (info : gmap string (option feat_info))
    (item : string * (attributes * value)) : M (gmap string (option feat_info)) :=
  match item.2.2 with
  | Dense data =>
      let* _ := create_dataset tmp_db item.1 data item.2.1 in
      ret (<[item.1 := Some (FeatInfo (nd_dtype data) (nd_shape data))]> info)
  | Table data =>
      let* _ := to_hdf tmp_db item.1 (Frame data) in
      ret info
  | Opaque => ret info
  end.

(** The extraction function is called before the container is opened.  The
    handle is closed on line 136, so the membership test of line 137 is
    false and the row written is the one just built. *)
Definition file_to_db (extract_func : string → result features)
    (mode : open_mode) (abs_path : string) : M string :=
  let* _ := logger_info ("making db for " +:+ abs_path) in
  let tmp_db := tmp_db_of abs_path in
  let* rv := lift (extract_func abs_path) in
  let info := _empty_info (map_to_list rv).*1 in
  let parts := split_path abs_path in
  let* _ := h5_open tmp_db mode in
  let* info := foldM (store_feature tmp_db) info (map_to_list rv) in
  let* _ := to_hdf tmp_db "info" (Info [InfoRow parts.1 parts.2 info]) in
  ret tmp_db.

(** ** [make_db_for_each_file], lines 146-152

    [multiprocessing.Pool.starmap] cuts the arguments into chunks, hands
    each chunk to a worker, and stores the result of chunk [i] at its own
    position of the result list whenever it completes.  The order in which
    chunks complete is the [schedule]. *)

Definition chunksize (n n_cores : nat) : nat :=
  if decide (n = 0) then 0
  else n / (n_cores * 4) + (if decide (n `mod` (n_cores * 4) = 0) then 0 else 1).

Definition number_left (n cs : nat) : nat :=
  if decide (cs = 0) then 0
  else n / cs + (if decide (n `mod` cs = 0) then 0 else 1).

Definition chunk {A} (cs i : nat) (args : list A) : list A :=
  take cs (drop (i * cs) args).

Record MapResult := MkMapResult {
  _value : list (option string);
  _exception : option exn
}.

(** [MapResult._set]: a successful chunk fills its slice while no failure
    has been seen; only the first failure is kept. *)
Definition _set (cs i : nat) (r : result (list string)) (mr : MapResult)
    : MapResult :=
  match _exception mr, r with
  | None, Ok res =>
      MkMapResult (take (i * cs) (_value mr) ++ (Some <$> res)
                     ++ drop ((i + 1) * cs) (_value mr)) None
  | None, Err e => MkMapResult (_value mr) (Some e)
  | Some _, _ => mr
  end.

Fixpoint run_chunks (task : nat → M (list string)) (cs : nat)
    (schedule : list nat) (mr : MapResult) (w : world) : MapResult * world :=
  match schedule with
  | [] => (mr, w)
  | i :: rest =>
      let '(r, w') := task i w in
      run_chunks task cs rest (_set cs i r mr) w'
  end.

(** [MapResult.get] once every chunk has reported. *)
Definition get (mr : MapResult) : result (list string) :=
  match _exception mr with
  | Some e => Err e
  | None =>
      match mapM id (_value mr) with
      | Some paths => Ok paths
      | None => Err (RuntimeError "result not ready")
      end
  end.

Definition starmap (n_cores : nat) (func : string → M string)
    (args : list string) (schedule : list nat) : M (list string) :=
  if decide (n_cores = 0)
  then raise (ValueError "Number of processes must be at least 1")
  else
    let cs := chunksize (length args) n_cores in
    λ w,
      let '(mr, w') :=
        run_chunks (λ i, forM func (chunk cs i args)) cs schedule
          (MkMapResult (replicate (length args) None) None) w in
      (get mr, w').

Definition make_db_for_each_file (file_walker : list string)
    (extract_func : string → result features) (n_cores : nat)
    (schedule : list nat) : M (list string) :=
  starmap n_cores (file_to_db extract_func ModeW) file_walker schedule.

(** ** Reading the per-source stores, lines 157-173 *)

Module Database.

(** Modelled from the spec: [Database.info] of [mmk/data/api.py], absent
    from the sources; section 6: a per-source store holds one [info]
    table, which this reads back. *)
Definition info (db : string) : M (list info_row) :=
  let* n := read_key db "info" in
  match n with
  | Info rows => ret rows
  | _ => raise (TypeError "info")
  end.

(** Modelled from the spec: [Database.metadata], absent from the sources;
    section 6: the [metadata] table of the store, as a [Metadata] frame. *)
Definition metadata (db : string) : M (list Segment) := read_hdf db "metadata".

End Database.

(** [pd.concat] refuses an empty list of frames. *)
Definition pd_concat {A} (frames : list (list A)) : result (list A) :=
  match frames with
  | [] => Err (ValueError "No objects to concatenate")
  | _ :: _ => Ok (concat frames)
  end.

Definition collect_infos (tmp_dbs : list string) : M (list info_row) :=
  let* infos := forM Database.info tmp_dbs in
  lift (pd_concat infos).

(** The loop of lines 167-172, threading [offset] and [metadatas]. *)
Fixpoint collect_metadatas_loop (tmp_dbs : list string) (offset : nat)
    (metadatas : list (list Segment)) : M (list (list Segment)) :=
  match tmp_dbs with
  | [] => ret metadatas
  | db :: rest =>
      let* scr := Database.metadata db in
      let scr := Metadata.add_offset offset scr in
      let scr := Metadata.set_name (Py.join "." (Py.init (Py.split dot db))) scr in
      let* offset' := lift (Metadata.last_stop scr) in
      collect_metadatas_loop rest offset' (metadatas ++ [scr])
  end.

Definition collect_metadatas (tmp_dbs : list string) : M (list Segment) :=
  let* metadatas := collect_metadatas_loop tmp_dbs 0 [] in
  lift (Metadata.ignore_index <$> pd_concat metadatas).

(** ** [ds_definitions_from_infos], lines 180-197 *)

Record ds_definition := DsDefinition {
  shape : nat * list nat;
  dtype : option string;
  layout : list Segment
}.

(** The cell of feature [f] in one row of the concatenated [infos]; a
    source without the feature has NaN there. *)
Definition cell (f : string) (r : info_row) : option feat_info :=
  columns r !! f ≫= id.

(** [Series.unique()]: the values in order of first appearance. *)
Fixpoint unique {A} `{EqDecision A} (l : list A) : list A :=
  match l with
  | [] => []
  | x :: rest => x :: filter (λ y, y ≠ x) (unique rest)
  end.

(** [.item()] of an array: defined for exactly one element. *)
Definition item {A} (l : list A) : result A :=
  match l with
  | [x] => Ok x
  | _ => Err (ValueError "can only convert an array of size 1 to a Python scalar")
  end.

(** [shp[1:]] of a cell of the [shape] row; NaN is not subscriptable. *)
Definition shape_tail (shp : option feat_info) : result (list nat) :=
  match shp with
  | Some fi => Ok (drop 1 (fi_shape fi))
  | None => Err (TypeError "'float' object is not subscriptable")
  end.

(** [s[0]]. *)
Definition shape_head (shp : option feat_info) : result nat :=
  match shp with
  | Some fi =>
      match fi_shape fi with
      | n :: _ => Ok n
      | [] => Err (IndexError "tuple index out of range")
      end
  | None => Err (TypeError "'float' object is not subscriptable")
  end.

(** The assertion of lines 191-192: [all] stops at the first shape whose
    tail differs, and evaluating a tail may itself raise. *)
Fixpoint assert_same_dims (dims : list nat) (shapes : list (option feat_info))
    : result unit :=
  match shapes with
  | [] => Ok ()
  | shp :: rest =>
      tl ← shape_tail shp;
      if decide (tl = dims) then assert_same_dims dims rest
      else Err ShapeMismatchError
  end.

(** The body of the loop of lines 187-196 for one feature. *)
Definition ds_definition_of (infos : list info_row) (paths : list string)
    (f : string) : result ds_definition :=
  dtype ← item (unique ((λ r, fi_dtype <$> cell f r) <$> infos));
  let shapes := cell f <$> infos in
  shape0 ← match shapes with
           | shp :: _ => Ok shp
           | [] => Err (IndexError "index 0 is out of bounds")
           end;
  dims ← shape_tail shape0;
  _ ← assert_same_dims dims (drop 1 shapes);
  durations ← mapM shape_head shapes;
  layout ← Metadata.from_duration durations;
  total ← Metadata.last_stop layout;
  layout ← Metadata.set_index paths layout;
  mret (DsDefinition (total, dims) dtype layout).

(** [set(tb.index.get_level_values(0))]: the features that are a column of
    some row. *)
Definition info_features (infos : list info_row) : gset string :=
  ⋃ ((λ r, dom (columns r)) <$> infos).

Definition info_paths (infos : list info_row) : list string :=
  let paths := (λ r, rejoin (directory r, name r)) <$> infos in
  change_extension <$> paths.

(** The features are a Python [set]; the loop visits them in the order of
    [elements]. *)
Definition ds_definitions_from_infos (infos : list info_row)
    : result (list (string * ds_definition)) :=
  let paths := info_paths infos in
  let features := info_features infos in
  mapM (λ f, (λ d, (f, d)) <$> ds_definition_of infos paths f) (elements features).

(** Every feature is present in every source, with one dtype and a shape
    of at least one dimension. *)
Definition homogeneous (infos : list info_row) : Prop :=
  ∀ g, g ∈ info_features infos →
       ∃ dt, ∀ r, r ∈ infos →
                  ∃ n dims, cell g r = Some (FeatInfo dt (n :: dims)).

(** ** [create_datasets_from_defs], lines 200-213 *)

(** [f.create_dataset(name, shape=..., dtype=...)] without data: the rows
    are zero-filled. *)
Definition empty_array (shape : nat * list nat) (dtype : string) : ndarray :=
  NdArray dtype shape.2 (replicate shape.1 (replicate (foldr Nat.mul 1 shape.2) 0%Z)).

(** The body of the loop of lines 202-210 for one entry of [defs].  The
    in-place [reset_index] also changes the layout held by [defs], which no
    later step reads: the scatter step reloads the persisted table. *)
Definition allocate (target : string) (def : string * ds_definition) : M unit :=
  let* dt := match dtype def.2 with
             | Some dt => ret dt
             | None => raise (TypeError "data type not understood")
             end in
  let* _ := create_dataset target def.1 (empty_array (shape def.2) dt) [] in
  let layout := Metadata.reset_index_rename (layout def.2) in
  to_hdf target ("layouts/" +:+ def.1) (Frame layout).

Definition create_datasets_from_defs (target : string)
    (defs : list (string * ds_definition)) (mode : open_mode) : M unit :=
  let* _ := h5_open target mode in
  forM_ (allocate target) defs.

(** ** [make_integration_args] and [integrate], lines 216-231 *)

(** The members of the group ["layouts"] of a container. *)
Definition layouts_keys (f : gmap string node) : result (list string) :=
  match omap (Py.strip_prefix "layouts/") (elements (dom f)) with
  | [] => Err (KeyError "layouts")
  | names => Ok names
  end.

Definition make_integration_args (target : string)
    : M (list (string * label * string * (nat * nat))) :=
  let* f := h5_read target in
  let* feats := lift (layouts_keys f) in
  let* args :=
    forM (λ feature,
            let* df := read_hdf target ("layouts/" +:+ feature) in
            let* names := lift (Metadata.name_column df) in
            ret (zip_with (λ source indices, (target, source, feature, indices))
                   names (Metadata.slices df)))
         feats in
  ret (concat args).

Definition integrate (arg : string * label * string * (nat * nat)) : M unit :=
  let '(target, source, key, indices) := arg in
  match source with
  | LStr source =>
      let* data := read_dataset source key in
      write_range target key indices data
  | LInt _ => raise (TypeError "expected str, bytes or os.PathLike object")
  end.

(** ** [aggregate_dbs] and [make_root_db], lines 236-253 *)

Definition aggregate_dbs (target : string) (dbs : list string)
    (mode : open_mode) (remove_sources : bool) : M unit :=
  let* infos := collect_infos dbs in
  let* metadata := collect_metadatas dbs in
  let* definitions := lift (ds_definitions_from_infos infos) in
  let* _ := create_datasets_from_defs target definitions mode in
  let* args := make_integration_args target in
  let* _ := forM_ integrate args in
  let* _ := if remove_sources then forM_ os_remove dbs else ret () in
  let* _ := to_hdf target "info" (Info infos) in
  to_hdf target "metadata" (Frame metadata).

Definition make_root_db (db_name : string) (file_walker : list string)
    (extract_func : string → result features) (n_cores : nat)
    (remove_sources : bool) (schedule : list nat) : M unit :=
  let* dbs := make_db_for_each_file file_walker extract_func n_cores schedule in
  aggregate_dbs db_name dbs ModeW remove_sources.

(** The layout of one feature as the Scatter Integrator reloads it. *)
Definition load_layout (target feature : string) : M (list Segment) :=
  read_hdf target ("layouts/" +:+ feature).

(** ** What [file_to_db] leaves behind, as pure functions

    The effect of the loop of lines 126-134 on the container and on the
    row of [info], and the finished per-source store. *)

Definition stored (f : gmap string node) (item : string * (attributes * value))
    : gmap string node :=
  match item.2.2 with
  | Dense data => <[item.1 := Dataset data item.2.1]> f
  | Table data => <[item.1 := Frame data]> f
  | Opaque => f
  end.

Definition recorded (info : gmap string (option feat_info))
    (item : string * (attributes * value)) : gmap string (option feat_info) :=
  match item.2.2 with
  | Dense data => <[item.1 := Some (FeatInfo (nd_dtype data) (nd_shape data))]> info
  | _ => info
  end.

Definition info_of (abs_path : string) (rv : features) : info_row :=
  InfoRow (split_path abs_path).1 (split_path abs_path).2
    (foldl recorded (_empty_info (map_to_list rv).*1) (map_to_list rv)).

Definition store_of (abs_path : string) (rv : features) : gmap string node :=
  <["info" := Info [info_of abs_path rv]]> (foldl stored ∅ (map_to_list rv)).

Definition making_db (abs_path : string) : string :=
  "making db for " +:+ abs_path.

(** ** What a worker does with one chunk, as pure functions

    A worker runs [file_to_db] on the sources of its chunk in order and
    stops at the first failure. *)

Fixpoint chunk_result (extract_func : string → result features)
    (sources : list string) : result (list string) :=
  match sources with
  | [] => Ok []
  | p :: rest =>
      match extract_func p with
      | Ok _ => (λ dbs, tmp_db_of p :: dbs) <$> chunk_result extract_func rest
      | Err e => Err e
      end
  end.

Fixpoint attempted (extract_func : string → result features)
    (sources : list string) : list string :=
  match sources with
  | [] => []
  | p :: rest =>
      match extract_func p with
      | Ok _ => p :: attempted extract_func rest
      | Err _ => [p]
      end
  end.

Fixpoint written (extract_func : string → result features)
    (sources : list string) (fs : gmap string (gmap string node))
    : gmap string (gmap string node) :=
  match sources with
  | [] => fs
  | p :: rest =>
      match extract_func p with
      | Ok rv => written extract_func rest (<[tmp_db_of p := store_of p rv]> fs)
      | Err _ => fs
      end
  end.

(** ** Sources with one dense feature

    A source whose extraction returns the dense feature ["f"] and the
    table ["metadata"], as the three sources of the end-to-end scenario. *)

Record source := Source {
  src_path : string;
  src_attrs : attributes;
  src_data : ndarray;
  src_meta_attrs : attributes;
  src_meta : list Segment
}.

Definition extraction (s : source) : features :=
  <["f" := (src_attrs s, Dense (src_data s))]>
    (<["metadata" := (src_meta_attrs s, Table (src_meta s))]> ∅).

Definition src_db (s : source) : string := tmp_db_of (src_path s).

Definition src_rows (s : source) : list row := nd_rows (src_data s).

(** The row ranges of consecutive blocks of the given sizes. *)
Fixpoint offsets (offset : nat) (sizes : list nat) : list (nat * nat) :=
  match sizes with
  | [] => []
  | n :: rest => (offset, offset + n) :: offsets (offset + n) rest
  end.

(** The row of [info] that [file_to_db] writes for such a source. *)
Definition src_info (s : source) : info_row :=
  InfoRow (split_path (src_path s)).1 (split_path (src_path s)).2
    {["f" := Some (FeatInfo (nd_dtype (src_data s)) (nd_shape (src_data s)))]}.

(** The layout planned for such sources and the form in which it is
    persisted. *)
Definition planned_layout (sources : list source) : list Segment :=
  zip_with (λ p s, MkSegment (LStr p) (seg_name s) (start s) (stop s))
    (src_db <$> sources)
    (Metadata.cumulative 0 0 ((λ s, length (src_rows s)) <$> sources)).

Definition persisted_layout (sources : list source) : list Segment :=
  Metadata.reset_index_rename (planned_layout sources).

(** The per-source stores of the sources are in place. *)
Definition stores_built (sources : list source) (w : world) : Prop :=
  ∀ s, s ∈ sources →
       files w !! src_db s = Some (store_of (src_path s) (extraction s)).

(** ** Example sources

    Extraction functions given by a table from source path to outcome, and
    dense features whose rows carry a tag and their position. *)

Module Example.

Definition extract_from (table : list (string * result features))
    (abs_path : string) : result features :=
  match (list_to_map table : gmap string (result features)) !! abs_path with
  | Some outcome => outcome
  | None => Err (OSError abs_path)
  end.

Definition array (dims : list nat) (tag : Z) (n : nat) : ndarray :=
  NdArray "float64" dims ((λ i, [tag; Z.of_nat i]) <$> seq 0 n).

(** The outcome for a source with one dense feature ["f"] and its
    ["metadata"] table. *)
Definition outcome (a : ndarray) : result features :=
  Ok (<["f" := ([], Dense a)]>
        (<["metadata" := ([], Table [MkSegment (LInt 0) None 0 (length (nd_rows a))])]> ∅)).

Definition failure : result features := Err (RuntimeError "cannot decode").

Definition empty_world : world := World ∅ [].

(** Three sources of leading sizes 10, 20 and 5. *)
Definition three : string → result features :=
  extract_from [("/data/s1.wav", outcome (array [2] 1 10));
                ("/data/s2.wav", outcome (array [2] 2 20));
                ("/data/s3.wav", outcome (array [2] 3 5))].

Definition three_paths : list string :=
  ["/data/s1.wav"; "/data/s2.wav"; "/data/s3.wav"].

Definition as_source (abs_path : string) (a : ndarray) : source :=
  Source abs_path [] a [] [MkSegment (LInt 0) None 0 (length (nd_rows a))].

Definition s1 : source := as_source "/data/s1.wav" (array [2] 1 10).
Definition s2 : source := as_source "/data/s2.wav" (array [2] 2 20).
Definition s3 : source := as_source "/data/s3.wav" (array [2] 3 5).


(** Five sources, the third of which cannot be extracted. *)
Definition five : string → result features :=
  extract_from [("/data/s1.wav", outcome (array [2] 1 3));
                ("/data/s2.wav", outcome (array [2] 2 4));
                ("/data/s3.wav", failure);
                ("/data/s4.wav", outcome (array [2] 4 2));
                ("/data/s5.wav", outcome (array [2] 5 1))].

Definition five_paths : list string :=
  ["/data/s1.wav"; "/data/s2.wav"; "/data/s3.wav"; "/data/s4.wav"; "/data/s5.wav"].

(** Two sources whose feature ["f"] has shapes (100, 8) and (50, 16). *)
Definition mismatched : string → result features :=
  extract_from [("/data/s1.wav", outcome (array [8] 1 100));
                ("/data/s2.wav", outcome (array [16] 2 50))].

Definition mismatched_paths : list string := ["/data/s1.wav"; "/data/s2.wav"].

(** The world after the per-source stores of [paths] have been built. *)
Definition built (paths : list string) (extract_func : string → result features)
    : world :=
  (make_db_for_each_file paths extract_func 2 (seq 0 (length paths)) empty_world).2.

(** The plan for the three sources. *)
Definition three_defs : list (string * ds_definition) :=
  [("f", DsDefinition (35, [2]) (Some "float64")
           [MkSegment (LStr "/data/s1.h5") None 0 10;
            MkSegment (LStr "/data/s2.h5") None 10 30;
            MkSegment (LStr "/data/s3.h5") None 30 35])].

Definition three_dbs : list string :=
  ["/data/s1.h5"; "/data/s2.h5"; "/data/s3.h5"].



(** The rows of [info] collected from the stores of [mismatched]. *)
Definition mismatched_infos : list info_row :=
  match (collect_infos ["/data/s1.h5"; "/data/s2.h5"]
           (built mismatched_paths mismatched)).1 with
  | Ok infos => infos
  | Err _ => []
  end.

(** Two sources, the second of which also returns a table of labels. *)
Definition labelled : string → result features :=
  extract_from
    [("/data/s1.wav", outcome (array [2] 1 3));
     ("/data/s2.wav",
      <["labels" := ([], Table [MkSegment (LInt 0) None 0 4])]>
        <$> outcome (array [2] 2 4))].

(** The rows of [info] collected from the stores of [labelled]. *)
Definition labelled_infos : list info_row :=
  match (collect_infos ["/data/s1.h5"; "/data/s2.h5"]
           (built mismatched_paths labelled)).1 with
  | Ok infos => infos
  | Err _ => []
  end.

(** The world after the three stores have been built and the aggregate
    store has been allocated. *)
Definition allocated : world :=
  (create_datasets_from_defs "/out/root.h5" three_defs ModeW
     (built three_paths three)).2.

End Example.

(** ** [AudioFileWalker.is_audio_file], lines 72-77

    The test relies on [str.startswith], [os.path.splitext] (the POSIX
    one, [genericpath._splitext] with separator ["/"] and no alternative
    separator) and [str.strip]. *)

Module Walker.

(** [s.rfind(c)]: the last index of [c] in [s], or -1. *)
Fixpoint rfind (c : ascii) (s : string) : Z :=
  match s with
  | EmptyString => (-1)%Z
  | String a s' =>
      let r := rfind c s' in
      if (0 <=? r)%Z then (1 + r)%Z
      else if decide (a = c) then 0%Z else (-1)%Z
  end.

(** [p[:k]] and [p[k:]] for an index [0 <= k]. *)
Fixpoint take (n : nat) (s : string) : string :=
  match n, s with
  | S n', String a s' => String a (take n' s')
  | _, _ => EmptyString
  end.

Fixpoint drop (n : nat) (s : string) : string :=
  match n, s with
  | S n', String _ s' => drop n' s'
  | _, _ => s
  end.

(** The [while] loop of [_splitext]: whether one of the [count] characters
    from index [i] on is not a dot. *)
Fixpoint has_non_dot (p : string) (i count : nat) : bool :=
  match count with
  | O => false
  | S count' =>
      match String.get i p with
      | Some a => if decide (a = dot) then has_non_dot p (S i) count' else true
      | None => true
      end
  end.

(** [os.path.splitext(p)]: the extension starts at the last dot, provided
    that dot comes after the last separator and after a character of the
    base name that is not a dot. *)
Definition splitext (p : string) : string * string :=
  let sepIndex := rfind slash p in
  let dotIndex := rfind dot p in
  if (sepIndex <? dotIndex)%Z then
    let filenameIndex := (sepIndex + 1)%Z in
    if has_non_dot p (Z.to_nat filenameIndex) (Z.to_nat (dotIndex - filenameIndex))
    then (take (Z.to_nat dotIndex) p, drop (Z.to_nat dotIndex) p)
    else (p, EmptyString)
  else (p, EmptyString).

(** [s.lstrip(c)], [s.rstrip(c)] and [s.strip(c)] for a one-character [c]. *)
Fixpoint lstrip (c : ascii) (s : string) : string :=
  match s with
  | EmptyString => EmptyString
  | String a s' => if decide (a = c) then lstrip c s' else s
  end.

Fixpoint rstrip (c : ascii) (s : string) : string :=
  match s with
  | EmptyString => EmptyString
  | String a s' =>
      match rstrip c s' with
      | EmptyString => if decide (a = c) then EmptyString else String a EmptyString
      | r => String a r
      end
  end.

Definition strip (c : ascii) (s : string) : string := rstrip c (lstrip c s).

(** [s.startswith(prefix)]. *)
Definition startswith (pre s : string) : bool := String.prefix pre s.

Definition AUDIO_EXTENSIONS : list string :=
  ["wav"; "aif"; "aiff"; "mp3"; "m4a"; "mp4"].

Definition is_audio_file (filename : string) : bool :=
  if startswith "." filename then false
  else bool_decide (strip dot (splitext filename).2 ∈ AUDIO_EXTENSIONS).

End Walker.

(** ** [zip_prev_next], lines 176-177: [zip(iterable[:-1], iterable[1:])] *)

Definition zip_prev_next {A} (iterable : list A) : list (A * A) :=
  zip (removelast iterable) (List.tl iterable).

(** ** Footprints

    A computation [touches] a list of paths when, whatever its outcome, it
    leaves the log and every file outside the list as they were. *)

Definition touches {A} (paths : list string) (c : M A) : Prop :=
  ∀ w, log (c w).2 = log w
       ∧ ∀ path, path ∉ paths → files (c w).2 !! path = files w !! path.

(** ** What [collect_metadatas] computes, as a pure function

    The tables [ms] of the stores [dbs], each shifted by the offset the
    loop of lines 167-172 has reached and named after its store. *)

Fixpoint shifted (dbs : list string) (ms : list (list Segment)) (offset : nat)
    : list (list Segment) :=
  match dbs, ms with
  | db :: dbs', m :: ms' =>
      let scr := Metadata.set_name (Py.join "." (Py.init (Py.split dot db)))
                   (Metadata.add_offset offset m) in
      scr :: shifted dbs' ms' (default offset (stop <$> last scr))
  | _, _ => []
  end.

(** The sum of the last stops of the first [k] tables. *)
Definition stops_before (k : nat) (ms : list (list Segment)) : nat :=
  sum_list ((λ m, default 0 (stop <$> last m)) <$> take k ms).

(** The number of rows of the first [k] tables. *)
Definition rows_before (k : nat) (ms : list (list Segment)) : nat :=
  sum_list (length <$> take k ms).

(** * Properties *)

(** ** Splitting and joining strings *)

Section py_strings.

Implicit Types (s stem ext : string) (sep : ascii) (l : list string).

Lemma app_cons (c : ascii) s t : String c s +:+ t = String c (s +:+ t).
Proof. reflexivity. Qed.

Lemma app_empty_l s : "" +:+ s = s.
Proof. reflexivity. Qed.

Lemma app_assoc_str (a b c : string) : (a +:+ b) +:+ c = a +:+ (b +:+ c).
Proof.
  induction a as [|x a IH]; [done |]. by rewrite !app_cons, IH.
Qed.

Lemma split_nonempty sep s : Py.split sep s ≠ [].
Proof.
  destruct s as [|c s]; simpl; [done |].
  case_decide; [done |]. by destruct (Py.split sep s).
Qed.

Lemma split_absent sep s : Py.contains sep s = false → Py.split sep s = [s].
Proof.
  induction s as [|c s IH]; simpl; [done |].
  case_decide; [done |]. intros Hs. by rewrite (IH Hs).
Qed.

Lemma split_present sep s :
  Py.contains sep s = true → Py.init (Py.split sep s) ≠ [].
Proof.
  unfold Py.init. induction s as [|c s IH]; simpl; [done |].
  case_decide as Hc.
  - intros _. pose proof (split_nonempty sep s).
    by destruct (Py.split sep s).
  - intros Hs. specialize (IH Hs).
    destruct (Py.split sep s) as [|h [|h' t]]; simpl in *; done.
Qed.

Lemma join_cons (d : string) x l :
  l ≠ [] → Py.join d (x :: l) = x +:+ d +:+ Py.join d l.
Proof. by destruct l. Qed.

Lemma join_split sep s : Py.join (String sep "") (Py.split sep s) = s.
Proof.
  induction s as [|c s IH]; simpl; [done |].
  case_decide as Hc.
  - subst c. rewrite join_cons by apply split_nonempty. by rewrite IH.
  - destruct (Py.split sep s) as [|h [|h' t]] eqn:E.
    + by apply split_nonempty in E.
    + simpl in *. by rewrite IH.
    + rewrite join_cons by done. rewrite join_cons in IH by done.
      by rewrite app_cons, IH.
Qed.

Lemma join_snoc (d : string) l x :
  l ≠ [] → Py.join d (l ++ [x]) = Py.join d l +:+ d +:+ x.
Proof.
  induction l as [|y l IH]; [done |]. intros _.
  destruct l as [|z l]; [reflexivity |].
  change ((y :: z :: l) ++ [x]) with (y :: ((z :: l) ++ [x])).
  rewrite join_cons by (simpl; discriminate). rewrite IH by done.
  rewrite (join_cons d y (z :: l)) by done. by rewrite !app_assoc_str.
Qed.

Lemma init_final l : l ≠ [] → l = Py.init l ++ [Py.final l].
Proof. intros H. unfold Py.init, Py.final. by apply app_removelast_last. Qed.

Lemma init_snoc l x : Py.init (l ++ [x]) = l.
Proof. unfold Py.init. apply removelast_last. Qed.

Lemma init_cons x l : l ≠ [] → Py.init (x :: l) = x :: Py.init l.
Proof. by destruct l. Qed.



(** Splitting [stem.ext] when the extension holds no separator. *)
Lemma split_snoc sep stem ext :
  Py.contains sep ext = false →
  Py.split sep (stem +:+ String sep ext) = Py.split sep stem ++ [ext].
Proof.
  intros Hext. induction stem as [|c stem IH].
  - rewrite app_empty_l. simpl. rewrite decide_True by done.
    by rewrite split_absent.
  - rewrite app_cons. simpl. case_decide; rewrite IH; [done |].
    pose proof (split_nonempty sep stem).
    by destruct (Py.split sep stem).
Qed.

Lemma cons_ne (c : ascii) s : String c s ≠ s.
Proof.
  intros H. apply (f_equal String.length) in H. simpl in H. lia.
Qed.

Lemma tmp_db_of_ext stem ext :
  Py.contains dot ext = false →
  tmp_db_of (stem +:+ "." +:+ ext) = stem +:+ ".h5".
Proof.
  intros Hext. unfold tmp_db_of.
  change ("." +:+ ext) with (String dot ext).
  rewrite split_snoc by done. rewrite init_snoc.
  rewrite join_snoc by apply split_nonempty.
  by rewrite (join_split dot).
Qed.

(** A path without a dot has no extension to replace: the store path is
    then ["h5"] alone, while the planner computes [".h5"]. *)
Lemma tmp_db_of_no_ext (path : string) :
  Py.contains dot path = false →
  tmp_db_of path = "h5" ∧ change_extension path = ".h5".
Proof.
  intros Hp. unfold tmp_db_of, change_extension. by rewrite split_absent.
Qed.

Lemma rejoin_split_path path :
  Py.contains slash path = true → rejoin (split_path path) = path.
Proof.
  intros H. unfold rejoin, split_path. simpl.
  rewrite <- join_snoc by by apply split_present.
  rewrite <- init_final by apply split_nonempty.
  apply (join_split slash).
Qed.

Lemma split_path_bare path :
  Py.contains slash path = false → split_path path = ("", path).
Proof. intros H. unfold split_path. by rewrite split_absent. Qed.


End py_strings.

(** ** Running the monad *)

Section monad.

Context {A B : Type}.

Lemma bind_ok (c : M A) (k : A → M B) w a w' :
  c w = (Ok a, w') → bind c k w = k a w'.
Proof. intros H. unfold bind. by rewrite H. Qed.

Lemma bind_err (c : M A) (k : A → M B) w e w' :
  c w = (Err e, w') → bind c k w = (Err e, w').
Proof. intros H. unfold bind. by rewrite H. Qed.

Lemma bind_lift_ok (r : result A) (k : A → M B) w a :
  r = Ok a → bind (lift r) k w = k a w.
Proof. by intros ->. Qed.

Lemma bind_lift_err (r : result A) (k : A → M B) w e :
  r = Err e → bind (lift r) k w = (Err e, w).
Proof. by intros ->. Qed.

End monad.

Lemma world_eta w : World (files w) (log w) = w.
Proof. by destruct w. Qed.

(** ** The store capability *)

Section store.

Implicit Types (w : world) (f : gmap string node) (path key : string).

Lemma h5_read_ok path f w :
  files w !! path = Some f → h5_read path w = (Ok f, w).
Proof. intros H. unfold h5_read. by rewrite H. Qed.

Lemma create_dataset_ok path key a attrs f w :
  files w !! path = Some f → f !! key = None →
  create_dataset path key a attrs w
  = (Ok (), World (<[path := <[key := Dataset a attrs]> f]> (files w)) (log w)).
Proof.
  intros Hf Hk. unfold create_dataset.
  rewrite (bind_ok _ _ _ _ _ (h5_read_ok _ _ _ Hf)). by rewrite Hk.
Qed.

Lemma to_hdf_ok path key n f w :
  files w !! path = Some f →
  to_hdf path key n w
  = (Ok (), World (<[path := <[key := n]> f]> (files w)) (log w)).
Proof.
  intros Hf. unfold to_hdf.
  by rewrite (bind_ok _ _ _ _ _ (h5_read_ok _ _ _ Hf)).
Qed.

Lemma read_key_ok path key n f w :
  files w !! path = Some f → f !! key = Some n →
  read_key path key w = (Ok n, w).
Proof.
  intros Hf Hk. unfold read_key.
  rewrite (bind_ok _ _ _ _ _ (h5_read_ok _ _ _ Hf)). by rewrite Hk.
Qed.

Lemma read_hdf_ok path key m f w :
  files w !! path = Some f → f !! key = Some (Frame m) →
  read_hdf path key w = (Ok m, w).
Proof.
  intros Hf Hk. unfold read_hdf.
  by rewrite (bind_ok _ _ _ _ _ (read_key_ok _ _ _ _ _ Hf Hk)).
Qed.

Lemma read_dataset_ok path key a attrs f w :
  files w !! path = Some f → f !! key = Some (Dataset a attrs) →
  read_dataset path key w = (Ok a, w).
Proof.
  intros Hf Hk. unfold read_dataset.
  by rewrite (bind_ok _ _ _ _ _ (read_key_ok _ _ _ _ _ Hf Hk)).
Qed.

(** Reading never changes the store. *)
Lemma read_key_world path key w : (read_key path key w).2 = w.
Proof.
  unfold read_key, bind, h5_read.
  destruct (files w !! path) as [f|]; [| done]. by destruct (f !! key).
Qed.

Lemma read_hdf_world path key w : (read_hdf path key w).2 = w.
Proof.
  unfold read_hdf, bind. pose proof (read_key_world path key w) as H.
  destruct (read_key path key w) as [[n|e] w']; simpl in H; subst; [| done].
  by destruct n.
Qed.

End store.

(** ** The per-source extractor runner *)

Section file_to_db.

Implicit Types (w : world) (f : gmap string node).

Lemma stored_other f item k :
  k ≠ item.1 → stored f item !! k = f !! k.
Proof.
  intros Hk. unfold stored.
  destruct (item.2.2); [| | done]; by rewrite lookup_insert_ne.
Qed.

Lemma store_feature_ok tmp_db info item f w :
  files w !! tmp_db = Some f → f !! item.1 = None →
  store_feature tmp_db info item w
  = (Ok (recorded info item),
     World (<[tmp_db := stored f item]> (files w)) (log w)).
Proof.
  intros Hf Hnone. unfold store_feature, recorded, stored.
  destruct (item.2.2).
  - by rewrite (bind_ok _ _ _ _ _ (create_dataset_ok _ _ _ _ _ _ Hf Hnone)).
  - by rewrite (bind_ok _ _ _ _ _ (to_hdf_ok _ _ _ _ _ Hf)).
  - unfold ret. rewrite insert_id by done. by rewrite world_eta.
Qed.

Lemma foldM_store_feature tmp_db items :
  ∀ info w f,
    NoDup items.*1 →
    files w !! tmp_db = Some f →
    (∀ k, k ∈ items.*1 → f !! k = None) →
    foldM (store_feature tmp_db) info items w
    = (Ok (foldl recorded info items),
       World (<[tmp_db := foldl stored f items]> (files w)) (log w)).
Proof.
  induction items as [|item items IH]; intros info w f Hnd Hf Hfresh.
  - simpl. unfold ret. rewrite insert_id by done. by rewrite world_eta.
  - rewrite fmap_cons in Hnd, Hfresh.
    apply NoDup_cons in Hnd as [Hitem Hnd].
    assert (f !! item.1 = None) as Hnone by (apply Hfresh; left).
    assert (∀ k, k ∈ items.*1 → stored f item !! k = None) as Hfresh'.
    { intros k Hk. rewrite stored_other by (intros ->; done).
      apply Hfresh. by right. }
    change (foldM (store_feature tmp_db) info (item :: items) w)
      with (bind (store_feature tmp_db info item)
              (λ acc, foldM (store_feature tmp_db) acc items) w).
    rewrite (bind_ok _ _ _ _ _ (store_feature_ok _ info _ _ _ Hf Hnone)).
    rewrite (IH _ _ (stored f item)); [| done | apply lookup_insert_eq | done].
    cbn [files log foldl]. by rewrite insert_insert_eq.
Qed.

Lemma file_to_db_ok extract_func abs_path rv w :
  extract_func abs_path = Ok rv →
  file_to_db extract_func ModeW abs_path w
  = (Ok (tmp_db_of abs_path),
     World (<[tmp_db_of abs_path := store_of abs_path rv]> (files w))
       (log w ++ [making_db abs_path])).
Proof.
  intros Hrv. unfold file_to_db.
  erewrite bind_ok by reflexivity.
  rewrite (bind_lift_ok _ _ _ _ Hrv).
  erewrite bind_ok by reflexivity.
  erewrite bind_ok; last first.
  { apply foldM_store_feature with (f := ∅).
    - apply NoDup_fst_map_to_list.
    - cbn [files set_files]. apply lookup_insert_eq.
    - by intros. }
  erewrite bind_ok; last first.
  { apply to_hdf_ok. cbn [files set_files]. apply lookup_insert_eq. }
  unfold ret. cbn [files log set_files]. by rewrite !insert_insert_eq.
Qed.

Lemma file_to_db_err extract_func abs_path e w :
  extract_func abs_path = Err e →
  file_to_db extract_func ModeW abs_path w
  = (Err e, World (files w) (log w ++ [making_db abs_path])).
Proof.
  intros He. unfold file_to_db.
  erewrite bind_ok by reflexivity.
  by rewrite (bind_lift_err _ _ _ _ He).
Qed.

End file_to_db.

(** ** The parallel build scheduler *)

Section pool.

Variable extract_func : string → result features.

Implicit Types (w : world) (sources args : list string) (schedule : list nat).

Lemma forM_file_to_db sources :
  ∀ w,
    forM (file_to_db extract_func ModeW) sources w
    = (chunk_result extract_func sources,
       World (written extract_func sources (files w))
         (log w ++ (making_db <$> attempted extract_func sources))).
Proof.
  induction sources as [|p rest IH]; intros w.
  - simpl. unfold ret. by rewrite app_nil_r, world_eta.
  - cbn [forM chunk_result attempted written].
    destruct (extract_func p) as [rv|e] eqn:Hp.
    + rewrite (bind_ok _ _ _ _ _ (file_to_db_ok _ _ _ _ Hp)).
      unfold bind at 1. rewrite IH. cbn [files log].
      rewrite fmap_cons, <- app_assoc. cbn [app].
      by destruct (chunk_result extract_func rest).
    + by rewrite (bind_err _ _ _ _ _ (file_to_db_err _ _ _ _ Hp)).
Qed.

(** The pool's bookkeeping, the store and the log after the chunks of a
    schedule have run, as folds over the schedule. *)
Lemma run_chunks_folds args cs schedule :
  ∀ mr w,
    run_chunks (λ i, forM (file_to_db extract_func ModeW) (chunk cs i args))
      cs schedule mr w
    = (foldl (λ mr i, _set cs i (chunk_result extract_func (chunk cs i args)) mr)
         mr schedule,
       World
         (foldl (λ fs i, written extract_func (chunk cs i args) fs)
            (files w) schedule)
         (log w ++ concat ((λ i, making_db <$> attempted extract_func (chunk cs i args))
                             <$> schedule))).
Proof.
  induction schedule as [|i rest IH]; intros mr w.
  - simpl. by rewrite app_nil_r, world_eta.
  - cbn [run_chunks]. rewrite forM_file_to_db. rewrite IH.
    cbn [files log foldl fmap list_fmap concat]. by rewrite app_assoc.
Qed.

Lemma chunk_result_all_ok sources :
  (∀ p, p ∈ sources → is_Ok (extract_func p)) →
  chunk_result extract_func sources = Ok (tmp_db_of <$> sources).
Proof.
  induction sources as [|p rest IH]; intros Hok; [done |].
  cbn [chunk_result]. destruct (Hok p) as [rv ->]; [left |].
  rewrite IH; [done |]. intros q Hq. apply Hok. by right.
Qed.

Lemma chunk_result_err sources e :
  chunk_result extract_func sources = Err e →
  ∃ p, p ∈ sources ∧ extract_func p = Err e.
Proof.
  induction sources as [|p rest IH]; [done |].
  cbn [chunk_result]. destruct (extract_func p) as [rv|e'] eqn:Hp.
  - destruct (chunk_result extract_func rest) as [dbs|e'']; [done |].
    intros [= ->]. destruct IH as (q & Hq & He); [done |].
    exists q. split; [by right | done].
  - intros [= ->]. exists p. split; [left | done].
Qed.

Lemma chunk_result_failing sources p e :
  p ∈ sources → extract_func p = Err e →
  ∃ e', chunk_result extract_func sources = Err e'.
Proof.
  induction sources as [|q rest IH]; intros Hp He.
  - by apply elem_of_nil in Hp.
  - cbn [chunk_result]. destruct (extract_func q) as [rv|e'] eqn:Hq.
    + apply elem_of_cons in Hp as [-> | Hp]; [congruence |].
      destruct (IH Hp He) as [e' ->]. by exists e'.
    + by exists e'.
Qed.

Lemma written_other sources :
  ∀ fs path,
    path ∉ tmp_db_of <$> sources →
    written extract_func sources fs !! path = fs !! path.
Proof.
  induction sources as [|p rest IH]; intros fs path Hpath; [done |].
  rewrite fmap_cons in Hpath. apply not_elem_of_cons in Hpath as [Hne Hpath].
  cbn [written]. destruct (extract_func p); [| done].
  rewrite IH by done. by rewrite lookup_insert_ne.
Qed.

Lemma attempted_head sources p :
  head sources = Some p → head (attempted extract_func sources) = Some p.
Proof.
  destruct sources as [|q rest]; [done |]. intros [= ->].
  cbn [attempted]. by destruct (extract_func p).
Qed.

End pool.

(** ** Slice assignment into the result list of the pool *)

Section splice.

Context {A : Type}.

Implicit Types (R v : list A) (a cs i j : nat).

Lemma splice_length R v a cs :
  length v = length R →
  length (take a v ++ take cs (drop a R) ++ drop (a + cs) v) = length R.
Proof. intros Hv. rewrite !length_app, !length_take, !length_drop. lia. Qed.

Lemma splice_lookup R v a cs j :
  length v = length R →
  (take a v ++ take cs (drop a R) ++ drop (a + cs) v) !! j
  = if decide (a ≤ j < a + cs) then R !! j else v !! j.
Proof.
  intros Hv. destruct (decide (j < length R)) as [Hj | Hj].
  - destruct (decide (j < a)) as [Hja | Hja].
    + rewrite lookup_app_l by (rewrite length_take; lia).
      rewrite lookup_take_lt by done. rewrite decide_False by lia. done.
    + rewrite lookup_app_r by (rewrite length_take; lia).
      rewrite length_take, Nat.min_l by lia.
      destruct (decide (j < a + cs)) as [Hjc | Hjc].
      * rewrite lookup_app_l by (rewrite length_take, length_drop; lia).
        rewrite lookup_take_lt by lia. rewrite lookup_drop.
        rewrite decide_True by lia. f_equal. lia.
      * rewrite lookup_app_r by (rewrite length_take, length_drop; lia).
        rewrite length_take, length_drop, Nat.min_l by lia.
        rewrite lookup_drop. rewrite decide_False by lia. f_equal. lia.
  - rewrite (lookup_ge_None_2 (_ ++ _)) by (rewrite splice_length; lia).
    rewrite (lookup_ge_None_2 R), (lookup_ge_None_2 v) by lia.
    by case_decide.
Qed.

Lemma chunk_index cs i j :
  0 < cs → (i * cs ≤ j < i * cs + cs ↔ j / cs = i).
Proof.
  intros Hcs. split.
  - intros [H1 H2]. symmetry. apply (Nat.div_unique j cs i (j - i * cs)); lia.
  - intros <-. pose proof (Nat.div_mod_eq j cs).
    pose proof (Nat.mod_upper_bound j cs). lia.
Qed.

(** Filling the slices of a schedule, in any order: the positions of the
    chunks that ran hold the final values, the others are untouched. *)
Lemma fold_splice R cs schedule :
  0 < cs →
  ∀ v,
    length v = length R →
    let v' := foldl (λ v i, take (i * cs) v ++ take cs (drop (i * cs) R)
                              ++ drop ((i + 1) * cs) v) v schedule in
    length v' = length R
    ∧ ∀ j, v' !! j = if decide (j / cs ∈ schedule) then R !! j else v !! j.
Proof.
  intros Hcs. induction schedule as [|i rest IH]; intros v Hv.
  - cbv zeta. cbn [foldl]. split; [done |]. intros j.
    rewrite decide_False; [done |]. apply not_elem_of_nil.
  - cbn [foldl]. cbv zeta.
    replace ((i + 1) * cs) with (i * cs + cs) by lia.
    destruct (IH (take (i * cs) v ++ take cs (drop (i * cs) R)
                    ++ drop (i * cs + cs) v)) as [Hlen Hlook].
    { by apply splice_length. }
    split; [done |]. intros j. rewrite Hlook.
    rewrite splice_lookup by done.
    destruct (decide (j / cs = i)) as [Hi | Hi].
    + rewrite (decide_True (P := _ ≤ _ < _)) by by apply chunk_index.
      rewrite (decide_True (P := _ ∈ i :: _)) by (subst; left).
      by case_decide.
    + rewrite (decide_False (P := _ ≤ _ < _))
        by (intros H; by apply chunk_index in H).
      destruct (decide (j / cs ∈ rest)) as [Hr | Hr].
      * rewrite decide_True by by right. done.
      * rewrite decide_False; [done |].
        intros [? | ?]%elem_of_cons; done.
Qed.

End splice.

Lemma chunksize_pos n n_cores : 0 < n → 0 < chunksize n n_cores.
Proof.
  intros Hn. unfold chunksize. rewrite decide_False by lia.
  destruct (decide (n `mod` (n_cores * 4) = 0)) as [H0 | H0]; [| lia].
  destruct (decide (n_cores * 4 = 0)) as [Hz | Hz].
  - rewrite Hz in H0. simpl in H0. lia.
  - pose proof (Nat.div_mod_eq n (n_cores * 4)). nia.
Qed.

Lemma number_left_covers n cs j :
  0 < cs → j < n → j / cs < number_left n cs.
Proof.
  intros Hcs Hj. unfold number_left. rewrite decide_False by lia.
  pose proof (Nat.div_mod_eq n cs). pose proof (Nat.mod_upper_bound n cs).
  pose proof (Nat.div_mod_eq j cs). pose proof (Nat.mod_upper_bound j cs).
  case_decide; nia.
Qed.

(** ** What the pool returns *)

Section pool_results.

Variable extract_func : string → result features.

Implicit Types (args : list string) (schedule : list nat).

Lemma elem_of_chunk {A} cs i (l : list A) x : x ∈ chunk cs i l → x ∈ l.
Proof.
  unfold chunk. intros (k & Hk & _)%elem_of_take.
  rewrite lookup_drop in Hk. by eapply list_elem_of_lookup_2.
Qed.

Lemma lookup_chunk {A} cs (l : list A) k x :
  0 < cs → l !! k = Some x → x ∈ chunk cs (k / cs) l.
Proof.
  intros Hcs Hk. unfold chunk.
  pose proof (Nat.div_mod_eq k cs). pose proof (Nat.mod_upper_bound k cs).
  apply elem_of_take. exists (k `mod` cs). split; [| lia].
  rewrite lookup_drop. rewrite <- Hk. f_equal. lia.
Qed.

Lemma fold_set_all_ok args cs schedule :
  (∀ p, p ∈ args → is_Ok (extract_func p)) →
  ∀ v,
    foldl (λ mr i, _set cs i (chunk_result extract_func (chunk cs i args)) mr)
      (MkMapResult v None) schedule
    = MkMapResult
        (foldl (λ v i, take (i * cs) v
                         ++ take cs (drop (i * cs) (Some <$> (tmp_db_of <$> args)))
                         ++ drop ((i + 1) * cs) v) v schedule)
        None.
Proof.
  intros Hok. induction schedule as [|i rest IH]; intros v; [done |].
  cbn [foldl]. rewrite chunk_result_all_ok.
  - unfold _set at 2. cbn [_exception _value]. rewrite IH.
    unfold chunk. by rewrite !fmap_take, !fmap_drop.
  - intros p Hp. apply Hok. by eapply elem_of_chunk.
Qed.

Lemma fold_set_failed args cs schedule mr e :
  _exception mr = Some e →
  foldl (λ mr i, _set cs i (chunk_result extract_func (chunk cs i args)) mr)
    mr schedule = mr.
Proof.
  intros He. induction schedule as [|i rest IH]; [done |].
  cbn [foldl]. unfold _set at 2. by rewrite He.
Qed.

Lemma fold_set_err args cs schedule :
  ∀ v i e,
    i ∈ schedule →
    chunk_result extract_func (chunk cs i args) = Err e →
    ∃ i' e',
      i' ∈ schedule
      ∧ chunk_result extract_func (chunk cs i' args) = Err e'
      ∧ _exception
          (foldl (λ mr i, _set cs i (chunk_result extract_func (chunk cs i args)) mr)
             (MkMapResult v None) schedule) = Some e'.
Proof.
  induction schedule as [|i0 rest IH]; intros v i e Hi He.
  - by apply elem_of_nil in Hi.
  - cbn [foldl].
    destruct (chunk_result extract_func (chunk cs i0 args)) as [res|e0] eqn:H0.
    + apply elem_of_cons in Hi as [-> | Hi]; [congruence |].
      unfold _set at 2. cbn [_exception _value].
      destruct (IH (take (i0 * cs) v ++ (Some <$> res) ++ drop ((i0 + 1) * cs) v)
                  i e Hi He) as (i' & e' & Hi' & He' & Hexc).
      exists i', e'. split; [by right | done].
    + exists i0, e0. split; [left |]. split; [done |].
      unfold _set at 2. cbn [_exception _value].
      by rewrite (fold_set_failed _ _ _ _ e0).
Qed.

Lemma fold_written_other args cs schedule path :
  path ∉ tmp_db_of <$> args →
  ∀ fs,
    foldl (λ fs i, written extract_func (chunk cs i args) fs) fs schedule !! path
    = fs !! path.
Proof.
  intros Hpath. induction schedule as [|i rest IH]; intros fs; [done |].
  cbn [foldl]. rewrite IH. apply written_other.
  intros (p & -> & Hp)%list_elem_of_fmap. apply Hpath.
  apply list_elem_of_fmap. exists p. split; [done |]. by eapply elem_of_chunk.
Qed.

Lemma make_db_for_each_file_run file_walker n_cores schedule w :
  0 < n_cores →
  let cs := chunksize (length file_walker) n_cores in
  make_db_for_each_file file_walker extract_func n_cores schedule w
  = (get (foldl (λ mr i, _set cs i
                           (chunk_result extract_func (chunk cs i file_walker)) mr)
            (MkMapResult (replicate (length file_walker) None) None) schedule),
     World
       (foldl (λ fs i, written extract_func (chunk cs i file_walker) fs)
          (files w) schedule)
       (log w ++ concat ((λ i, making_db <$>
                                 attempted extract_func (chunk cs i file_walker))
                           <$> schedule))).
Proof.
  intros Hn cs. unfold make_db_for_each_file, starmap.
  rewrite decide_False by lia. fold cs. by rewrite run_chunks_folds.
Qed.

Lemma make_db_for_each_file_all_ok file_walker n_cores schedule w :
  0 < n_cores →
  schedule ≡ₚ seq 0 (number_left (length file_walker)
                       (chunksize (length file_walker) n_cores)) →
  (∀ p, p ∈ file_walker → is_Ok (extract_func p)) →
  (make_db_for_each_file file_walker extract_func n_cores schedule w).1
  = Ok (tmp_db_of <$> file_walker).
Proof.
  intros Hn Hperm Hok. rewrite make_db_for_each_file_run by done.
  cbn [fst]. rewrite fold_set_all_ok by done.
  set (cs := chunksize (length file_walker) n_cores) in *.
  set (R := Some <$> (tmp_db_of <$> file_walker)).
  assert (length R = length file_walker) as HR
    by (unfold R; by rewrite !length_fmap).
  destruct (decide (length file_walker = 0)) as [Hz | Hz].
  - apply nil_length_inv in Hz. subst file_walker.
    assert (schedule = []) as ->.
    { apply Permutation_nil_r. by rewrite Hperm. }
    done.
  - assert (0 < cs) as Hcs by (apply chunksize_pos; lia).
    destruct (fold_splice R cs schedule Hcs
                (replicate (length file_walker) None)) as [Hlen Hlook].
    { by rewrite length_replicate. }
    match goal with |- get (MkMapResult ?v None) = _ => assert (v = R) as -> end.
    { apply list_eq. intros j. rewrite Hlook.
      destruct (decide (j < length file_walker)) as [Hj | Hj].
      - rewrite decide_True; [done |]. rewrite Hperm. apply elem_of_seq.
        split; [lia |]. simpl. by apply number_left_covers.
      - rewrite (lookup_ge_None_2 R) by lia.
        rewrite (proj1 (lookup_replicate_None _ _ j)) by lia.
        by case_decide. }
    unfold get, R. cbn [_exception _value].
    by rewrite (mapM_fmap_Some id Some).
Qed.

Lemma make_db_for_each_file_failing file_walker n_cores schedule w p e :
  0 < n_cores →
  schedule ≡ₚ seq 0 (number_left (length file_walker)
                       (chunksize (length file_walker) n_cores)) →
  p ∈ file_walker → extract_func p = Err e →
  ∃ q e',
    q ∈ file_walker ∧ extract_func q = Err e'
    ∧ (make_db_for_each_file file_walker extract_func n_cores schedule w).1
      = Err e'.
Proof.
  intros Hn Hperm Hp He. rewrite make_db_for_each_file_run by done.
  cbn [fst]. set (cs := chunksize (length file_walker) n_cores) in *.
  apply list_elem_of_lookup in Hp as [k Hk].
  assert (k < length file_walker) as Hlt by by eapply lookup_lt_Some.
  assert (0 < cs) as Hcs by (apply chunksize_pos; lia).
  destruct (chunk_result_failing extract_func (chunk cs (k / cs) file_walker) p e)
    as [e1 He1]; [by apply lookup_chunk | done |].
  destruct (fold_set_err file_walker cs schedule
              (replicate (length file_walker) None) (k / cs) e1)
    as (i' & e' & Hi' & He' & Hexc); [| done |].
  { rewrite Hperm. apply elem_of_seq. split; [lia |]. simpl.
    by apply number_left_covers. }
  apply chunk_result_err in He' as (q & Hq & Hqe).
  exists q, e'. split; [by eapply elem_of_chunk |]. split; [done |].
  unfold get. by rewrite Hexc.
Qed.

End pool_results.

(** ** The layout index *)

Section layout.

Implicit Types (durations : list nat) (m : list Segment) (offset i k : nat).

Lemma cumulative_length offset i durations :
  length (Metadata.cumulative offset i durations) = length durations.
Proof.
  revert offset i. induction durations as [|d rest IH]; intros offset i; [done |].
  simpl. by rewrite IH.
Qed.

Lemma cumulative_head offset i durations :
  durations ≠ [] →
  start <$> head (Metadata.cumulative offset i durations) = Some offset.
Proof. by destruct durations. Qed.

Lemma cumulative_contiguous offset i durations :
  Metadata.contiguous (Metadata.cumulative offset i durations).
Proof.
  revert offset i. induction durations as [|d rest IH]; intros offset i; [done |].
  destruct rest as [|d' rest]; [done |].
  split; [done |]. apply (IH (offset + d) (S i)).
Qed.

Lemma cumulative_last offset i durations :
  durations ≠ [] →
  stop <$> last (Metadata.cumulative offset i durations)
  = Some (offset + sum_list durations).
Proof.
  revert offset i. induction durations as [|d rest IH]; intros offset i Hne; [done |].
  destruct rest as [|d' rest].
  - simpl. f_equal. lia.
  - change (Metadata.cumulative offset i (d :: d' :: rest))
      with (MkSegment (LInt i) None offset (offset + d)
              :: Metadata.cumulative (offset + d) (S i) (d' :: rest)).
    change (last (?x :: Metadata.cumulative ?o ?j (d' :: rest)))
      with (last (Metadata.cumulative o j (d' :: rest))).
    rewrite IH by done. f_equal. simpl. lia.
Qed.


Lemma from_duration_ok durations :
  durations ≠ [] →
  Metadata.from_duration durations = Ok (Metadata.cumulative 0 0 durations).
Proof. by destruct durations. Qed.

Lemma last_stop_cumulative durations :
  durations ≠ [] →
  Metadata.last_stop (Metadata.cumulative 0 0 durations)
  = Ok (sum_list durations).
Proof.
  intros Hne. unfold Metadata.last_stop.
  pose proof (cumulative_last 0 0 durations Hne) as H.
  destruct (last (Metadata.cumulative 0 0 durations)); [| done].
  simpl in H. by injection H as ->.
Qed.

End layout.

(** C1: [from_duration] fails with [EmptyInputError] on the empty sequence;
    on every non-empty sequence of durations it yields one segment per
    duration, the segments are contiguous, the first one starts at 0, and
    [last_stop] is the sum of the durations. *)
Theorem from_duration_layout :
  Metadata.from_duration [] = Err EmptyInputError
  ∧ ∀ durations : list nat,
      durations ≠ [] →
      ∃ m, Metadata.from_duration durations = Ok m
           ∧ length m = length durations
           ∧ Metadata.contiguous m
           ∧ Metadata.starts_at_zero m
           ∧ Metadata.last_stop m = Ok (sum_list durations).
Proof.
  split; [done |]. intros durations Hne.
  exists (Metadata.cumulative 0 0 durations). repeat split.
  - by apply from_duration_ok.
  - apply cumulative_length.
  - apply cumulative_contiguous.
  - by apply cumulative_head.
  - by apply last_stop_cumulative.
Qed.

Lemma from_duration_layout_witness :
  ∃ m, Metadata.from_duration [10; 20; 5] = Ok m
       ∧ length m = 3
       ∧ Metadata.contiguous m
       ∧ Metadata.starts_at_zero m
       ∧ Metadata.last_stop m = Ok 35.
Proof. apply (proj2 from_duration_layout [10; 20; 5]). discriminate. Defined.

(** ** Claims about paths and per-source stores *)

(** C10: for a path holding at least one ["/"], rejoining the two
    components of [split_path] with ["/"] recovers the path; for a bare
    file name the directory component is empty and the rejoined path is
    the name with ["/"] in front, which differs from the path. *)
Theorem split_path_rejoin (path : string) :
  (Py.contains slash path = true → rejoin (split_path path) = path)
  ∧ (Py.contains slash path = false →
       split_path path = ("", path)
       ∧ rejoin (split_path path) = "/" +:+ path
       ∧ rejoin (split_path path) ≠ path).
Proof.
  split.
  - apply rejoin_split_path.
  - intros Hbare. rewrite split_path_bare by done.
    split; [done |]. split; [done |]. apply cons_ne.
Qed.

Lemma split_path_rejoin_witness :
  rejoin (split_path "/data/s1.wav") = "/data/s1.wav"
  ∧ split_path "s1.wav" = ("", "s1.wav")
  ∧ rejoin (split_path "s1.wav") = "/s1.wav"
  ∧ rejoin (split_path "s1.wav") ≠ "s1.wav".
Proof.
  split.
  - apply (proj1 (split_path_rejoin "/data/s1.wav")). reflexivity.
  - apply (proj2 (split_path_rejoin "s1.wav")). reflexivity.
Defined.





(** ** Claims about the parallel build *)

(** C3: whatever the pool size and whatever the order in which the chunks
    complete, [make_db_for_each_file] returns the store paths in the order
    of the source paths: position [k] of the result is the store of source
    [k], and two runs that differ in their completion order (and in the
    world they start from) return the same list. *)
Theorem make_db_for_each_file_order (file_walker : list string)
    (extract_func : string → result features) (n_cores : nat)
    (schedule : list nat) (w : world) :
  0 < n_cores →
  schedule ≡ₚ seq 0 (number_left (length file_walker)
                       (chunksize (length file_walker) n_cores)) →
  (∀ p, p ∈ file_walker → is_Ok (extract_func p)) →
  ∃ dbs,
    (make_db_for_each_file file_walker extract_func n_cores schedule w).1
    = Ok dbs
    ∧ dbs = tmp_db_of <$> file_walker
    ∧ (∀ k p, file_walker !! k = Some p → dbs !! k = Some (tmp_db_of p))
    ∧ ∀ schedule' w',
        schedule' ≡ₚ schedule →
        (make_db_for_each_file file_walker extract_func n_cores schedule' w').1
        = Ok dbs.
Proof.
  intros Hn Hperm Hok. exists (tmp_db_of <$> file_walker).
  split; [by apply make_db_for_each_file_all_ok |]. split; [done |]. split.
  - intros k p Hk. by rewrite list_lookup_fmap, Hk.
  - intros schedule' w' Hperm'. apply make_db_for_each_file_all_ok; [done | | done].
    by rewrite Hperm'.
Qed.

Lemma three_sources_extract p :
  p ∈ Example.three_paths → is_Ok (Example.three p).
Proof.
  unfold Example.three_paths. rewrite !elem_of_cons, elem_of_nil.
  intros [-> | [-> | [-> | []]]]; eexists; vm_compute; reflexivity.
Defined.

Lemma make_db_for_each_file_order_witness :
  ∃ dbs,
    (make_db_for_each_file Example.three_paths Example.three 2 [2; 0; 1]
       Example.empty_world).1 = Ok dbs
    ∧ dbs = ["/data/s1.h5"; "/data/s2.h5"; "/data/s3.h5"]
    ∧ (∀ k p, Example.three_paths !! k = Some p → dbs !! k = Some (tmp_db_of p))
    ∧ ∀ schedule' w',
        schedule' ≡ₚ [2; 0; 1] →
        (make_db_for_each_file Example.three_paths Example.three 2 schedule' w').1
        = Ok dbs.
Proof.
  apply (make_db_for_each_file_order Example.three_paths Example.three 2 [2; 0; 1]).
  - lia.
  - apply (bool_decide_unpack _). vm_compute. exact I.
  - apply three_sources_extract.
Defined.

Lemma elem_of_concat {A} (x : A) (l : list A) (ls : list (list A)) :
  x ∈ l → l ∈ ls → x ∈ concat ls.
Proof.
  intros Hx Hl. induction Hl as [l ls | l l' ls _ IH]; simpl.
  - apply elem_of_app. by left.
  - apply elem_of_app. right. by apply IH.
Qed.

(** C4, as the code has it: there is one mode.  When a source fails, every
    chunk of the schedule is still started, the pool raises the failure of
    one of the failing sources, and [make_root_db] stops there: the
    aggregate store is not touched. *)
Theorem make_root_db_failure (db_name : string) (file_walker : list string)
    (extract_func : string → result features) (n_cores : nat)
    (remove_sources : bool) (schedule : list nat) (w : world) (p : string)
    (e : exn) :
  0 < n_cores →
  schedule ≡ₚ seq 0 (number_left (length file_walker)
                       (chunksize (length file_walker) n_cores)) →
  p ∈ file_walker → extract_func p = Err e →
  db_name ∉ tmp_db_of <$> file_walker →
  ∃ q e' w',
    q ∈ file_walker ∧ extract_func q = Err e'
    ∧ make_root_db db_name file_walker extract_func n_cores remove_sources
        schedule w = (Err e', w')
    ∧ files w' !! db_name = files w !! db_name
    ∧ ∀ i s,
        i ∈ schedule →
        head (chunk (chunksize (length file_walker) n_cores) i file_walker) = Some s →
        "making db for " +:+ s ∈ log w'.
Proof.
  intros Hn Hperm Hp He Hdb.
  destruct (make_db_for_each_file_failing extract_func file_walker n_cores
              schedule w p e Hn Hperm Hp He) as (q & e' & Hq & Hqe & Hres).
  pose proof (make_db_for_each_file_run extract_func file_walker n_cores
                schedule w Hn) as Hrun.
  cbv zeta in Hrun. rewrite Hrun in Hres. cbn [fst] in Hres.
  eexists q, e', _. split; [done |]. split; [done |]. split.
  { unfold make_root_db. apply bind_err. rewrite Hrun. by rewrite Hres. }
  cbn [files log]. split.
  - by apply fold_written_other.
  - intros i s Hi Hs. apply elem_of_app. right.
    apply (elem_of_concat _
             (making_db <$> attempted extract_func
                (chunk (chunksize (length file_walker) n_cores) i file_walker))).
    + apply list_elem_of_fmap. exists s. split; [done |].
      apply head_Some_elem_of. by apply attempted_head.
    + apply list_elem_of_fmap. by exists i.
Qed.

Lemma make_root_db_failure_witness :
  ∃ q e' w',
    q ∈ Example.five_paths ∧ Example.five q = Err e'
    ∧ make_root_db "/out/root.h5" Example.five_paths Example.five 2 true
        [4; 2; 0; 1; 3] Example.empty_world = (Err e', w')
    ∧ files w' !! "/out/root.h5" = None
    ∧ ∀ i s,
        i ∈ [4; 2; 0; 1; 3] →
        head (chunk (chunksize 5 2) i Example.five_paths) = Some s →
        "making db for " +:+ s ∈ log w'.
Proof.
  apply (make_root_db_failure "/out/root.h5" Example.five_paths Example.five 2
           true [4; 2; 0; 1; 3] Example.empty_world "/data/s3.wav"
           (RuntimeError "cannot decode")).
  - lia.
  - apply (bool_decide_unpack _). vm_compute. exact I.
  - apply (bool_decide_unpack _). vm_compute. exact I.
  - reflexivity.
  - apply (bool_decide_unpack _). vm_compute. exact I.
Defined.

(** C4, counterexample to the claim as stated: with the third of five
    sources failing, the run raises and leaves no aggregate store, so no
    layout of four segments exists. *)
Lemma make_root_db_not_lenient :
  let run := make_root_db "/out/root.h5" Example.five_paths Example.five 2 true
               [4; 2; 0; 1; 3] Example.empty_world in
  run.1 = Err (RuntimeError "cannot decode")
  ∧ files run.2 !! "/out/root.h5" = None
  ∧ ¬ ∃ m, (load_layout "/out/root.h5" "f" run.2).1 = Ok m ∧ length m = 4.
Proof.
  split; [by vm_compute |]. split; [by vm_compute |].
  intros (m & Hm & _). vm_compute in Hm. discriminate.
Qed.

(** ** Loops in the exception monad *)

Section result_monad.

Context {A B : Type}.

Implicit Types (g : A → result B) (l : list A).

Lemma mapM_result_cons g x l :
  mapM g (x :: l) = y ← g x; k ← mapM g l; mret (y :: k).
Proof. reflexivity. Qed.

Lemma mapM_result_Forall2 g l k :
  mapM g l = Ok k → Forall2 (λ x y, g x = Ok y) l k.
Proof.
  revert k. induction l as [|x l IH]; intros k.
  - intros [= <-]. constructor.
  - rewrite mapM_result_cons.
    destruct (g x) as [y|e] eqn:Hx; [| done].
    destruct (mapM g l) as [k'|e]; [| done].
    intros [= <-]. constructor; [done |]. by apply IH.
Qed.

Lemma mapM_result_is_Ok g l :
  (∀ x, x ∈ l → is_Ok (g x)) → is_Ok (mapM g l).
Proof.
  induction l as [|x l IH]; intros Hok; [by eexists |].
  rewrite mapM_result_cons.
  destruct (Hok x) as [y ->]; [left |].
  destruct IH as [k ->]; [intros z Hz; apply Hok; by right |].
  by eexists.
Qed.

Lemma mapM_result_err_elem g l x e :
  x ∈ l → g x = Err e → ∃ e', mapM g l = Err e'.
Proof.
  induction l as [|z l IH]; intros Hx He.
  - by apply elem_of_nil in Hx.
  - rewrite mapM_result_cons. destruct (g z) as [y|e'] eqn:Hz; [| by eexists].
    apply elem_of_cons in Hx as [-> | Hx]; [congruence |].
    destruct (IH Hx He) as [e' ->]. by eexists.
Qed.

Lemma mapM_result_err_class g l e0 e :
  (∀ x e', x ∈ l → g x = Err e' → e' = e0) → mapM g l = Err e → e = e0.
Proof.
  induction l as [|z l IH]; intros Hclass; [done |].
  rewrite mapM_result_cons. destruct (g z) as [y|e'] eqn:Hz.
  - destruct (mapM g l) as [k|e'] eqn:Hl; [done |].
    intros [= <-]. apply IH; [| done].
    intros x e'' Hx. apply Hclass. by right.
  - intros [= <-]. apply (Hclass z); [left | done].
Qed.

End result_monad.

Section read_only.

Implicit Types (w : world).

Lemma forM_world {A B} (body : A → M B) (l : list A) :
  (∀ x w, (body x w).2 = w) → ∀ w, (forM body l w).2 = w.
Proof.
  intros Hbody. induction l as [|x l IH]; intros w; [done |].
  cbn [forM]. unfold bind at 1. specialize (Hbody x w).
  destruct (body x w) as [[y|e] w1]; simpl in Hbody; subst w1; [| done].
  unfold bind. specialize (IH w).
  destruct (forM body l w) as [[ys|e] w1]; simpl in IH; by subst w1.
Qed.

Lemma Database_info_world db w : (Database.info db w).2 = w.
Proof.
  unfold Database.info, bind. pose proof (read_key_world db "info" w) as H.
  destruct (read_key db "info" w) as [[n|e] w']; simpl in H; subst; [| done].
  by destruct n.
Qed.

Lemma collect_infos_world dbs w : (collect_infos dbs w).2 = w.
Proof.
  unfold collect_infos, bind.
  pose proof (forM_world Database.info dbs Database_info_world w) as H.
  destruct (forM Database.info dbs w) as [[infos|e] w']; simpl in H; by subst.
Qed.

Lemma collect_metadatas_loop_world dbs :
  ∀ offset metadatas w, (collect_metadatas_loop dbs offset metadatas w).2 = w.
Proof.
  induction dbs as [|db rest IH]; intros offset metadatas w; [done |].
  cbn [collect_metadatas_loop]. unfold bind at 1.
  pose proof (read_hdf_world db "metadata" w) as H. unfold Database.metadata.
  destruct (read_hdf db "metadata" w) as [[scr|e] w']; simpl in H; subst; [| done].
  unfold bind at 1, lift.
  destruct (Metadata.last_stop _) as [offset'|e]; [| done]. apply IH.
Qed.

Lemma collect_metadatas_world dbs w : (collect_metadatas dbs w).2 = w.
Proof.
  unfold collect_metadatas, bind.
  pose proof (collect_metadatas_loop_world dbs 0 [] w) as H.
  destruct (collect_metadatas_loop dbs 0 [] w) as [[ms|e] w']; simpl in H; by subst.
Qed.

End read_only.

(** ** The layout planner *)

Section planner.

Implicit Types (infos : list info_row) (paths : list string) (f g : string).

Lemma unique_const {A} `{EqDecision A} (l : list A) (c : A) :
  l ≠ [] → (∀ x, x ∈ l → x = c) → unique l = [c].
Proof.
  induction l as [|x l IH]; intros Hne Hc; [done |].
  cbn [unique]. rewrite (Hc x) by left.
  destruct l as [|y l]; [done |].
  rewrite IH; [| done | intros z Hz; apply Hc; by right].
  rewrite filter_cons_False; [done |]. by intros HP.
Qed.

Lemma assert_same_dims_mismatch dims (shapes : list (option feat_info)) shp :
  shp ∈ shapes → shape_tail shp ≠ Ok dims →
  ∃ e, assert_same_dims dims shapes = Err e.
Proof.
  induction shapes as [|x shapes IH]; intros Hshp Hne.
  - by apply elem_of_nil in Hshp.
  - cbn [assert_same_dims].
    destruct (shape_tail x) as [tl|e] eqn:Hx; [| by eexists].
    simpl. case_decide as Htl; [| by eexists].
    apply elem_of_cons in Hshp as [-> | Hshp]; [congruence |].
    by apply IH.
Qed.

Lemma assert_same_dims_class dims (shapes : list (option feat_info)) e :
  (∀ shp, shp ∈ shapes → is_Some shp) →
  assert_same_dims dims shapes = Err e → e = ShapeMismatchError.
Proof.
  induction shapes as [|x shapes IH]; intros Hsome; [done |].
  cbn [assert_same_dims]. destruct (Hsome x) as [fi ->]; [left |].
  simpl. case_decide; [| by intros [= <-]].
  apply IH. intros shp Hshp. apply Hsome. by right.
Qed.

(** Two sources that disagree on the non-leading dimensions of [f] make
    the planning of [f] fail. *)
Lemma ds_definition_of_mismatch infos paths f i j ri rj fi fj :
  infos !! i = Some ri → infos !! j = Some rj →
  cell f ri = Some fi → cell f rj = Some fj →
  drop 1 (fi_shape fi) ≠ drop 1 (fi_shape fj) →
  ∃ e, ds_definition_of infos paths f = Err e.
Proof.
  intros Hi Hj Hfi Hfj Hne. unfold ds_definition_of.
  destruct (item _) as [dt|e]; [| by eexists]. simpl.
  destruct infos as [|r0 rest]; [done |]. rewrite fmap_cons. simpl.
  destruct (shape_tail (cell f r0)) as [dims|e] eqn:H0; [| by eexists]. simpl.
  assert (∃ k rk fk, (r0 :: rest) !! k = Some rk ∧ cell f rk = Some fk
                     ∧ drop 1 (fi_shape fk) ≠ dims) as (k & rk & fk & Hk & Hfk & Hdims).
  { destruct (decide (drop 1 (fi_shape fi) = dims)) as [Heq | Hneq].
    - exists j, rj, fj. split; [done |]. split; [done |]. congruence.
    - by exists i, ri, fi. }
  destruct k as [|k].
  { simpl in Hk. injection Hk as ->. rewrite Hfk in H0. simpl in H0. congruence. }
  simpl in Hk. rewrite drop_0.
  destruct (assert_same_dims_mismatch dims (cell f <$> rest) (cell f rk))
    as [e ->].
  - apply list_elem_of_fmap. exists rk. split; [done |].
    by eapply list_elem_of_lookup_2.
  - rewrite Hfk. simpl. congruence.
  - by eexists.
Qed.

(** On homogeneous sources the planning of a feature fails in one way only. *)
Lemma ds_definition_of_class infos paths g dt e :
  infos ≠ [] → length paths = length infos →
  (∀ r, r ∈ infos → ∃ n dims, cell g r = Some (FeatInfo dt (n :: dims))) →
  ds_definition_of infos paths g = Err e → e = ShapeMismatchError.
Proof.
  intros Hne Hlen Hcells. unfold ds_definition_of.
  rewrite (unique_const _ (Some dt)); first last.
  { intros x (r & -> & Hr)%list_elem_of_fmap.
    destruct (Hcells r Hr) as (n & dims & ->). done. }
  { by destruct infos. }
  simpl.
  destruct infos as [|r0 rest]; [done |]. rewrite fmap_cons. simpl.
  destruct (Hcells r0) as (n0 & dims0 & H0); [left |].
  rewrite H0. simpl. rewrite !drop_0.
  destruct (assert_same_dims dims0 (cell g <$> rest)) as [[]|e'] eqn:Hassert.
  - simpl.
    destruct (mapM_result_is_Ok shape_head (cell g <$> rest)) as [ds Hds].
    { intros x (r & -> & Hr)%list_elem_of_fmap.
      destruct (Hcells r) as (n & dims & ->); [by right |]. by eexists. }
    rewrite Hds. simpl.
    pose proof (last_stop_cumulative (n0 :: ds)) as Hlast.
    simpl in Hlast. rewrite Hlast by done. simpl.
    unfold Metadata.set_index. rewrite decide_True; [done |].
    simpl. rewrite cumulative_length.
    apply mapM_result_Forall2, Forall2_length in Hds.
    rewrite length_fmap in Hds. simpl in Hlen. lia.
  - simpl. intros [= <-]. apply (assert_same_dims_class dims0 (cell g <$> rest)); [| done].
    intros x (r & -> & Hr)%list_elem_of_fmap.
    destruct (Hcells r) as (n & dims & ->); [by right |]. by eexists.
Qed.

Lemma cell_info_features infos f r fi :
  r ∈ infos → cell f r = Some fi → f ∈ info_features infos.
Proof.
  intros Hr Hcell. unfold info_features. apply elem_of_union_list.
  exists (dom (columns r)). split.
  - apply list_elem_of_fmap. by exists r.
  - apply elem_of_dom. unfold cell in Hcell.
    destruct (columns r !! f); [by eexists | done].
Qed.

Lemma info_paths_length infos : length (info_paths infos) = length infos.
Proof. unfold info_paths. by rewrite !length_fmap. Qed.

Lemma ds_definitions_mismatch infos f i j ri rj fi fj :
  infos !! i = Some ri → infos !! j = Some rj →
  cell f ri = Some fi → cell f rj = Some fj →
  drop 1 (fi_shape fi) ≠ drop 1 (fi_shape fj) →
  ∃ e, ds_definitions_from_infos infos = Err e.
Proof.
  intros Hi Hj Hfi Hfj Hne.
  destruct (ds_definition_of_mismatch infos (info_paths infos) f i j ri rj fi fj)
    as [e He]; [done.. |].
  unfold ds_definitions_from_infos.
  apply (mapM_result_err_elem _ _ f e).
  - apply elem_of_elements. eapply cell_info_features; [| done].
    by eapply list_elem_of_lookup_2.
  - by rewrite He.
Qed.

Lemma ds_definitions_class infos e :
  infos ≠ [] → homogeneous infos →
  ds_definitions_from_infos infos = Err e → e = ShapeMismatchError.
Proof.
  intros Hne Hhom. unfold ds_definitions_from_infos.
  apply mapM_result_err_class. intros g e' Hg He'.
  apply elem_of_elements in Hg. destruct (Hhom g Hg) as [dt Hdt].
  destruct (ds_definition_of infos (info_paths infos) g) as [d|e''] eqn:Hd; [done |].
  injection He' as <-.
  by apply (ds_definition_of_class infos (info_paths infos) g dt);
    [| apply info_paths_length | |].
Qed.

End planner.

(** C5: when two sources disagree on the non-leading dimensions of a
    feature, [aggregate_dbs] raises and leaves the file system and the log
    as they were: the failure comes from [ds_definitions_from_infos], before
    [create_datasets_from_defs] runs, so no aggregate dataset exists.  When
    the metadata could be collected and every feature is present in every
    source with one dtype, the exception is the assertion of lines 191-192
    ([ShapeMismatchError] in the spec). *)
Theorem aggregate_dbs_shape_mismatch (target : string) (dbs : list string)
    (mode : open_mode) (remove_sources : bool) (w : world)
    (infos : list info_row) (f : string) (i j : nat) (ri rj : info_row)
    (fi fj : feat_info) :
  (collect_infos dbs w).1 = Ok infos →
  infos !! i = Some ri → infos !! j = Some rj →
  cell f ri = Some fi → cell f rj = Some fj →
  drop 1 (fi_shape fi) ≠ drop 1 (fi_shape fj) →
  (∃ e, aggregate_dbs target dbs mode remove_sources w = (Err e, w))
  ∧ (is_Ok (collect_metadatas dbs w).1 → homogeneous infos →
       aggregate_dbs target dbs mode remove_sources w
       = (Err ShapeMismatchError, w)).
Proof.
  intros Hinfos Hi Hj Hfi Hfj Hne.
  assert (collect_infos dbs w = (Ok infos, w)) as Hci.
  { pose proof (collect_infos_world dbs w).
    destruct (collect_infos dbs w); simpl in *; congruence. }
  destruct (ds_definitions_mismatch infos f i j ri rj fi fj) as [e He]; [done.. |].
  unfold aggregate_dbs. rewrite (bind_ok _ _ _ _ _ Hci).
  pose proof (collect_metadatas_world dbs w) as Hw.
  destruct (collect_metadatas dbs w) as [[md|e'] w'] eqn:Hcm; simpl in Hw; subst w'.
  - rewrite (bind_ok _ _ _ _ _ Hcm). rewrite (bind_lift_err _ _ _ _ He).
    split; [by eexists |]. intros _ Hhom. f_equal. f_equal.
    apply (ds_definitions_class infos); [by destruct infos | done | done].
  - rewrite (bind_err _ _ _ _ _ Hcm). split; [by eexists |].
    by intros [? [=]].
Qed.

Lemma mismatched_homogeneous : homogeneous Example.mismatched_infos.
Proof.
  intros g Hg. apply elem_of_elements in Hg. vm_compute in Hg.
  apply list_elem_of_singleton in Hg as ->.
  exists "float64". intros r Hr. vm_compute in Hr.
  apply elem_of_cons in Hr as [-> | Hr]; [by eexists _, _ |].
  apply list_elem_of_singleton in Hr as ->. by eexists _, _.
Defined.

Lemma aggregate_dbs_shape_mismatch_witness :
  let w := Example.built Example.mismatched_paths Example.mismatched in
  aggregate_dbs "/out/root.h5" ["/data/s1.h5"; "/data/s2.h5"] ModeW true w
  = (Err ShapeMismatchError, w).
Proof.
  intros w.
  apply (proj2 (aggregate_dbs_shape_mismatch "/out/root.h5"
                  ["/data/s1.h5"; "/data/s2.h5"] ModeW true w
                  Example.mismatched_infos "f" 0 1
                  (InfoRow "/data" "s1.wav"
                     {["f" := Some (FeatInfo "float64" [100; 8])]})
                  (InfoRow "/data" "s2.wav"
                     {["f" := Some (FeatInfo "float64" [50; 16])]})
                  (FeatInfo "float64" [100; 8]) (FeatInfo "float64" [50; 16])
                  ltac:(vm_compute; reflexivity) ltac:(vm_compute; reflexivity)
                  ltac:(vm_compute; reflexivity) ltac:(vm_compute; reflexivity)
                  ltac:(vm_compute; reflexivity) ltac:(vm_compute; discriminate))).
  - eexists. vm_compute. reflexivity.
  - apply mismatched_homogeneous.
Defined.

(** ** The aggregate store allocator *)

Section allocator.

Implicit Types (w : world) (g : gmap string node)
  (defs : list (string * ds_definition)).

Lemma forM__cons {A} (body : A → M unit) (x : A) (l : list A) w :
  forM_ body (x :: l) w = bind (body x) (λ _, forM_ body l) w.
Proof.
  unfold forM_. cbn [foldM]. unfold bind.
  by destruct (body x w) as [[[]|e] w'].
Qed.

Lemma layouts_key_inj (n n' : string) :
  "layouts/" +:+ n = "layouts/" +:+ n' → n = n'.
Proof. apply (inj (String.app "layouts/")). Qed.

Lemma allocate_ok target def dt g w :
  files w !! target = Some g → dtype def.2 = Some dt → g !! def.1 = None →
  allocate target def w
  = (Ok (),
     World (<[target :=
                <["layouts/" +:+ def.1 :=
                    Frame (Metadata.reset_index_rename (layout def.2))]>
                  (<[def.1 := Dataset (empty_array (shape def.2) dt) []]> g)]>
              (files w))
       (log w)).
Proof.
  intros Hg Hdt Hfree. unfold allocate. rewrite Hdt.
  erewrite bind_ok by reflexivity.
  rewrite (bind_ok _ _ _ _ _ (create_dataset_ok _ _ _ _ _ _ Hg Hfree)).
  erewrite to_hdf_ok by (cbn [files]; apply lookup_insert_eq).
  cbn [files log]. by rewrite insert_insert_eq.
Qed.

(** The loop of [create_datasets_from_defs] on a container [g] that holds
    none of the names: it succeeds, every entry finds its layout table and
    its zero-filled dataset, and nothing else changes. *)
Lemma forM_allocate target defs :
  ∀ w g,
    files w !! target = Some g →
    NoDup defs.*1 →
    (∀ def, def ∈ defs → is_Some (dtype def.2)) →
    (∀ n, n ∈ defs.*1 → g !! n = None) →
    (∀ n n', n ∈ defs.*1 → n' ∈ defs.*1 → n ≠ "layouts/" +:+ n') →
    ∃ g',
      forM_ (allocate target) defs w
      = (Ok (), World (<[target := g']> (files w)) (log w))
      ∧ (∀ n d, (n, d) ∈ defs →
           g' !! ("layouts/" +:+ n)
           = Some (Frame (Metadata.reset_index_rename (layout d))))
      ∧ (∀ n d dt, (n, d) ∈ defs → dtype d = Some dt →
           g' !! n = Some (Dataset (empty_array (shape d) dt) []))
      ∧ (∀ k, k ∉ defs.*1 → (∀ n, n ∈ defs.*1 → k ≠ "layouts/" +:+ n) →
           g' !! k = g !! k).
Proof.
  induction defs as [|[n0 d0] defs IH]; intros w g Hg Hnd Hdt Hfree Hclash.
  - exists g. split; [| split; [| split]].
    + unfold forM_. simpl. unfold ret. rewrite insert_id by done.
      by rewrite world_eta.
    + intros n d Hin. by apply elem_of_nil in Hin.
    + intros n d dt Hin. by apply elem_of_nil in Hin.
    + done.
  - rewrite fmap_cons in Hnd, Hfree, Hclash. cbn [fst] in *.
    apply NoDup_cons in Hnd as [Hn0 Hnd].
    destruct (Hdt (n0, d0)) as [dt0 Hdt0]; [left |]. cbn [snd] in Hdt0.
    set (g1 := <["layouts/" +:+ n0 :=
                   Frame (Metadata.reset_index_rename (layout d0))]>
                 (<[n0 := Dataset (empty_array (shape d0) dt0) []]> g)).
    assert (allocate target (n0, d0) w
            = (Ok (), World (<[target := g1]> (files w)) (log w))) as Hstep.
    { apply (allocate_ok target (n0, d0) dt0 g w); [done | done |].
      apply Hfree. left. }
    destruct (IH (World (<[target := g1]> (files w)) (log w)) g1)
      as (g' & Hrun & Hlay & Hds & Hframe).
    { cbn [files]. apply lookup_insert_eq. }
    { done. }
    { intros def Hdef. apply Hdt. by right. }
    { intros n Hn. unfold g1.
      rewrite lookup_insert_ne by (intros Heq; eapply Hclash; [| | by symmetry]; [by right | left]).
      rewrite lookup_insert_ne by (intros ->; done).
      apply Hfree. by right. }
    { intros n n' Hn Hn'. apply Hclash; by right. }
    assert (g' !! ("layouts/" +:+ n0) = g1 !! ("layouts/" +:+ n0)) as Hkeep1.
    { apply Hframe.
      - intros Hin. by eapply (Hclash ("layouts/" +:+ n0) n0); [right | left |].
      - intros n Hn Heq. apply layouts_key_inj in Heq. by subst. }
    assert (g' !! n0 = g1 !! n0) as Hkeep2.
    { apply Hframe; [done |]. intros n Hn. apply Hclash; [left | by right]. }
    exists g'. split; [| split; [| split]].
    + rewrite forM__cons. rewrite (bind_ok _ _ _ _ _ Hstep). rewrite Hrun.
      cbn [files log]. by rewrite insert_insert_eq.
    + intros n d [[= -> ->] | Hin]%elem_of_cons; [| by eapply Hlay].
      rewrite Hkeep1. unfold g1. apply lookup_insert_eq.
    + intros n d dt [[= -> ->] | Hin]%elem_of_cons Hd; [| by eapply Hds].
      rewrite Hkeep2. unfold g1.
      rewrite lookup_insert_ne
        by (intros Heq; by eapply (Hclash n0 n0); [left | left |]).
      rewrite lookup_insert_eq. congruence.
    + intros k Hk Hk'. apply not_elem_of_cons in Hk as [Hk0 Hk].
      rewrite Hframe; [| done | intros n Hn; apply Hk'; by right].
      unfold g1. rewrite lookup_insert_ne by (intros Heq; eapply Hk'; [left | done]).
      by rewrite lookup_insert_ne.
Qed.


Lemma reset_index_rename_bounds (m : list Segment) :
  bounds <$> Metadata.reset_index_rename m = bounds <$> m.
Proof.
  unfold Metadata.reset_index_rename. rewrite fmap_imap.
  by rewrite <- imap_const.
Qed.

End allocator.



(** ** Segment widths *)

Section widths.

Implicit Types (infos : list info_row) (paths : list string).

Lemma result_bind_Ok {A B} (r : result A) (k : A → result B) b :
  r ≫= k = Ok b → ∃ a, r = Ok a ∧ k a = Ok b.
Proof. destruct r as [a|e]; [| done]. intros H. by exists a. Qed.

(** What a successful plan of one feature is made of. *)
Lemma ds_definition_of_Ok infos paths f d :
  ds_definition_of infos paths f = Ok d →
  ∃ durations,
    mapM shape_head (cell f <$> infos) = Ok durations
    ∧ durations ≠ []
    ∧ Metadata.set_index paths (Metadata.cumulative 0 0 durations)
      = Ok (layout d)
    ∧ (shape d).1 = sum_list durations.
Proof.
  unfold ds_definition_of. intros H.
  apply result_bind_Ok in H as (dt & _ & H).
  apply result_bind_Ok in H as (shape0 & _ & H).
  apply result_bind_Ok in H as (dims & _ & H).
  apply result_bind_Ok in H as ([] & _ & H).
  apply result_bind_Ok in H as (durations & Hdur & H).
  apply result_bind_Ok in H as (m & Hm & H).
  apply result_bind_Ok in H as (total & Htotal & H).
  apply result_bind_Ok in H as (m' & Hm' & H).
  injection H as <-. cbn [layout shape fst].
  assert (durations ≠ []) as Hne by (by intros ->).
  rewrite from_duration_ok in Hm by done. injection Hm as <-.
  rewrite last_stop_cumulative in Htotal by done. injection Htotal as <-.
  by exists durations.
Qed.

Lemma ds_definitions_elem infos defs f d :
  ds_definitions_from_infos infos = Ok defs → (f, d) ∈ defs →
  ds_definition_of infos (info_paths infos) f = Ok d.
Proof.
  unfold ds_definitions_from_infos. intros H Hin.
  apply mapM_result_Forall2 in H.
  apply list_elem_of_lookup in Hin as [k Hk].
  destruct (Forall2_lookup_r _ _ _ _ _ H Hk) as (g & _ & Hg).
  destruct (ds_definition_of infos (info_paths infos) g) as [d'|e] eqn:Hd;
    [| done].
  simpl in Hg. by injection Hg as -> ->.
Qed.



End widths.




(** ** The stores left by the parallel build *)

Section built_stores.

Variable extract_func : string → result features.

Implicit Types (args : list string) (schedule : list nat)
  (fs : gmap string (gmap string node)).

Lemma written_lookup sources :
  ∀ fs p rv,
    (∀ q, q ∈ sources → is_Ok (extract_func q)) →
    NoDup (tmp_db_of <$> sources) →
    p ∈ sources → extract_func p = Ok rv →
    written extract_func sources fs !! tmp_db_of p = Some (store_of p rv).
Proof.
  induction sources as [|q rest IH]; intros fs p rv Hok Hnd Hp Hrv.
  - by apply elem_of_nil in Hp.
  - rewrite fmap_cons in Hnd. apply NoDup_cons in Hnd as [Hq Hnd].
    cbn [written]. destruct (Hok q) as [rq Hrq]; [left |]. rewrite Hrq.
    destruct (decide (tmp_db_of p ∈ tmp_db_of <$> rest)) as [Hin | Hout].
    + apply elem_of_cons in Hp as [-> | Hp].
      * done.
      * apply IH; [| done..]. intros z Hz. apply Hok. by right.
    + apply elem_of_cons in Hp as [-> | Hp].
      * rewrite written_other by done. rewrite lookup_insert_eq. congruence.
      * exfalso. apply Hout. apply list_elem_of_fmap. by exists p.
Qed.

Lemma chunk_lookup {A} cs i (l : list A) x :
  0 < cs → x ∈ chunk cs i l → ∃ k, l !! k = Some x ∧ k / cs = i.
Proof.
  intros Hcs (j & Hj & Hlt)%elem_of_take. rewrite lookup_drop in Hj.
  exists (i * cs + j). split; [done |]. apply chunk_index; lia.
Qed.

Lemma chunk_NoDup {A} cs i (l : list A) : NoDup l → NoDup (chunk cs i l).
Proof.
  intros Hnd. unfold chunk.
  eapply sublist_NoDup; [| apply sublist_take].
  eapply sublist_NoDup; [done | apply sublist_drop].
Qed.

Lemma chunk_fmap {A B} (h : A → B) cs i (l : list A) :
  h <$> chunk cs i l = chunk cs i (h <$> l).
Proof. unfold chunk. by rewrite fmap_take, fmap_drop. Qed.

(** Once the chunk of source [k] has run, its store is in place, whatever
    runs before or after it. *)
Lemma fold_written_lookup args cs k p rv :
  0 < cs →
  (∀ q, q ∈ args → is_Ok (extract_func q)) →
  NoDup (tmp_db_of <$> args) →
  args !! k = Some p → extract_func p = Ok rv →
  ∀ schedule fs,
    let fs' := foldl (λ fs i, written extract_func (chunk cs i args) fs)
                 fs schedule in
    (k / cs ∈ schedule → fs' !! tmp_db_of p = Some (store_of p rv))
    ∧ (k / cs ∉ schedule → fs' !! tmp_db_of p = fs !! tmp_db_of p).
Proof.
  intros Hcs Hok Hnd Hk Hrv.
  induction schedule as [|i rest IH]; intros fs; cbv zeta.
  - split; [| done]. intros Hin. by apply elem_of_nil in Hin.
  - cbn [foldl].
    destruct (IH (written extract_func (chunk cs i args) fs)) as [IH1 IH2].
    assert (i = k / cs →
            written extract_func (chunk cs i args) fs !! tmp_db_of p
            = Some (store_of p rv)) as Hhere.
    { intros ->. apply written_lookup; [| | by apply lookup_chunk | done].
      - intros q Hq. apply Hok. by eapply elem_of_chunk.
      - rewrite chunk_fmap. by apply chunk_NoDup. }
    assert (i ≠ k / cs →
            written extract_func (chunk cs i args) fs !! tmp_db_of p
            = fs !! tmp_db_of p) as Hother.
    { intros Hne. apply written_other.
      rewrite chunk_fmap. intros (k' & Hk' & Hdiv)%chunk_lookup; [| done].
      apply Hne. rewrite <- Hdiv. f_equal.
      apply (NoDup_lookup _ _ _ _ Hnd Hk').
      by rewrite list_lookup_fmap, Hk. }
    split.
    + intros Hin. destruct (decide (k / cs ∈ rest)) as [Hr | Hr].
      * by apply IH1.
      * rewrite IH2 by done. apply Hhere.
        apply elem_of_cons in Hin as [-> | ?]; done.
    + intros Hout. apply not_elem_of_cons in Hout as [Hne Hout].
      rewrite IH2 by done. by apply Hother.
Qed.

Lemma make_db_for_each_file_stores file_walker n_cores schedule w k p rv :
  0 < n_cores →
  schedule ≡ₚ seq 0 (number_left (length file_walker)
                       (chunksize (length file_walker) n_cores)) →
  (∀ q, q ∈ file_walker → is_Ok (extract_func q)) →
  NoDup (tmp_db_of <$> file_walker) →
  file_walker !! k = Some p → extract_func p = Ok rv →
  files (make_db_for_each_file file_walker extract_func n_cores schedule w).2
    !! tmp_db_of p = Some (store_of p rv).
Proof.
  intros Hn Hperm Hok Hnd Hk Hrv.
  rewrite make_db_for_each_file_run by done. cbn [snd files].
  assert (k < length file_walker) as Hlt by by eapply lookup_lt_Some.
  assert (0 < chunksize (length file_walker) n_cores) as Hcs
    by (apply chunksize_pos; lia).
  apply (fold_written_lookup file_walker _ k p rv); [done.. |].
  rewrite Hperm. apply elem_of_seq. split; [lia |]. simpl.
  by apply number_left_covers.
Qed.

End built_stores.

(** ** Planning uniform sources *)

Section uniform.

Lemma mapM_result_fmap {A B} (g : A → result B) (h : A → B) (l : list A) :
  (∀ x, x ∈ l → g x = Ok (h x)) → mapM g l = Ok (h <$> l).
Proof.
  induction l as [|x l IH]; intros Hg; [done |].
  rewrite mapM_result_cons, (Hg x) by left.
  rewrite IH; [done |]. intros y Hy. apply Hg. by right.
Qed.

Lemma assert_same_dims_ok dims (shapes : list (option feat_info)) :
  (∀ shp, shp ∈ shapes → shape_tail shp = Ok dims) →
  assert_same_dims dims shapes = Ok ().
Proof.
  induction shapes as [|shp shapes IH]; intros Htl; [done |].
  cbn [assert_same_dims]. rewrite (Htl shp) by left. simpl.
  rewrite decide_True by done. apply IH. intros x Hx. apply Htl. by right.
Qed.

(** When every source holds feature [f] with one dtype and the same
    non-leading dimensions, its plan is the cumulative layout of the
    leading sizes, labelled by the store paths. *)
Lemma ds_definition_of_uniform (infos : list info_row) (paths : list string)
    (f dt : string) (dims : list nat) (leading : info_row → nat) :
  infos ≠ [] → length paths = length infos →
  (∀ r, r ∈ infos → cell f r = Some (FeatInfo dt (leading r :: dims))) →
  ds_definition_of infos paths f
  = Ok (DsDefinition (sum_list (leading <$> infos), dims) (Some dt)
          (zip_with (λ p s, MkSegment (LStr p) (seg_name s) (start s) (stop s))
             paths (Metadata.cumulative 0 0 (leading <$> infos)))).
Proof.
  intros Hne Hlen Hcells. unfold ds_definition_of.
  rewrite (unique_const _ (Some dt)); first last.
  { intros x (r & -> & Hr)%list_elem_of_fmap. by rewrite (Hcells r Hr). }
  { by destruct infos. }
  simpl.
  destruct infos as [|r0 rest]; [done |]. rewrite !fmap_cons. simpl.
  rewrite (Hcells r0) by left. simpl. rewrite !drop_0.
  rewrite assert_same_dims_ok; first last.
  { intros x (r & -> & Hr)%list_elem_of_fmap.
    rewrite (Hcells r) by by right. done. }
  simpl.
  rewrite (mapM_result_fmap shape_head (λ shp, default 0 (shp ≫= λ fi, head (fi_shape fi))));
    first last.
  { intros x (r & -> & Hr)%list_elem_of_fmap.
    rewrite (Hcells r) by by right. done. }
  simpl.
  assert ((λ shp : option feat_info, default 0 (shp ≫= λ fi, head (fi_shape fi)))
            <$> (cell f <$> rest) = leading <$> rest) as ->.
  { rewrite <- list_fmap_compose. apply list_fmap_ext.
    intros i r Hr. simpl. rewrite (Hcells r); [done |].
    right. by eapply list_elem_of_lookup_2. }
  pose proof (last_stop_cumulative (leading r0 :: (leading <$> rest))) as Hlast.
  simpl in Hlast. rewrite Hlast by done. simpl.
  unfold Metadata.set_index. rewrite decide_True; [done |].
  simpl. rewrite cumulative_length, length_fmap. simpl in Hlen. lia.
Qed.

End uniform.

(** ** The pipeline on sources with one dense feature *)

Section pipeline.

Variable extract_func : string → result features.
Variable sources : list source.
Variables (dt : string) (dims : list nat).
Variable db_name : string.

Hypothesis Hextract :
  ∀ s, s ∈ sources → extract_func (src_path s) = Ok (extraction s).
Hypothesis Hpaths :
  ∀ s, s ∈ sources →
       Py.contains slash (src_path s) = true
       ∧ Py.contains dot (src_path s) = true.
Hypothesis Hdbs : NoDup (src_db <$> sources).
Hypothesis Htarget : db_name ∉ src_db <$> sources.
Hypothesis Harrays :
  ∀ s, s ∈ sources →
       nd_dtype (src_data s) = dt ∧ nd_dims (src_data s) = dims.
Hypothesis Hmeta : ∀ s, s ∈ sources → src_meta s ≠ [].
Hypothesis Hne : sources ≠ [].

Implicit Types (w : world) (s : source).

Lemma store_info s :
  store_of (src_path s) (extraction s) !! "info" = Some (Info [src_info s]).
Proof. reflexivity. Qed.

Lemma store_f s :
  store_of (src_path s) (extraction s) !! "f"
  = Some (Dataset (src_data s) (src_attrs s)).
Proof. reflexivity. Qed.

Lemma store_metadata s :
  store_of (src_path s) (extraction s) !! "metadata"
  = Some (Frame (src_meta s)).
Proof. reflexivity. Qed.

Lemma forM_Forall2 {A B} (body : A → M B) (l : list A) (ys : list B) w :
  Forall2 (λ x y, body x w = (Ok y, w)) l ys → forM body l w = (Ok ys, w).
Proof.
  induction 1 as [|x y l ys Hx _ IH]; [done |].
  cbn [forM]. rewrite (bind_ok _ _ _ _ _ Hx). by rewrite (bind_ok _ _ _ _ _ IH).
Qed.

Lemma concat_singletons {A B} (g : A → B) (l : list A) :
  concat ((λ x, [g x]) <$> l) = g <$> l.
Proof.
  induction l as [|x l IH]; [done |].
  rewrite !fmap_cons. cbn [concat app]. by rewrite IH.
Qed.

Lemma pd_concat_singletons {A B} (g : A → B) (l : list A) :
  l ≠ [] → pd_concat ((λ x, [g x]) <$> l) = Ok (g <$> l).
Proof.
  intros Hl. destruct l as [|x l]; [done |].
  rewrite <- (concat_singletons g (x :: l)). by rewrite !fmap_cons.
Qed.

Lemma collect_infos_built w :
  stores_built sources w →
  collect_infos (src_db <$> sources) w = (Ok (src_info <$> sources), w).
Proof.
  intros Hbuilt. unfold collect_infos.
  rewrite (bind_ok _ _ _ ((λ s, [src_info s]) <$> sources) w).
  - unfold lift. by rewrite pd_concat_singletons.
  - apply forM_Forall2. apply Forall2_fmap, Forall_Forall2_diag.
    apply Forall_forall. intros s Hs. unfold Database.info.
    rewrite (bind_ok _ _ _ (Info [src_info s]) w); [done |].
    eapply read_key_ok; [by apply Hbuilt | apply store_info].
Qed.

Lemma last_stop_renamed offset value (m : list Segment) :
  m ≠ [] →
  is_Ok (Metadata.last_stop
           (Metadata.set_name value (Metadata.add_offset offset m))).
Proof.
  intros Hm. unfold Metadata.last_stop, Metadata.set_name, Metadata.add_offset.
  rewrite !fmap_last.
  destruct (last m) as [x|] eqn:Hlast; [by eexists |].
  by apply last_None in Hlast.
Qed.

Lemma collect_metadatas_loop_built w :
  stores_built sources w →
  ∀ (srcs : list source) offset metadatas,
    (∀ s, s ∈ srcs → s ∈ sources) →
    ∃ ms,
      collect_metadatas_loop (src_db <$> srcs) offset metadatas w = (Ok ms, w)
      ∧ length ms = length metadatas + length srcs.
Proof.
  intros Hbuilt. induction srcs as [|s srcs IH]; intros offset metadatas Hsub.
  - exists metadatas. split; [done |]. simpl. lia.
  - rewrite fmap_cons. cbn [collect_metadatas_loop].
    assert (s ∈ sources) as Hs by (apply Hsub; left).
    unfold Database.metadata.
    rewrite (bind_ok _ _ _ (src_meta s) w); first last.
    { eapply read_hdf_ok; [by apply Hbuilt | apply store_metadata]. }
    destruct (last_stop_renamed offset
                (Py.join "." (Py.init (Py.split dot (src_db s)))) (src_meta s))
      as [offset' Hoffset]; [by apply Hmeta |].
    rewrite (bind_lift_ok _ _ _ _ Hoffset).
    edestruct IH as (ms & Hms & Hlen); [intros z Hz; apply Hsub; by right |].
    exists ms. split; [exact Hms |]. rewrite Hlen, length_app. simpl. lia.
Qed.

Lemma collect_metadatas_built w :
  stores_built sources w →
  ∃ md, collect_metadatas (src_db <$> sources) w = (Ok md, w).
Proof.
  intros Hbuilt.
  destruct (collect_metadatas_loop_built w Hbuilt sources 0 []) as (ms & Hms & Hlen);
    [done |].
  unfold collect_metadatas. rewrite (bind_ok _ _ _ _ _ Hms).
  destruct ms as [|m ms].
  - destruct sources; [done | simpl in Hlen; lia].
  - by eexists.
Qed.

Lemma src_cell s :
  s ∈ sources →
  cell "f" (src_info s) = Some (FeatInfo dt (length (src_rows s) :: dims)).
Proof.
  intros Hs. destruct (Harrays s Hs) as [Hdt Hdims].
  unfold cell, src_info. cbn [columns]. rewrite lookup_singleton_eq. simpl.
  unfold nd_shape, src_rows. by rewrite Hdt, Hdims.
Qed.

Lemma src_info_features (l : list source) :
  l ≠ [] → info_features (src_info <$> l) = {["f"]}.
Proof.
  unfold info_features. induction l as [|s l IH]; intros Hl; [done |].
  rewrite !fmap_cons.
  change (⋃ (?X :: ?Xs)) with (X ∪ ⋃ Xs).
  cbn [columns src_info]. rewrite dom_singleton_L.
  destruct (decide (l = [])) as [-> | Hl'].
  - simpl. set_solver.
  - rewrite IH by done. set_solver.
Qed.

Lemma change_extension_tmp_db (p : string) :
  Py.contains dot p = true → change_extension p = tmp_db_of p.
Proof.
  intros Hp. unfold change_extension, tmp_db_of.
  by rewrite join_snoc by by apply split_present.
Qed.

Lemma src_info_paths : info_paths (src_info <$> sources) = src_db <$> sources.
Proof.
  unfold info_paths. rewrite <- !list_fmap_compose.
  apply list_fmap_ext. intros i s Hs. apply list_elem_of_lookup_2 in Hs.
  destruct (Hpaths s Hs) as [Hslash Hdot]. simpl.
  change (rejoin _) with (rejoin (split_path (src_path s))).
  rewrite rejoin_split_path by done. by apply change_extension_tmp_db.
Qed.

Lemma plan_sources :
  ds_definitions_from_infos (src_info <$> sources)
  = Ok [("f", DsDefinition
                (sum_list ((λ s, length (src_rows s)) <$> sources), dims)
                (Some dt) (planned_layout sources))].
Proof.
  unfold ds_definitions_from_infos.
  rewrite src_info_features, elements_singleton by done.
  rewrite mapM_result_cons.
  rewrite (ds_definition_of_uniform _ _ "f" dt dims
             (λ r, default 0 (cell "f" r ≫= λ fi, head (fi_shape fi)))).
  - simpl. rewrite src_info_paths. unfold planned_layout.
    assert ((λ r, default 0 (cell "f" r ≫= λ fi, head (fi_shape fi)))
              <$> (src_info <$> sources)
            = (λ s, length (src_rows s)) <$> sources) as ->; [| done].
    rewrite <- list_fmap_compose. apply list_fmap_ext. intros i s Hs.
    simpl. rewrite src_cell; [done |]. by eapply list_elem_of_lookup_2.
  - by destruct sources.
  - by rewrite info_paths_length.
  - intros r (s & -> & Hs)%list_elem_of_fmap. by rewrite src_cell.
Qed.

(** The aggregate container after allocation. *)
Lemma allocate_sources w :
  create_datasets_from_defs db_name
    [("f", DsDefinition
             (sum_list ((λ s, length (src_rows s)) <$> sources), dims)
             (Some dt) (planned_layout sources))] ModeW w
  = (Ok (),
     World
       (<[db_name :=
            <["layouts/f" := Frame (persisted_layout sources)]>
              (<["f" := Dataset
                          (empty_array
                             (sum_list ((λ s, length (src_rows s)) <$> sources), dims)
                             dt) []]> ∅)]>
          (files w))
       (log w)).
Proof.
  unfold create_datasets_from_defs.
  erewrite bind_ok by reflexivity. rewrite forM__cons.
  erewrite bind_ok; last first.
  { apply (allocate_ok db_name _ dt ∅); [| done | done].
    cbn [files set_files]. apply lookup_insert_eq. }
  unfold forM_. cbn [foldM]. unfold ret. cbn [files log set_files snd fst layout shape].
  by rewrite insert_insert_eq.
Qed.

Lemma cumulative_bounds offset i (sizes : list nat) :
  bounds <$> Metadata.cumulative offset i sizes = offsets offset sizes.
Proof.
  revert offset i. induction sizes as [|n sizes IH]; intros offset i; [done |].
  cbn [Metadata.cumulative offsets]. rewrite fmap_cons. by rewrite IH.
Qed.

Lemma name_column_reset (m : list Segment) :
  Metadata.name_column (Metadata.reset_index_rename m) = Ok (seg_index <$> m).
Proof.
  unfold Metadata.name_column.
  rewrite (mapM_result_fmap _ (λ x : Segment, default (LInt 0) (seg_name x))).
  - unfold Metadata.reset_index_rename. rewrite fmap_imap.
    by rewrite <- imap_const.
  - intros x (i & y & -> & _)%elem_of_lookup_imap. done.
Qed.

Lemma persisted_names :
  Metadata.name_column (persisted_layout sources)
  = Ok (LStr <$> (src_db <$> sources)).
Proof.
  unfold persisted_layout. rewrite name_column_reset. f_equal.
  unfold planned_layout.
  rewrite <- (zip_with_fmap_l
                (λ l (x : Segment), MkSegment l (seg_name x) (start x) (stop x)) LStr).
  apply fmap_zip_with_l; [done |].
  by rewrite cumulative_length, !length_fmap.
Qed.

Lemma bounds_zip_with (paths : list string) (m : list Segment) :
  length m ≤ length paths →
  bounds <$> zip_with (λ p (x : Segment),
                         MkSegment (LStr p) (seg_name x) (start x) (stop x))
               paths m
  = bounds <$> m.
Proof.
  revert paths. induction m as [|x m IH]; intros [|p paths] Hlen;
    simpl in *; [done | done | lia |].
  rewrite IH by lia. done.
Qed.

Lemma persisted_slices :
  Metadata.slices (persisted_layout sources)
  = offsets 0 ((λ s, length (src_rows s)) <$> sources).
Proof.
  unfold persisted_layout.
  change (Metadata.slices ?m) with (bounds <$> m).
  rewrite reset_index_rename_bounds. unfold planned_layout.
  rewrite bounds_zip_with by by rewrite cumulative_length, !length_fmap.
  apply cumulative_bounds.
Qed.

(** The arguments of the scatter step. *)
Lemma integration_args_sources w g :
  files w !! db_name = Some g →
  layouts_keys g = Ok ["f"] →
  g !! "layouts/f" = Some (Frame (persisted_layout sources)) →
  make_integration_args db_name w
  = (Ok (zip_with (λ source indices, (db_name, source, "f", indices))
           (LStr <$> (src_db <$> sources))
           (offsets 0 ((λ s, length (src_rows s)) <$> sources))),
     w).
Proof.
  intros Hg Hkeys Hlay. unfold make_integration_args.
  rewrite (bind_ok _ _ _ _ _ (h5_read_ok _ _ _ Hg)).
  rewrite (bind_lift_ok _ _ _ _ Hkeys).
  cbn [forM].
  erewrite bind_ok; last first.
  { erewrite bind_ok; last first.
    { rewrite (bind_ok _ _ _ _ _
                 (read_hdf_ok db_name ("layouts/" +:+ "f") _ _ _ Hg Hlay)).
      rewrite (bind_lift_ok _ _ _ _ persisted_names).
      rewrite persisted_slices. reflexivity. }
    reflexivity. }
  unfold ret. cbn [concat]. by rewrite app_nil_r.
Qed.

Lemma write_rows_block (prefix data rest : list row) :
  length data ≤ length rest →
  write_rows (length prefix, length prefix + length data) data (prefix ++ rest)
  = Some (prefix ++ data ++ drop (length data) rest).
Proof.
  intros Hlen. unfold write_rows. cbn [fst snd]. rewrite length_app.
  rewrite (Nat.min_l (_ + _)) by lia. rewrite Nat.min_l by lia.
  rewrite decide_True by lia.
  by rewrite take_app_length, drop_app_add.
Qed.

(** The scatter loop: each source is copied behind the ones before it. *)
Lemma scatter_sources (srcs : list source) :
  ∀ (prefix rest : list row) w g attrs,
    (∀ s, s ∈ srcs → s ∈ sources) →
    (∀ s, s ∈ srcs →
          files w !! src_db s = Some (store_of (src_path s) (extraction s))) →
    files w !! db_name = Some g →
    g !! "f" = Some (Dataset (NdArray dt dims (prefix ++ rest)) attrs) →
    length rest = sum_list ((λ s, length (src_rows s)) <$> srcs) →
    forM_ integrate
      (zip_with (λ source indices, (db_name, source, "f", indices))
         (LStr <$> (src_db <$> srcs))
         (offsets (length prefix) ((λ s, length (src_rows s)) <$> srcs))) w
    = (Ok (),
       World
         (<[db_name :=
              <["f" := Dataset
                         (NdArray dt dims (prefix ++ concat (src_rows <$> srcs)))
                         attrs]> g]> (files w))
         (log w)).
Proof.
  induction srcs as [|s srcs IH];
    intros prefix rest w g attrs Hsub Hstores Hg Hf Hlen.
  - apply nil_length_inv in Hlen. subst rest.
    unfold forM_. simpl. unfold ret. rewrite app_nil_r in *.
    rewrite (insert_id g) by done. rewrite insert_id by done.
    by rewrite world_eta.
  - rewrite !fmap_cons in *. cbn [offsets zip_with] in *.
    change (sum_list (?n :: ?l)) with (n + sum_list l) in Hlen.
    assert (s ∈ sources) as Hs by (apply Hsub; left).
    destruct (Harrays s Hs) as [_ Hdims].
    assert (src_db s ≠ db_name) as Hdb.
    { intros Heq. apply Htarget. rewrite <- Heq.
      apply list_elem_of_fmap. by exists s. }
    set (rows' := (prefix ++ src_rows s) ++ drop (length (src_rows s)) rest).
    set (g' := <["f" := Dataset (NdArray dt dims rows') attrs]> g).
    assert (integrate (db_name, LStr (src_db s), "f",
                       (length prefix, length prefix + length (src_rows s))) w
            = (Ok (), World (<[db_name := g']> (files w)) (log w))) as Hstep.
    { unfold integrate.
      rewrite (bind_ok _ _ _ (src_data s) w); first last.
      { eapply read_dataset_ok; [apply Hstores; left | apply store_f]. }
      unfold write_range.
      rewrite (bind_ok _ _ _ _ _ (h5_read_ok _ _ _ Hg)). rewrite Hf.
      cbn [nd_dims nd_rows nd_dtype]. rewrite decide_True by done.
      change (nd_rows (src_data s)) with (src_rows s).
      rewrite write_rows_block by lia.
      unfold g', rows'. by rewrite <- app_assoc. }
    rewrite forM__cons. rewrite (bind_ok _ _ _ _ _ Hstep).
    replace (length prefix + length (src_rows s))
      with (length (prefix ++ src_rows s)) by (rewrite length_app; lia).
    rewrite (IH (prefix ++ src_rows s) (drop (length (src_rows s)) rest)
               _ g' attrs).
    + cbn [files log concat]. unfold g'.
      rewrite !insert_insert_eq. by rewrite <- app_assoc.
    + intros z Hz. apply Hsub. by right.
    + intros z Hz. cbn [files].
      rewrite lookup_insert_ne; [apply Hstores; by right |].
      intros Heq. apply Htarget. rewrite Heq. apply list_elem_of_fmap.
      exists z. split; [done |]. apply Hsub. by right.
    + cbn [files]. apply lookup_insert_eq.
    + unfold g'. apply lookup_insert_eq.
    + rewrite length_drop. lia.
Qed.

Lemma remove_all (paths : list string) :
  NoDup paths →
  ∀ w,
    (∀ path, path ∈ paths → is_Some (files w !! path)) →
    ∃ fs',
      forM_ os_remove paths w = (Ok (), World fs' (log w))
      ∧ ∀ path, path ∉ paths → fs' !! path = files w !! path.
Proof.
  induction 1 as [|p paths Hp Hnd IH]; intros w Hex.
  - exists (files w). split; [| done].
    unfold forM_. simpl. unfold ret. by rewrite world_eta.
  - destruct (Hex p) as [f Hf]; [left |].
    assert (os_remove p w = (Ok (), World (delete p (files w)) (log w))) as Hstep.
    { unfold os_remove. by rewrite Hf. }
    destruct (IH (World (delete p (files w)) (log w))) as (fs' & Hrun & Hother).
    { intros q Hq. cbn [files]. rewrite lookup_delete_ne by (intros ->; done).
      apply Hex. by right. }
    exists fs'. split.
    + rewrite forM__cons. by rewrite (bind_ok _ _ _ _ _ Hstep).
    + intros q Hq. apply not_elem_of_cons in Hq as [Hne' Hq].
      rewrite Hother by done. cbn [files]. by rewrite lookup_delete_ne.
Qed.

(** The aggregation of the built stores. *)
Lemma aggregate_sources remove_sources w :
  stores_built sources w →
  ∃ w' g,
    aggregate_dbs db_name (src_db <$> sources) ModeW remove_sources w
    = (Ok (), w')
    ∧ files w' !! db_name = Some g
    ∧ g !! "f"
      = Some (Dataset (NdArray dt dims (concat (src_rows <$> sources))) [])
    ∧ g !! "layouts/f" = Some (Frame (persisted_layout sources)).
Proof.
  intros Hbuilt. unfold aggregate_dbs.
  rewrite (bind_ok _ _ _ _ _ (collect_infos_built w Hbuilt)).
  destruct (collect_metadatas_built w Hbuilt) as [md Hmd].
  rewrite (bind_ok _ _ _ _ _ Hmd).
  rewrite (bind_lift_ok _ _ _ _ plan_sources).
  rewrite (bind_ok _ _ _ _ _ (allocate_sources w)).
  set (total := sum_list ((λ s, length (src_rows s)) <$> sources)).
  set (g2 := <["layouts/f" := Frame (persisted_layout sources)]>
               (<["f" := Dataset (empty_array (total, dims) dt) []]> ∅)).
  set (w2 := World (<[db_name := g2]> (files w)) (log w)).
  assert (files w2 !! db_name = Some g2) as Hg2 by apply lookup_insert_eq.
  assert (∀ s, s ∈ sources →
               files w2 !! src_db s
               = Some (store_of (src_path s) (extraction s))) as Hbuilt2.
  { intros s Hs. unfold w2. cbn [files]. rewrite lookup_insert_ne; [by apply Hbuilt |].
    intros Heq. apply Htarget. rewrite Heq. apply list_elem_of_fmap. by exists s. }
  rewrite (bind_ok _ _ _ _ _
             (integration_args_sources w2 g2 Hg2 eq_refl (lookup_insert_eq _ _ _))).
  erewrite bind_ok; last first.
  { apply (scatter_sources sources [] (replicate total (replicate (foldr Nat.mul 1 dims) 0%Z))
             w2 g2 []); [done | done | done | | by rewrite length_replicate].
    unfold g2. rewrite lookup_insert_ne by done. by rewrite lookup_insert_eq. }
  cbn [app length].
  set (g3 := <["f" := Dataset (NdArray dt dims (concat (src_rows <$> sources))) []]> g2).
  set (w3 := World (<[db_name := g3]> (files w2)) (log w2)).
  assert (∃ w4, (if remove_sources then forM_ os_remove (src_db <$> sources)
                 else ret ()) w3 = (Ok (), w4)
                ∧ files w4 !! db_name = Some g3) as (w4 & Hrm & Hg4).
  { destruct remove_sources.
    - destruct (remove_all (src_db <$> sources) Hdbs w3) as (fs' & Hrun & Hother).
      + intros path (s & -> & Hs)%list_elem_of_fmap. unfold w3. cbn [files].
        rewrite lookup_insert_ne; [by rewrite Hbuilt2 |].
        intros Heq. apply Htarget. rewrite Heq. apply list_elem_of_fmap. by exists s.
      + eexists. split; [exact Hrun |]. cbn [files].
        rewrite Hother by done. apply lookup_insert_eq.
    - exists w3. split; [done |]. apply lookup_insert_eq. }
  rewrite (bind_ok _ _ _ _ _ Hrm).
  rewrite (bind_ok _ _ _ _ _ (to_hdf_ok _ "info" _ _ _ Hg4)).
  erewrite to_hdf_ok by (cbn [files]; apply lookup_insert_eq).
  eexists _, _. split; [reflexivity |]. cbn [files].
  split; [apply lookup_insert_eq |].
  rewrite !(lookup_insert_ne _ "metadata"), !(lookup_insert_ne _ "info") by done.
  unfold g3, g2. split.
  - apply lookup_insert_eq.
  - rewrite lookup_insert_ne by done. apply lookup_insert_eq.
Qed.

Lemma make_root_db_sources n_cores remove_sources schedule w :
  0 < n_cores →
  schedule ≡ₚ seq 0 (number_left (length sources)
                       (chunksize (length sources) n_cores)) →
  ∃ w' g,
    make_root_db db_name (src_path <$> sources) extract_func n_cores
      remove_sources schedule w = (Ok (), w')
    ∧ files w' !! db_name = Some g
    ∧ g !! "f"
      = Some (Dataset (NdArray dt dims (concat (src_rows <$> sources))) [])
    ∧ g !! "layouts/f" = Some (Frame (persisted_layout sources)).
Proof.
  intros Hn Hperm.
  assert (∀ q, q ∈ src_path <$> sources → is_Ok (extract_func q)) as Hok.
  { intros q (s & -> & Hs)%list_elem_of_fmap. rewrite Hextract by done.
    by eexists. }
  assert (tmp_db_of <$> (src_path <$> sources) = src_db <$> sources) as Hcomp
    by by rewrite <- list_fmap_compose.
  pose proof (make_db_for_each_file_all_ok extract_func (src_path <$> sources)
                n_cores schedule w Hn) as Hres.
  rewrite length_fmap in Hres. specialize (Hres Hperm Hok).
  rewrite Hcomp in Hres.
  assert (stores_built sources
            (make_db_for_each_file (src_path <$> sources) extract_func n_cores
               schedule w).2) as Hbuilt.
  { intros s Hs. pose proof Hs as Hs'.
    apply list_elem_of_lookup in Hs' as [k Hk].
    apply (make_db_for_each_file_stores extract_func (src_path <$> sources)
             n_cores schedule w k (src_path s) (extraction s)).
    - done.
    - by rewrite length_fmap.
    - done.
    - by rewrite Hcomp.
    - by rewrite list_lookup_fmap, Hk.
    - by apply Hextract. }
  destruct (aggregate_sources remove_sources _ Hbuilt)
    as (w' & g & Hrun & Hg & Hf & Hlay).
  exists w', g. split; [| done].
  unfold make_root_db. erewrite bind_ok; [exact Hrun |].
  rewrite <- Hres. apply surjective_pairing.
Qed.

End pipeline.

(** ** The end-to-end scenario *)

(** C2: three sources whose feature ["f"] has leading sizes 10, 20 and 5,
    given by absolute paths with an extension that lead to three distinct
    stores.  For every pool size, completion order and [remove_sources]
    policy, [make_root_db] succeeds; the aggregate dataset ["f"] has 35
    rows; its persisted layout assigns [0,10), [10,30) and [30,35) to the
    stores of sources 1, 2, 3 in that order; and the rows at each range are
    the rows of that source's own dataset. *)
Theorem three_sources_end_to_end (extract_func : string → result features)
    (s1 s2 s3 : source) (dt : string) (dims : list nat) (db_name : string)
    (n_cores : nat) (remove_sources : bool) (schedule : list nat) (w : world) :
  (∀ s, s ∈ [s1; s2; s3] → extract_func (src_path s) = Ok (extraction s)) →
  (∀ s, s ∈ [s1; s2; s3] →
        Py.contains slash (src_path s) = true
        ∧ Py.contains dot (src_path s) = true) →
  NoDup [src_db s1; src_db s2; src_db s3] →
  db_name ∉ [src_db s1; src_db s2; src_db s3] →
  (∀ s, s ∈ [s1; s2; s3] →
        nd_dtype (src_data s) = dt ∧ nd_dims (src_data s) = dims) →
  (∀ s, s ∈ [s1; s2; s3] → src_meta s ≠ []) →
  length (src_rows s1) = 10 →
  length (src_rows s2) = 20 →
  length (src_rows s3) = 5 →
  0 < n_cores →
  schedule ≡ₚ seq 0 (number_left 3 (chunksize 3 n_cores)) →
  ∃ w' g rows,
    make_root_db db_name [src_path s1; src_path s2; src_path s3] extract_func
      n_cores remove_sources schedule w = (Ok (), w')
    ∧ files w' !! db_name = Some g
    ∧ g !! "f" = Some (Dataset (NdArray dt dims rows) [])
    ∧ length rows = 35
    ∧ g !! "layouts/f"
      = Some (Frame [MkSegment (LInt 0) (Some (LStr (src_db s1))) 0 10;
                     MkSegment (LInt 1) (Some (LStr (src_db s2))) 10 30;
                     MkSegment (LInt 2) (Some (LStr (src_db s3))) 30 35])
    ∧ take 10 rows = src_rows s1
    ∧ take 20 (drop 10 rows) = src_rows s2
    ∧ take 5 (drop 30 rows) = src_rows s3.
Proof.
  intros Hextract Hpaths Hdbs Htarget Harrays Hmeta H1 H2 H3 Hn Hperm.
  destruct (make_root_db_sources extract_func [s1; s2; s3] dt dims db_name
              Hextract Hpaths Hdbs Htarget Harrays Hmeta ltac:(done)
              n_cores remove_sources schedule w Hn Hperm)
    as (w' & g & Hrun & Hg & Hf & Hlay).
  exists w', g, (src_rows s1 ++ src_rows s2 ++ src_rows s3).
  split; [exact Hrun |]. split; [exact Hg |]. split.
  { rewrite Hf. simpl. by rewrite app_nil_r. }
  split; [rewrite !length_app; lia |]. split.
  { rewrite Hlay.
    unfold persisted_layout, planned_layout, Metadata.reset_index_rename.
    simpl. by rewrite H1, H2, H3. }
  split; [by rewrite take_app_length' |].
  rewrite drop_app_length' by done. split.
  - by rewrite take_app_length'.
  - change 30 with (10 + 20). rewrite drop_app_add' by done.
    rewrite drop_app_length' by done. by rewrite take_ge by lia.
Qed.

Lemma three_sources_member (P : source → Prop) :
  P Example.s1 → P Example.s2 → P Example.s3 →
  ∀ s, s ∈ [Example.s1; Example.s2; Example.s3] → P s.
Proof.
  intros P1 P2 P3 s. rewrite !elem_of_cons, elem_of_nil.
  intros [-> | [-> | [-> | []]]]; assumption.
Defined.

Lemma three_sources_end_to_end_witness :
  ∃ w' g rows,
    make_root_db "/out/root.h5" ["/data/s1.wav"; "/data/s2.wav"; "/data/s3.wav"]
      Example.three 2 true [2; 0; 1] Example.empty_world = (Ok (), w')
    ∧ files w' !! "/out/root.h5" = Some g
    ∧ g !! "f" = Some (Dataset (NdArray "float64" [2] rows) [])
    ∧ length rows = 35
    ∧ g !! "layouts/f"
      = Some (Frame [MkSegment (LInt 0) (Some (LStr "/data/s1.h5")) 0 10;
                     MkSegment (LInt 1) (Some (LStr "/data/s2.h5")) 10 30;
                     MkSegment (LInt 2) (Some (LStr "/data/s3.h5")) 30 35])
    ∧ take 10 rows = src_rows Example.s1
    ∧ take 20 (drop 10 rows) = src_rows Example.s2
    ∧ take 5 (drop 30 rows) = src_rows Example.s3.
Proof.
  apply (three_sources_end_to_end Example.three Example.s1 Example.s2 Example.s3
           "float64" [2] "/out/root.h5" 2 true [2; 0; 1] Example.empty_world).
  - apply three_sources_member; vm_compute; reflexivity.
  - apply three_sources_member; split; reflexivity.
  - apply (bool_decide_unpack _). vm_compute. exact I.
  - apply (bool_decide_unpack _). vm_compute. exact I.
  - apply three_sources_member; split; reflexivity.
  - apply three_sources_member; discriminate.
  - reflexivity.
  - reflexivity.
  - reflexivity.
  - lia.
  - apply (bool_decide_unpack _). vm_compute. exact I.
Defined.

(** ** Audio file names *)

Section walker.

Implicit Types (s pre suf stem ext base : string) (c a : ascii).

Lemma rfind_absent c s : Py.contains c s = false → Walker.rfind c s = (-1)%Z.
Proof.
  induction s as [|a s IH]; [done |]. cbn [Py.contains Walker.rfind].
  case_decide; [done |]. intros Hs. by rewrite (IH Hs).
Qed.

Lemma rfind_last c pre suf :
  Py.contains c suf = false →
  Walker.rfind c (pre +:+ String c suf) = Z.of_nat (String.length pre).
Proof.
  intros Hsuf. induction pre as [|a pre IH].
  - rewrite app_empty_l. cbn [Walker.rfind]. rewrite (rfind_absent _ _ Hsuf).
    simpl. by rewrite decide_True.
  - rewrite app_cons. cbn [Walker.rfind String.length]. rewrite IH.
    destruct (0 <=? Z.of_nat (String.length pre))%Z eqn:Hle; lia.
Qed.

Lemma rfind_lower c s : (-1 <= Walker.rfind c s)%Z.
Proof.
  induction s as [|a s IH]; cbn [Walker.rfind]; [lia |].
  destruct (0 <=? Walker.rfind c s)%Z; [lia |]. case_decide; lia.
Qed.

Lemma rfind_present c s :
  Py.contains c s = true → (0 <= Walker.rfind c s)%Z.
Proof.
  induction s as [|a s IH]; [done |]. cbn [Py.contains Walker.rfind].
  destruct (Z.leb_spec 0 (Walker.rfind c s)); [lia |].
  case_decide; [lia |]. intros Hc. specialize (IH Hc). lia.
Qed.

(** The last occurrence splits the string, when there is one. *)
Lemma rfind_found c s :
  (0 <= Walker.rfind c s)%Z →
  ∃ pre suf,
    s = pre +:+ String c suf ∧ Py.contains c suf = false
    ∧ Walker.rfind c s = Z.of_nat (String.length pre).
Proof.
  induction s as [|a s IH]; cbn [Walker.rfind]; [lia |].
  destruct (Z.leb_spec 0 (Walker.rfind c s)) as [Hle | Hlt].
  - intros _. destruct IH as (pre & suf & -> & Hsuf & Hr); [lia |].
    exists (String a pre), suf. split; [done |]. split; [done |].
    rewrite Hr. cbn [String.length]. lia.
  - case_decide as Ha; [| lia]. intros _. subst a.
    exists "", s. split; [done |]. split; [| done].
    destruct (Py.contains c s) eqn:Hc; [| done].
    apply rfind_present in Hc. lia.
Qed.

Lemma rfind_app_absent c pre s :
  Py.contains c s = false → Walker.rfind c (pre +:+ s) = Walker.rfind c pre.
Proof.
  intros Hs. induction pre as [|a pre IH].
  - rewrite app_empty_l. by rewrite rfind_absent.
  - rewrite app_cons. cbn [Walker.rfind]. by rewrite IH.
Qed.

Lemma contains_app c s1 s2 :
  Py.contains c (s1 +:+ s2) = Py.contains c s1 || Py.contains c s2.
Proof.
  induction s1 as [|a s1 IH]; [done |]. rewrite app_cons.
  cbn [Py.contains]. by case_decide.
Qed.

Lemma take_app_length_str pre s :
  Walker.take (String.length pre) (pre +:+ s) = pre.
Proof.
  induction pre as [|a pre IH]; [by destruct s |].
  rewrite app_cons. cbn [String.length Walker.take]. by rewrite IH.
Qed.

Lemma drop_app_length_str pre s :
  Walker.drop (String.length pre) (pre +:+ s) = s.
Proof.
  induction pre as [|a pre IH]; [by destruct s |].
  rewrite app_cons. cbn [String.length Walker.drop]. by rewrite IH.
Qed.

Lemma get_app_length_str pre a s :
  String.get (String.length pre) (pre +:+ String a s) = Some a.
Proof. induction pre as [|b pre IH]; [done |]. by rewrite app_cons. Qed.

Lemma lstrip_absent c s : Py.contains c s = false → Walker.lstrip c s = s.
Proof.
  destruct s as [|a s]; [done |]. cbn [Py.contains Walker.lstrip].
  by case_decide.
Qed.

Lemma rstrip_absent c s : Py.contains c s = false → Walker.rstrip c s = s.
Proof.
  induction s as [|a s IH]; [done |]. cbn [Py.contains Walker.rstrip].
  case_decide as Ha; [done |]. intros Hs. rewrite (IH Hs).
  by destruct s.
Qed.

Lemma strip_extension suf :
  Py.contains dot suf = false → Walker.strip dot (String dot suf) = suf.
Proof.
  intros Hsuf. unfold Walker.strip. cbn [Walker.lstrip].
  rewrite decide_True by done.
  by rewrite lstrip_absent, rstrip_absent.
Qed.

Lemma audio_extension_plain ext :
  ext ∈ Walker.AUDIO_EXTENSIONS →
  Py.contains dot ext = false ∧ Py.contains slash ext = false.
Proof.
  unfold Walker.AUDIO_EXTENSIONS. rewrite !elem_of_cons, elem_of_nil.
  intros [-> | [-> | [-> | [-> | [-> | [-> | []]]]]]]; done.
Qed.

(** What [splitext] returns when it finds an extension. *)
Lemma splitext_ext p :
  (Walker.splitext p).2 ≠ "" →
  ∃ stem suf,
    p = stem +:+ String dot suf ∧ Py.contains dot suf = false
    ∧ Walker.splitext p = (stem, String dot suf).
Proof.
  unfold Walker.splitext.
  destruct (Walker.rfind slash p <? Walker.rfind dot p)%Z eqn:Hlt; [| done].
  destruct (Walker.has_non_dot _ _ _) eqn:Hloop; [| done]. intros _.
  destruct (rfind_found dot p) as (stem & suf & Hp & Hsuf & Hr).
  { pose proof (rfind_lower slash p). lia. }
  exists stem, suf. split; [done |]. split; [done |].
  rewrite Hr, Nat2Z.id. rewrite Hp at 1 2.
  by rewrite take_app_length_str, drop_app_length_str.
Qed.

Lemma rfind_upper c s : (Walker.rfind c s < Z.of_nat (String.length s))%Z.
Proof.
  induction s as [|a s IH]; cbn [Walker.rfind String.length]; [lia |].
  destruct (0 <=? Walker.rfind c s)%Z; [lia |]. case_decide; lia.
Qed.

Lemma length_app_str s pre :
  String.length (pre +:+ s) = String.length pre + String.length s.
Proof.
  induction pre as [|a pre IH]; [done |].
  rewrite app_cons. cbn [String.length]. by rewrite IH.
Qed.

Lemma get_cons_S a s i : String.get (S i) (String a s) = String.get i s.
Proof. reflexivity. Qed.

Lemma has_non_dot_cons a s i n :
  Walker.has_non_dot (String a s) (S i) n = Walker.has_non_dot s i n.
Proof.
  revert i. induction n as [|n IH]; intros i; [done |].
  cbn [Walker.has_non_dot]. rewrite get_cons_S.
  destruct (String.get i s); [| done]. case_decide; [apply IH | done].
Qed.

Lemma has_non_dot_app pre s n :
  Walker.has_non_dot (pre +:+ s) (String.length pre) n = Walker.has_non_dot s 0 n.
Proof.
  induction pre as [|a pre IH]; [done |].
  rewrite app_cons. cbn [String.length]. by rewrite has_non_dot_cons.
Qed.

Lemma has_non_dot_base base s :
  Walker.has_non_dot (base +:+ s) 0 (String.length base)
  = bool_decide (Walker.lstrip dot base ≠ "").
Proof.
  induction base as [|a base IH]; [done |].
  rewrite app_cons. cbn [String.length Walker.has_non_dot String.get Walker.lstrip].
  destruct (decide (a = dot)); [by rewrite has_non_dot_cons | by rewrite bool_decide_eq_true_2].
Qed.

(** [splitext] on a name [stem.ext] whose extension holds no dot: the
    extension is split off when it holds no separator and the base name of
    [stem] holds a character other than a dot, and there is no extension
    otherwise. *)
Lemma splitext_stem_ext stem ext :
  Py.contains dot ext = false →
  Walker.splitext (stem +:+ String dot ext) = (stem, String dot ext)
  ∨ Walker.splitext (stem +:+ String dot ext) = (stem +:+ String dot ext, "").
Proof.
  intros Hext. unfold Walker.splitext.
  rewrite (rfind_last dot) by done.
  destruct (_ <? _)%Z; [| by right].
  destruct (Walker.has_non_dot _ _ _); [| by right]. left.
  by rewrite Nat2Z.id, take_app_length_str, drop_app_length_str.
Qed.

Lemma splitext_base pre base ext :
  Py.contains slash base = false →
  Py.contains dot ext = false → Py.contains slash ext = false →
  Walker.lstrip dot base ≠ "" →
  Walker.rfind slash pre = (Z.of_nat (String.length pre) - 1)%Z →
  Walker.splitext (pre +:+ base +:+ String dot ext)
  = (pre +:+ base, String dot ext).
Proof.
  intros Hbase Hdot Hslash Hstrip Hpre. unfold Walker.splitext.
  rewrite <- !app_assoc_str. rewrite (rfind_last dot) by done.
  rewrite (app_assoc_str pre).
  rewrite (rfind_app_absent slash pre); last first.
  { rewrite contains_app, Hbase. cbn [Py.contains].
    rewrite decide_False by done. by rewrite Hslash. }
  rewrite Hpre.
  pose proof (length_app_str base pre) as Hlen.
  rewrite Hlen.
  destruct (Z.ltb_spec (Z.of_nat (String.length pre) - 1)
              (Z.of_nat (String.length pre + String.length base))) as [_ | ?];
    [| lia].
  replace (Z.to_nat (Z.of_nat (String.length pre) - 1 + 1))
    with (String.length pre) by lia.
  replace (Z.to_nat (Z.of_nat (String.length pre + String.length base)
                     - (Z.of_nat (String.length pre) - 1 + 1)))
    with (String.length base) by lia.
  rewrite has_non_dot_app, has_non_dot_base.
  rewrite bool_decide_eq_true_2 by done.
  rewrite <- Hlen, Nat2Z.id. rewrite <- app_assoc_str.
  by rewrite take_app_length_str, drop_app_length_str.
Qed.

End walker.

(** X1 (is_audio_file, accepted names): a file name that [is_audio_file]
    accepts does not start with a dot and is [stem.ext] for one of the six
    audio extensions; [splitext] splits it there, and the store that
    [file_to_db] writes for it is [stem.h5]. *)
Theorem is_audio_file_accepts (filename : string) :
  Walker.is_audio_file filename = true →
  Walker.startswith "." filename = false
  ∧ ∃ stem ext,
      filename = stem +:+ "." +:+ ext
      ∧ ext ∈ Walker.AUDIO_EXTENSIONS
      ∧ Walker.splitext filename = (stem, "." +:+ ext)
      ∧ tmp_db_of filename = stem +:+ ".h5".
Proof.
  unfold Walker.is_audio_file.
  destruct (Walker.startswith "." filename); [done |]. intros Hext.
  split; [done |]. apply bool_decide_eq_true in Hext.
  destruct (splitext_ext filename) as (stem & suf & Hp & Hsuf & Hsplit).
  { intros Hnil. rewrite Hnil in Hext. vm_compute in Hext.
    by repeat (apply elem_of_cons in Hext as [? | Hext]; [done |]);
      apply elem_of_nil in Hext. }
  rewrite Hsplit in Hext. cbn [snd] in Hext.
  rewrite strip_extension in Hext by done.
  exists stem, suf. split; [done |]. split; [done |]. split; [done |].
  rewrite Hp. by apply (tmp_db_of_ext stem suf).
Qed.

Lemma is_audio_file_accepts_witness :
  Walker.startswith "." "/data/s1.wav" = false
  ∧ ∃ stem ext,
      "/data/s1.wav" = stem +:+ "." +:+ ext
      ∧ ext ∈ Walker.AUDIO_EXTENSIONS
      ∧ Walker.splitext "/data/s1.wav" = (stem, "." +:+ ext)
      ∧ tmp_db_of "/data/s1.wav" = stem +:+ ".h5".
Proof. apply (is_audio_file_accepts "/data/s1.wav"). reflexivity. Defined.

(** X2 (is_audio_file, sufficient conditions): a name
    [pre ++ base ++ "." ++ ext] is accepted when [pre] is empty or ends
    with ["/"], [base] holds no ["/"] and at least one character that is
    not a dot, [ext] is one of the six audio extensions, and the whole
    name does not start with a dot; [splitext] then splits at the last
    dot.  The test for hidden files only looks at the first character of
    the argument, so a hidden file given with its directory is accepted. *)
Theorem is_audio_file_complete (pre base ext : string) :
  (pre = "" ∨ ∃ dir, pre = dir +:+ "/") →
  Py.contains slash base = false →
  Walker.lstrip dot base ≠ "" →
  ext ∈ Walker.AUDIO_EXTENSIONS →
  Walker.startswith "." (pre +:+ base +:+ "." +:+ ext) = false →
  Walker.splitext (pre +:+ base +:+ "." +:+ ext) = (pre +:+ base, "." +:+ ext)
  ∧ Walker.is_audio_file (pre +:+ base +:+ "." +:+ ext) = true.
Proof.
  intros Hpre Hbase Hstrip Hext Hvisible.
  destruct (audio_extension_plain ext Hext) as [Hdot Hslash].
  assert (Walker.splitext (pre +:+ base +:+ "." +:+ ext)
          = (pre +:+ base, "." +:+ ext)) as Hsplit.
  { apply (splitext_base pre base ext); [done.. |].
    destruct Hpre as [-> | [dir ->]]; [done |].
    change (dir +:+ "/") with (dir +:+ String slash "").
    rewrite (rfind_last slash dir "") by done.
    rewrite length_app_str. cbn [String.length]. lia. }
  split; [done |]. unfold Walker.is_audio_file.
  rewrite Hvisible, Hsplit. cbn [snd].
  change ("." +:+ ext) with (String dot ext).
  rewrite strip_extension by done. by apply bool_decide_eq_true_2.
Qed.

Lemma is_audio_file_complete_witness :
  Walker.splitext "/data/.hidden.wav" = ("/data/.hidden", ".wav")
  ∧ Walker.is_audio_file "/data/.hidden.wav" = true.
Proof.
  apply (is_audio_file_complete "/data/" ".hidden" "wav").
  - right. by exists "/data".
  - reflexivity.
  - discriminate.
  - apply (bool_decide_unpack _). vm_compute. exact I.
  - reflexivity.
Defined.

(** ** Path components and store paths *)

Section path_components.

Implicit Types (s stem ext dir name path : string) (sep : ascii) (l : list string).

Lemma final_snoc l x : Py.final (l ++ [x]) = x.
Proof. unfold Py.final. apply last_last. Qed.

Lemma split_parts_absent sep s x :
  x ∈ Py.split sep s → Py.contains sep x = false.
Proof.
  revert x. induction s as [|c s IH]; intros x; simpl.
  - by intros ->%list_elem_of_singleton.
  - case_decide as Hc.
    + intros [-> | Hx]%elem_of_cons; [done | by apply IH].
    + pose proof (split_nonempty sep s) as Hne.
      destruct (Py.split sep s) as [|h t]; [done |].
      intros [-> | Hx]%elem_of_cons.
      * cbn [Py.contains]. rewrite decide_False by done. apply IH. left.
      * apply IH. by right.
Qed.

Lemma split_path_name_plain path : Py.contains slash (split_path path).2 = false.
Proof.
  unfold split_path. cbn [snd]. apply (split_parts_absent slash path).
  pose proof (split_nonempty slash path) as Hne.
  rewrite (init_final _ Hne) at 2. apply elem_of_app. right. left.
Qed.

Lemma split_path_join dir name :
  Py.contains slash name = false →
  split_path (dir +:+ "/" +:+ name) = (dir, name).
Proof.
  intros Hname. unfold split_path.
  change ("/" +:+ name) with (String slash name).
  rewrite split_snoc by done. rewrite init_snoc, final_snoc.
  by rewrite (join_split slash).
Qed.

Lemma tmp_db_of_cons (c : ascii) path :
  c ≠ dot → Py.contains dot path = true →
  tmp_db_of (String c path) = String c (tmp_db_of path).
Proof.
  intros Hc Hdot. unfold tmp_db_of. cbn [Py.split].
  rewrite decide_False by done.
  pose proof (split_present dot path Hdot) as Hinit.
  destruct (Py.split dot path) as [|h [|h' t]]; [done | done |].
  rewrite (init_cons h), (init_cons (String c h)) by done.
  change ((?x :: ?k) ++ ?k') with (x :: (k ++ k')).
  rewrite (join_cons _ h), (join_cons _ (String c h))
    by (by destruct (Py.init (h' :: t))).
  by rewrite app_cons.
Qed.

End path_components.

(** X3 (zip_prev_next): the result has one pair less than
    the list has elements (none for the empty list), and its [i]-th pair
    is made of the elements at positions [i] and [i + 1]. *)
Theorem zip_prev_next_pairs {A} (iterable : list A) :
  length (zip_prev_next iterable) = length iterable - 1
  ∧ ∀ i a b,
      zip_prev_next iterable !! i = Some (a, b)
      ↔ iterable !! i = Some a ∧ iterable !! S i = Some b.
Proof.
  unfold zip_prev_next. rewrite removelast_firstn_len.
  assert (List.tl iterable = drop 1 iterable) as -> by by destruct iterable.
  split.
  - rewrite length_zip_with, length_take, length_drop. lia.
  - intros i a b. rewrite lookup_zip_with_Some. split.
    + intros (x & y & [= -> ->] & Hx & Hy).
      apply lookup_take_Some in Hx as [Hx _]. by rewrite lookup_drop in Hy.
    + intros [Ha Hb]. exists a, b. split; [done |].
      rewrite lookup_drop. split; [| done].
      apply lookup_take_Some. split; [done |].
      apply lookup_lt_Some in Hb. lia.
Qed.

Lemma zip_prev_next_pairs_witness :
  zip_prev_next [0; 10; 30; 35] !! 1 = Some (10, 30).
Proof.
  apply (proj2 (zip_prev_next_pairs [0; 10; 30; 35]) 1 10 30). by split.
Defined.

(** X4 (split_path, inverse of joining): the file-name
    component never holds a ["/"], and [split_path] undoes the joining of
    a directory and a name with ["/"] exactly when the name holds no
    ["/"]. *)
Theorem split_path_inverse (dir name : string) :
  Py.contains slash (split_path (dir +:+ "/" +:+ name)).2 = false
  ∧ (Py.contains slash name = false
     ↔ split_path (dir +:+ "/" +:+ name) = (dir, name)).
Proof.
  split; [apply split_path_name_plain |]. split.
  - apply split_path_join.
  - intros Hsplit. pose proof (split_path_name_plain (dir +:+ "/" +:+ name)) as H.
    by rewrite Hsplit in H.
Qed.

Lemma split_path_inverse_witness :
  split_path ("/data/set" +:+ "/" +:+ "s1.wav") = ("/data/set", "s1.wav").
Proof.
  apply (proj1 (proj2 (split_path_inverse "/data/set" "s1.wav"))). reflexivity.
Defined.

(** X5 (lines 121 and 182-184): the path under
    which [ds_definitions_from_infos] names a source, recomputed from the
    two components that [file_to_db] recorded in [info], is the path of
    the store that [file_to_db] wrote exactly when the source path holds a
    ["/"] and a dot. *)
Theorem planned_path_is_store_path (abs_path : string) :
  change_extension (rejoin (split_path abs_path)) = tmp_db_of abs_path
  ↔ Py.contains slash abs_path = true ∧ Py.contains dot abs_path = true.
Proof.
  split.
  - intros Heq.
    destruct (Py.contains slash abs_path) eqn:Hslash;
      destruct (Py.contains dot abs_path) eqn:Hdot; [done | | |]; exfalso.
    + rewrite rejoin_split_path in Heq by done.
      destruct (tmp_db_of_no_ext abs_path Hdot) as [H1 H2]. congruence.
    + rewrite split_path_bare in Heq by done.
      change (rejoin ("", abs_path)) with (String slash abs_path) in Heq.
      rewrite change_extension_tmp_db in Heq
        by (cbn [Py.contains]; by rewrite decide_False).
      rewrite tmp_db_of_cons in Heq by done. by apply cons_ne in Heq.
    + rewrite split_path_bare in Heq by done.
      change (rejoin ("", abs_path)) with (String slash abs_path) in Heq.
      destruct (tmp_db_of_no_ext abs_path Hdot) as [H1 _].
      destruct (tmp_db_of_no_ext (String slash abs_path)) as [_ H2].
      { cbn [Py.contains]. by rewrite decide_False. }
      congruence.
  - intros [Hslash Hdot]. rewrite rejoin_split_path by done.
    by apply change_extension_tmp_db.
Qed.

Lemma planned_path_is_store_path_witness :
  change_extension (rejoin (split_path "/data/s1.wav")) = tmp_db_of "/data/s1.wav".
Proof.
  apply (proj2 (planned_path_is_store_path "/data/s1.wav")). by split.
Defined.

(** ** The contents of a per-source store *)

Section store_contents.

Implicit Types (w : world) (f : gmap string node)
  (items : list (string * (attributes * value)))
  (info : gmap string (option feat_info)).

Lemma recorded_other info item k :
  k ≠ item.1 → recorded info item !! k = info !! k.
Proof.
  intros Hk. unfold recorded.
  destruct (item.2.2); [| done | done]. by rewrite lookup_insert_ne.
Qed.

Lemma foldl_stored_other items :
  ∀ f k, k ∉ items.*1 → foldl stored f items !! k = f !! k.
Proof.
  induction items as [|item items IH]; intros f k Hk; [done |].
  rewrite fmap_cons in Hk. apply not_elem_of_cons in Hk as [Hne Hk].
  cbn [foldl]. rewrite IH by done. by apply stored_other.
Qed.

Lemma foldl_recorded_other items :
  ∀ info k, k ∉ items.*1 → foldl recorded info items !! k = info !! k.
Proof.
  induction items as [|item items IH]; intros info k Hk; [done |].
  rewrite fmap_cons in Hk. apply not_elem_of_cons in Hk as [Hne Hk].
  cbn [foldl]. rewrite IH by done. by apply recorded_other.
Qed.

(** What the loop of lines 126-134 leaves under the name of an item. *)
Lemma foldl_stored_lookup items :
  ∀ f k v,
    NoDup items.*1 → (k, v) ∈ items →
    foldl stored f items !! k
    = match v.2 with
      | Dense data => Some (Dataset data v.1)
      | Table m => Some (Frame m)
      | Opaque => f !! k
      end.
Proof.
  induction items as [|item items IH]; intros f k v Hnd Hin.
  - by apply elem_of_nil in Hin.
  - rewrite fmap_cons in Hnd. apply NoDup_cons in Hnd as [Hitem Hnd].
    cbn [foldl]. apply elem_of_cons in Hin as [<- | Hin].
    + rewrite foldl_stored_other by done. unfold stored. cbn [fst snd].
      destruct (v.2); [apply lookup_insert_eq.. | done].
    + assert (k ≠ item.1) as Hne.
      { intros ->. apply Hitem. apply list_elem_of_fmap. by exists (item.1, v). }
      rewrite (IH _ k v) by done.
      destruct (v.2); [done | done |]. by apply stored_other.
Qed.

Lemma foldl_recorded_lookup items :
  ∀ info k v,
    NoDup items.*1 → (k, v) ∈ items →
    foldl recorded info items !! k
    = match v.2 with
      | Dense data => Some (Some (FeatInfo (nd_dtype data) (nd_shape data)))
      | _ => info !! k
      end.
Proof.
  induction items as [|item items IH]; intros info k v Hnd Hin.
  - by apply elem_of_nil in Hin.
  - rewrite fmap_cons in Hnd. apply NoDup_cons in Hnd as [Hitem Hnd].
    cbn [foldl]. apply elem_of_cons in Hin as [<- | Hin].
    + rewrite foldl_recorded_other by done. unfold recorded. cbn [fst snd].
      destruct (v.2); [apply lookup_insert_eq | done | done].
    + assert (k ≠ item.1) as Hne.
      { intros ->. apply Hitem. apply list_elem_of_fmap. by exists (item.1, v). }
      rewrite (IH _ k v) by done.
      destruct (v.2); [done | |]; by apply recorded_other.
Qed.

Lemma empty_info_lookup (features_names : list string) k :
  _empty_info features_names !! k
  = if decide (k ∈ features_names ∧ k ≠ "metadata") then Some None else None.
Proof.
  unfold _empty_info. induction features_names as [|n rest IH].
  - rewrite decide_False; [done |]. intros [Hin _]. by apply elem_of_nil in Hin.
  - destruct (decide (n ≠ "metadata")) as [Hn | Hn].
    + rewrite filter_cons_True by done. rewrite fmap_cons. cbn [list_to_map foldr].
      change (foldr _ _ ?l) with (list_to_map (M := gmap string (option feat_info)) l).
      destruct (decide (k = n)) as [-> | Hk].
      * rewrite lookup_insert_eq. rewrite decide_True; [done |]. split; [left | done].
      * rewrite lookup_insert_ne by done. rewrite IH.
        destruct (decide (k ∈ rest ∧ k ≠ "metadata")) as [[H1 H2] | Hno].
        -- rewrite decide_True; [done |]. split; [by right | done].
        -- rewrite decide_False; [done |].
           intros [[-> | H1]%elem_of_cons H2]; [done |]. by apply Hno.
    + rewrite filter_cons_False by done. rewrite IH.
      apply dec_stable in Hn. subst n.
      destruct (decide (k ∈ rest ∧ k ≠ "metadata")) as [[H1 H2] | Hno].
      * rewrite decide_True; [done |]. split; [by right | done].
      * rewrite decide_False; [done |].
        intros [[-> | H1]%elem_of_cons H2]; [done |]. by apply Hno.
Qed.

Lemma store_of_lookup abs_path (rv : features) k :
  k ≠ "info" →
  store_of abs_path rv !! k
  = match rv !! k with
    | Some (attrs, Dense data) => Some (Dataset data attrs)
    | Some (_, Table m) => Some (Frame m)
    | _ => None
    end.
Proof.
  intros Hk. unfold store_of. rewrite lookup_insert_ne by done.
  destruct (rv !! k) as [[attrs v]|] eqn:Hrv.
  - rewrite (foldl_stored_lookup _ ∅ k (attrs, v)).
    + by destruct v.
    + apply NoDup_fst_map_to_list.
    + by apply elem_of_map_to_list.
  - rewrite foldl_stored_other; [done |].
    intros ([k' v] & -> & Hin)%list_elem_of_fmap.
    apply elem_of_map_to_list in Hin. simpl in Hrv. congruence.
Qed.

Lemma info_of_lookup abs_path (rv : features) k :
  columns (info_of abs_path rv) !! k
  = match rv !! k with
    | Some (_, Dense data) => Some (Some (FeatInfo (nd_dtype data) (nd_shape data)))
    | Some _ => if decide (k = "metadata") then None else Some None
    | None => None
    end.
Proof.
  unfold info_of. cbn [columns].
  destruct (rv !! k) as [[attrs v]|] eqn:Hrv.
  - rewrite (foldl_recorded_lookup _ _ k (attrs, v)).
    + assert (_empty_info (map_to_list rv).*1 !! k
              = if decide (k = "metadata") then None else Some None) as Hempty.
      { rewrite empty_info_lookup.
        assert (k ∈ (map_to_list rv).*1) as Hin.
        { apply list_elem_of_fmap. exists (k, (attrs, v)).
          split; [done |]. by apply elem_of_map_to_list. }
        destruct (decide (k = "metadata")) as [-> | Hk].
        - rewrite decide_False; [done |]. by intros [_ ?].
        - by rewrite decide_True. }
      destruct v; cbn [snd]; done.
    + apply NoDup_fst_map_to_list.
    + by apply elem_of_map_to_list.
  - rewrite foldl_recorded_other.
    + rewrite empty_info_lookup. rewrite decide_False; [done |].
      intros [([k' v] & -> & Hin)%list_elem_of_fmap _].
      apply elem_of_map_to_list in Hin. simpl in Hrv. congruence.
    + intros ([k' v] & -> & Hin)%list_elem_of_fmap.
      apply elem_of_map_to_list in Hin. simpl in Hrv. congruence.
Qed.

(** In append mode a dense feature whose name the container already holds
    stops the loop. *)
Lemma foldM_store_feature_collision tmp_db items :
  ∀ info w f name attrs data,
    files w !! tmp_db = Some f →
    (name, (attrs, Dense data)) ∈ items → is_Some (f !! name) →
    ∃ w',
      foldM (store_feature tmp_db) info items w
      = (Err (ValueError "Unable to create dataset (name already exists)"), w')
      ∧ log w' = log w
      ∧ ∀ path, path ≠ tmp_db → files w' !! path = files w !! path.
Proof.
  induction items as [|item items IH]; intros info w f name attrs data Hf Hin Hname.
  - by apply elem_of_nil in Hin.
  - cbn [foldM]. unfold bind at 1.
    destruct (decide (item.1 = name)) as [Hitem | Hitem].
    + apply elem_of_cons in Hin as [<- | Hin].
      * unfold store_feature. cbn [fst snd]. unfold create_dataset.
        unfold bind. rewrite (h5_read_ok _ _ _ Hf).
        destruct Hname as [n ->]. by exists w.
      * destruct item as [k [a v]]. cbn [fst] in Hitem. subst k.
        unfold store_feature. cbn [fst snd]. destruct v as [d | m |].
        -- unfold create_dataset, bind. rewrite (h5_read_ok _ _ _ Hf).
           destruct Hname as [n ->]. by exists w.
        -- rewrite (bind_ok _ _ _ _ _ (to_hdf_ok _ _ _ _ _ Hf)). unfold ret.
           edestruct (IH info (World (<[tmp_db := <[name := Frame m]> f]> (files w)) (log w)))
             as (w' & Hrun & Hlog & Hframe);
             [apply lookup_insert_eq | exact Hin | by rewrite lookup_insert_eq |].
           exists w'. split; [exact Hrun |]. split; [done |].
           intros path Hpath. rewrite Hframe by done. cbn [files].
           by rewrite lookup_insert_ne.
        -- unfold ret. by eapply IH.
    + apply elem_of_cons in Hin as [Heq | Hin]; [by subst item |].
      destruct item as [k [a v]]. cbn [fst] in Hitem.
      unfold store_feature. cbn [fst snd]. destruct v as [d | m |].
      * unfold create_dataset, bind. rewrite (h5_read_ok _ _ _ Hf).
        destruct (f !! k) eqn:Hk; [by exists w |].
        cbn [set_files files log].
        edestruct (IH (<[k := Some (FeatInfo (nd_dtype d) (nd_shape d))]> info)
                     (World (<[tmp_db := <[k := Dataset d a]> f]> (files w)) (log w)))
          as (w' & Hrun & Hlog & Hframe);
          [apply lookup_insert_eq | exact Hin | by rewrite lookup_insert_ne |].
        exists w'. split; [exact Hrun |]. split; [done |].
        intros path Hpath. rewrite Hframe by done. cbn [files].
        by rewrite lookup_insert_ne.
      * rewrite (bind_ok _ _ _ _ _ (to_hdf_ok _ _ _ _ _ Hf)). unfold ret.
        edestruct (IH info (World (<[tmp_db := <[k := Frame m]> f]> (files w)) (log w)))
          as (w' & Hrun & Hlog & Hframe);
          [apply lookup_insert_eq | exact Hin | by rewrite lookup_insert_ne |].
        exists w'. split; [exact Hrun |]. split; [done |].
        intros path Hpath. rewrite Hframe by done. cbn [files].
        by rewrite lookup_insert_ne.
      * unfold ret. by eapply IH.
Qed.

End store_contents.

(** X6 (file_to_db, round trip): when the extraction
    returns features whose names hold no ["/"] and are not ["info"], the
    run succeeds and the store holds under every name what the extraction
    returned there: a dense array is read back unchanged (with
    its attributes stored), a table is read back unchanged, and nothing is
    stored for a value that is neither or for a name the extraction did
    not return. *)
Theorem file_to_db_round_trip (extract_func : string → result features)
    (abs_path : string) (rv : features) (w : world) :
  extract_func abs_path = Ok rv →
  (∀ name, is_Some (rv !! name) →
           Py.contains slash name = false ∧ name ≠ "info") →
  ∃ w' store,
    file_to_db extract_func ModeW abs_path w = (Ok (tmp_db_of abs_path), w')
    ∧ files w' !! tmp_db_of abs_path = Some store
    ∧ ∀ name, name ≠ "info" →
        match rv !! name with
        | Some (attrs, Dense data) =>
            store !! name = Some (Dataset data attrs)
            ∧ read_dataset (tmp_db_of abs_path) name w' = (Ok data, w')
        | Some (_, Table m) =>
            store !! name = Some (Frame m)
            ∧ read_hdf (tmp_db_of abs_path) name w' = (Ok m, w')
        | _ =>
            store !! name = None
            ∧ read_key (tmp_db_of abs_path) name w' = (Err (KeyError name), w')
        end.
Proof.
  intros Hrv _. eexists _, (store_of abs_path rv).
  split; [by apply file_to_db_ok |].
  cbn [files]. split; [apply lookup_insert_eq |].
  intros name Hname. pose proof (store_of_lookup abs_path rv name Hname) as Hstore.
  set (w' := World _ _).
  assert (files w' !! tmp_db_of abs_path = Some (store_of abs_path rv)) as Hf
    by apply lookup_insert_eq.
  destruct (rv !! name) as [[attrs [data | m |]]|].
  - split; [done |]. by eapply read_dataset_ok.
  - split; [done |]. by eapply read_hdf_ok.
  - split; [done |]. unfold read_key.
    rewrite (bind_ok _ _ _ _ _ (h5_read_ok _ _ _ Hf)). by rewrite Hstore.
  - split; [done |]. unfold read_key.
    rewrite (bind_ok _ _ _ _ _ (h5_read_ok _ _ _ Hf)). by rewrite Hstore.
Qed.

Lemma s1_feature_names name :
  is_Some (extraction Example.s1 !! name) →
  Py.contains slash name = false ∧ name ≠ "info".
Proof.
  intros Hname.
  destruct (decide (name = "f")) as [-> | Hf]; [done |].
  destruct (decide (name = "metadata")) as [-> | Hm]; [done |].
  unfold extraction in Hname.
  rewrite !lookup_insert_ne, lookup_empty in Hname by done.
  by destruct Hname.
Defined.

Lemma file_to_db_round_trip_witness :
  ∃ w' store,
    file_to_db Example.three ModeW "/data/s1.wav" Example.empty_world
    = (Ok "/data/s1.h5", w')
    ∧ files w' !! "/data/s1.h5" = Some store
    ∧ ∀ name, name ≠ "info" →
        match extraction Example.s1 !! name with
        | Some (attrs, Dense data) =>
            store !! name = Some (Dataset data attrs)
            ∧ read_dataset "/data/s1.h5" name w' = (Ok data, w')
        | Some (_, Table m) =>
            store !! name = Some (Frame m)
            ∧ read_hdf "/data/s1.h5" name w' = (Ok m, w')
        | _ =>
            store !! name = None
            ∧ read_key "/data/s1.h5" name w' = (Err (KeyError name), w')
        end.
Proof.
  apply (file_to_db_round_trip Example.three "/data/s1.wav"
           (extraction Example.s1) Example.empty_world).
  - vm_compute. reflexivity.
  - apply s1_feature_names.
Defined.

(** X7 (file_to_db, the row of [info]): for such an
    extraction the store holds one row of [info]; it carries the two
    components of [split_path]; a dense feature (other than ["metadata"])
    has its dtype and shape there; a feature that is not a dense
    array has empty (NaN) cells, except ["metadata"], which has no column;
    a name the extraction did not return has no column. *)
Theorem file_to_db_info_row (extract_func : string → result features)
    (abs_path : string) (rv : features) (w : world) :
  extract_func abs_path = Ok rv →
  (∀ name, is_Some (rv !! name) →
           Py.contains slash name = false ∧ name ≠ "info") →
  ∃ store row,
    files (file_to_db extract_func ModeW abs_path w).2 !! tmp_db_of abs_path
    = Some store
    ∧ store !! "info" = Some (Info [row])
    ∧ (directory row, name row) = split_path abs_path
    ∧ (∀ feat attrs data,
         rv !! feat = Some (attrs, Dense data) → feat ≠ "metadata" →
         columns row !! feat
         = Some (Some (FeatInfo (nd_dtype data) (length (nd_rows data) :: nd_dims data))))
    ∧ (∀ feat attrs v,
         rv !! feat = Some (attrs, v) → (∀ data, v ≠ Dense data) →
         columns row !! feat = if decide (feat = "metadata") then None else Some None)
    ∧ (∀ feat, rv !! feat = None → columns row !! feat = None).
Proof.
  intros Hrv _. exists (store_of abs_path rv), (info_of abs_path rv).
  rewrite (file_to_db_ok _ _ _ _ Hrv). cbn [snd files].
  split; [apply lookup_insert_eq |]. split; [apply lookup_insert_eq |].
  split; [unfold info_of; cbn [directory name]; by destruct (split_path abs_path) |].
  split; [| split].
  - intros feat attrs data Hfeat _. by rewrite info_of_lookup, Hfeat.
  - intros feat attrs v Hfeat Hv. rewrite info_of_lookup, Hfeat.
    destruct v as [data | |]; [by destruct (Hv data) | done | done].
  - intros feat Hfeat. by rewrite info_of_lookup, Hfeat.
Qed.

Lemma file_to_db_info_row_witness :
  ∃ store row,
    files (file_to_db Example.three ModeW "/data/s1.wav" Example.empty_world).2
      !! "/data/s1.h5" = Some store
    ∧ store !! "info" = Some (Info [row])
    ∧ (directory row, name row) = ("/data", "s1.wav")
    ∧ (∀ feat attrs data,
         extraction Example.s1 !! feat = Some (attrs, Dense data) →
         feat ≠ "metadata" →
         columns row !! feat
         = Some (Some (FeatInfo (nd_dtype data) (length (nd_rows data) :: nd_dims data))))
    ∧ (∀ feat attrs v,
         extraction Example.s1 !! feat = Some (attrs, v) → (∀ data, v ≠ Dense data) →
         columns row !! feat = if decide (feat = "metadata") then None else Some None)
    ∧ (∀ feat, extraction Example.s1 !! feat = None → columns row !! feat = None).
Proof.
  apply (file_to_db_info_row Example.three "/data/s1.wav"
           (extraction Example.s1) Example.empty_world).
  - vm_compute. reflexivity.
  - apply s1_feature_names.
Defined.

(** X8 (file_to_db, mode ["r+"]): without an existing store
    the run raises [OSError] after the log line and writes nothing; with a
    store that already holds the name of a dense feature of the
    extraction it raises the [ValueError] of [create_dataset], and no
    other file is touched. *)
Theorem file_to_db_append (extract_func : string → result features)
    (abs_path : string) (rv : features) (w : world) :
  extract_func abs_path = Ok rv →
  (files w !! tmp_db_of abs_path = None →
     file_to_db extract_func ModeRPlus abs_path w
     = (Err (OSError (tmp_db_of abs_path)),
        World (files w) (log w ++ ["making db for " +:+ abs_path])))
  ∧ (∀ f name attrs data,
       files w !! tmp_db_of abs_path = Some f →
       rv !! name = Some (attrs, Dense data) → is_Some (f !! name) →
       ∃ w',
         file_to_db extract_func ModeRPlus abs_path w
         = (Err (ValueError "Unable to create dataset (name already exists)"), w')
         ∧ ∀ path, path ≠ tmp_db_of abs_path → files w' !! path = files w !! path).
Proof.
  intros Hrv. split.
  - intros Hnone. unfold file_to_db.
    erewrite bind_ok by reflexivity. rewrite (bind_lift_ok _ _ _ _ Hrv).
    apply bind_err. unfold h5_open. cbn [files]. by rewrite Hnone.
  - intros f name attrs data Hf Hname Hsome. unfold file_to_db.
    erewrite bind_ok by reflexivity. rewrite (bind_lift_ok _ _ _ _ Hrv).
    erewrite bind_ok; last first.
    { unfold h5_open. cbn [files]. by rewrite Hf. }
    edestruct (foldM_store_feature_collision (tmp_db_of abs_path) (map_to_list rv)
                 (_empty_info (map_to_list rv).*1)
                 (World (files w) (log w ++ ["making db for " +:+ abs_path])))
      as (w' & Hrun & _ & Hframe); [exact Hf | | exact Hsome |].
    { apply elem_of_map_to_list. exact Hname. }
    exists w'. split; [| exact Hframe]. apply bind_err. exact Hrun.
Qed.

Lemma file_to_db_append_witness :
  file_to_db Example.three ModeRPlus "/data/s1.wav" Example.empty_world
  = (Err (OSError "/data/s1.h5"), World ∅ ["making db for /data/s1.wav"])
  ∧ ∃ w',
      file_to_db Example.three ModeRPlus "/data/s1.wav"
        (Example.built Example.three_paths Example.three)
      = (Err (ValueError "Unable to create dataset (name already exists)"), w')
      ∧ ∀ path, path ≠ "/data/s1.h5" →
                files w' !! path
                = files (Example.built Example.three_paths Example.three) !! path.
Proof.
  split.
  - apply (proj1 (file_to_db_append Example.three "/data/s1.wav"
                    (extraction Example.s1) Example.empty_world
                    ltac:(vm_compute; reflexivity))).
    reflexivity.
  - apply (proj2 (file_to_db_append Example.three "/data/s1.wav"
                    (extraction Example.s1)
                    (Example.built Example.three_paths Example.three)
                    ltac:(vm_compute; reflexivity))
             (store_of "/data/s1.wav" (extraction Example.s1)) "f" []
             (src_data Example.s1)).
    + vm_compute. reflexivity.
    + reflexivity.
    + eexists. reflexivity.
Defined.

(** ** What a successful plan implies *)

Section plans.

Implicit Types (infos : list info_row) (paths : list string) (f g : string).

Lemma elem_of_unique {A} `{EqDecision A} (l : list A) (x : A) :
  x ∈ unique l ↔ x ∈ l.
Proof.
  induction l as [|y l IH]; [done |]. cbn [unique].
  rewrite !elem_of_cons, list_elem_of_filter, IH.
  destruct (decide (x = y)); tauto.
Qed.

Lemma item_Ok {A} (l : list A) (x : A) : item l = Ok x → l = [x].
Proof. destruct l as [|y [|z l]]; [done | | done]. by intros [= ->]. Qed.

Lemma item_unique_Ok {A} `{EqDecision A} (l : list A) (c : A) :
  item (unique l) = Ok c → ∀ x, x ∈ l → x = c.
Proof.
  intros Hitem%item_Ok x Hx. apply elem_of_unique in Hx.
  rewrite Hitem in Hx. by apply list_elem_of_singleton in Hx.
Qed.

Lemma assert_same_dims_Ok dims (shapes : list (option feat_info)) :
  assert_same_dims dims shapes = Ok () →
  ∀ shp, shp ∈ shapes → shape_tail shp = Ok dims.
Proof.
  induction shapes as [|x shapes IH]; intros Hok shp Hshp.
  - by apply elem_of_nil in Hshp.
  - cbn [assert_same_dims] in Hok.
    apply result_bind_Ok in Hok as (tl & Htl & Hok).
    case_decide as Hdims; [| done]. subst tl.
    apply elem_of_cons in Hshp as [-> | Hshp]; [done | by apply IH].
Qed.

(** A successful plan of one feature: every source holds the feature, with
    the dtype of the plan and a shape whose tail is that of the plan. *)
Lemma ds_definition_of_cells infos paths f d :
  ds_definition_of infos paths f = Ok d →
  infos ≠ []
  ∧ ∀ r, r ∈ infos →
         ∃ fi n, cell f r = Some fi ∧ dtype d = Some (fi_dtype fi)
                 ∧ fi_shape fi = n :: (shape d).2.
Proof.
  unfold ds_definition_of. intros H.
  apply result_bind_Ok in H as (dt & Hdt & H).
  apply result_bind_Ok in H as (shape0 & Hshape0 & H).
  apply result_bind_Ok in H as (dims & Hdims & H).
  apply result_bind_Ok in H as ([] & Hsame & H).
  apply result_bind_Ok in H as (durations & Hdur & H).
  apply result_bind_Ok in H as (m & _ & H).
  apply result_bind_Ok in H as (total & _ & H).
  apply result_bind_Ok in H as (m' & _ & H).
  injection H as <-. cbn [dtype shape snd].
  destruct infos as [|r0 rest]; [done |]. split; [done |].
  rewrite fmap_cons in Hshape0, Hsame, Hdur. injection Hshape0 as <-.
  cbn [drop] in Hsame. rewrite drop_0 in Hsame.
  intros r Hr.
  assert (shape_tail (cell f r) = Ok dims) as Htail.
  { apply elem_of_cons in Hr as [-> | Hr]; [done |].
    apply (assert_same_dims_Ok dims (cell f <$> rest)); [done |].
    apply list_elem_of_fmap. by exists r. }
  destruct (cell f r) as [fi|] eqn:Hcell; [| done].
  exists fi. cbn [shape_tail] in Htail. injection Htail as Htail.
  apply mapM_result_Forall2 in Hdur.
  assert (∃ n, shape_head (Some fi) = Ok n) as [n Hn].
  { rewrite <- Hcell.
    apply list_elem_of_lookup in Hr as [k Hk].
    destruct (Forall2_lookup_l _ (cell f r0 :: (cell f <$> rest)) durations k
                (cell f r) Hdur) as (n & _ & Hn).
    { rewrite <- fmap_cons. by rewrite list_lookup_fmap, Hk. }
    by exists n. }
  exists n. split; [done |]. split.
  - assert (fi_dtype <$> cell f r = dt) as Hsame_dt.
    { apply (item_unique_Ok _ _ Hdt). apply list_elem_of_fmap. by exists r. }
    by rewrite Hcell in Hsame_dt.
  - cbn [shape_head] in Hn. destruct (fi_shape fi) as [|n' tl]; [done |].
    injection Hn as ->. rewrite <- Htail. reflexivity.
Qed.

Lemma ds_definitions_names infos defs :
  ds_definitions_from_infos infos = Ok defs →
  defs.*1 = elements (info_features infos).
Proof.
  unfold ds_definitions_from_infos. intros H.
  apply mapM_result_Forall2 in H.
  induction H as [|g [n d] fs defs Hg _ IH]; [done |].
  rewrite fmap_cons, IH. f_equal.
  destruct (ds_definition_of infos (info_paths infos) g); [| done].
  by injection Hg as -> _.
Qed.

Lemma contiguous_bounds (m m' : list Segment) :
  bounds <$> m = bounds <$> m' → Metadata.contiguous m → Metadata.contiguous m'.
Proof.
  revert m'. induction m as [|s m IH]; intros [|s' m'] Hb; [done.. |].
  rewrite !fmap_cons in Hb. injection Hb as Hstart Hstop Hm.
  destruct m as [|t m]; destruct m' as [|t' m']; [done.. |].
  intros [Hst Hc]. split.
  - rewrite !fmap_cons in Hm. injection Hm as Ht _ _. congruence.
  - by apply IH.
Qed.

Lemma set_index_Ok paths (m m' : list Segment) :
  Metadata.set_index paths m = Ok m' →
  length paths = length m
  ∧ seg_index <$> m' = LStr <$> paths
  ∧ bounds <$> m' = bounds <$> m.
Proof.
  unfold Metadata.set_index. case_decide as Hlen; [| done]. intros [= <-].
  split; [done |]. split.
  - rewrite <- (zip_with_fmap_l
                  (λ l (x : Segment), MkSegment l (seg_name x) (start x) (stop x)) LStr).
    apply fmap_zip_with_l; [done |]. rewrite length_fmap. lia.
  - apply bounds_zip_with. lia.
Qed.

Lemma head_fmap_list {A B} (h : A → B) (l : list A) :
  head (h <$> l) = h <$> head l.
Proof. by destruct l. Qed.

Lemma last_stop_bounds (m m' : list Segment) :
  bounds <$> m = bounds <$> m' → Metadata.last_stop m = Metadata.last_stop m'.
Proof.
  intros Hb. unfold Metadata.last_stop.
  assert (stop <$> last m = stop <$> last m') as Hlast.
  { rewrite <- !fmap_last.
    assert (stop <$> m = snd <$> (bounds <$> m)) as -> by by rewrite <- list_fmap_compose.
    assert (stop <$> m' = snd <$> (bounds <$> m')) as -> by by rewrite <- list_fmap_compose.
    by rewrite Hb. }
  destruct (last m), (last m'); simpl in Hlast; congruence.
Qed.

End plans.

(** X9 (ds_definitions_from_infos, success): when the
    planner succeeds it has planned exactly the features of [infos], each
    once, and every source holds every feature with the dtype of the plan
    and a shape made of a leading size followed by the dimensions of the
    plan. *)
Theorem planned_features_uniform (infos : list info_row)
    (defs : list (string * ds_definition)) :
  ds_definitions_from_infos infos = Ok defs →
  (∀ f, f ∈ defs.*1 ↔ f ∈ info_features infos)
  ∧ NoDup defs.*1
  ∧ ∀ f d, (f, d) ∈ defs →
      ∀ r, r ∈ infos →
           ∃ fi n, cell f r = Some fi ∧ dtype d = Some (fi_dtype fi)
                   ∧ fi_shape fi = n :: (shape d).2.
Proof.
  intros Hdefs. pose proof (ds_definitions_names _ _ Hdefs) as Hnames.
  split; [intros f; by rewrite Hnames, elem_of_elements |].
  split; [rewrite Hnames; apply NoDup_elements |].
  intros f d Hin.
  apply (ds_definitions_elem _ _ _ _ Hdefs) in Hin.
  by apply ds_definition_of_cells in Hin as [_ Hcells].
Qed.

Lemma planned_features_uniform_witness :
  (∀ f, f ∈ Example.three_defs.*1
        ↔ f ∈ info_features (src_info <$> [Example.s1; Example.s2; Example.s3]))
  ∧ NoDup Example.three_defs.*1
  ∧ ∀ f d, (f, d) ∈ Example.three_defs →
      ∀ r, r ∈ src_info <$> [Example.s1; Example.s2; Example.s3] →
           ∃ fi n, cell f r = Some fi ∧ dtype d = Some (fi_dtype fi)
                   ∧ fi_shape fi = n :: (shape d).2.
Proof.
  apply (planned_features_uniform
           (src_info <$> [Example.s1; Example.s2; Example.s3]) Example.three_defs).
  vm_compute. reflexivity.
Defined.

(** X10 (ds_definitions_from_infos, the layout): the
    layout planned for a feature has one segment per source, labelled by
    the store paths computed from [infos] in order; it starts at 0, is
    contiguous, and its last stop is the leading size of the planned
    shape. *)
Theorem planned_layout_shape (infos : list info_row)
    (defs : list (string * ds_definition)) (f : string) (d : ds_definition) :
  ds_definitions_from_infos infos = Ok defs → (f, d) ∈ defs →
  seg_index <$> layout d = LStr <$> info_paths infos
  ∧ length (layout d) = length infos
  ∧ Metadata.contiguous (layout d)
  ∧ Metadata.starts_at_zero (layout d)
  ∧ Metadata.last_stop (layout d) = Ok (shape d).1.
Proof.
  intros Hdefs Hin. apply (ds_definitions_elem _ _ _ _ Hdefs) in Hin.
  destruct (ds_definition_of_Ok _ _ _ _ Hin) as (durations & Hdur & Hne & Hidx & Htotal).
  apply set_index_Ok in Hidx as (Hlen & Hindex & Hbounds).
  split; [done |]. split.
  { rewrite <- (length_fmap seg_index), Hindex, length_fmap. apply info_paths_length. }
  split.
  { apply (contiguous_bounds (Metadata.cumulative 0 0 durations)); [done |].
    apply cumulative_contiguous. }
  split.
  { pose proof (cumulative_head 0 0 durations Hne) as Hhead.
    unfold Metadata.starts_at_zero.
    assert (start <$> head (layout d)
            = start <$> head (Metadata.cumulative 0 0 durations)) as ->; [| done].
    rewrite <- !head_fmap_list.
    assert (∀ m : list Segment, start <$> m = fst <$> (bounds <$> m)) as Hfst
      by (intros m; by rewrite <- list_fmap_compose).
    by rewrite !Hfst, Hbounds. }
  rewrite (last_stop_bounds _ _ Hbounds), Htotal.
  by apply last_stop_cumulative.
Qed.

Lemma planned_layout_shape_witness :
  seg_index <$> planned_layout [Example.s1; Example.s2; Example.s3]
  = LStr <$> info_paths (src_info <$> [Example.s1; Example.s2; Example.s3])
  ∧ length (planned_layout [Example.s1; Example.s2; Example.s3]) = 3
  ∧ Metadata.contiguous (planned_layout [Example.s1; Example.s2; Example.s3])
  ∧ Metadata.starts_at_zero (planned_layout [Example.s1; Example.s2; Example.s3])
  ∧ Metadata.last_stop (planned_layout [Example.s1; Example.s2; Example.s3])
    = Ok 35.
Proof.
  assert (ds_definitions_from_infos
            (src_info <$> [Example.s1; Example.s2; Example.s3])
          = Ok Example.three_defs) as Hdefs by (vm_compute; reflexivity).
  assert (("f", DsDefinition (35, [2]) (Some "float64")
                  (planned_layout [Example.s1; Example.s2; Example.s3]))
          ∈ Example.three_defs) as Hin
    by (apply list_elem_of_singleton; reflexivity).
  exact (planned_layout_shape _ _ _ _ Hdefs Hin).
Defined.

Section plan_failures.

Implicit Types (w : world) (infos : list info_row).

(** A failure of the planner is a failure of [aggregate_dbs] that leaves
    the world as it was. *)
Lemma aggregate_dbs_plan_fails target dbs mode remove_sources w infos e :
  (collect_infos dbs w).1 = Ok infos →
  ds_definitions_from_infos infos = Err e →
  ∃ e', aggregate_dbs target dbs mode remove_sources w = (Err e', w).
Proof.
  intros Hinfos He.
  assert (collect_infos dbs w = (Ok infos, w)) as Hci.
  { pose proof (collect_infos_world dbs w).
    destruct (collect_infos dbs w); simpl in *; congruence. }
  unfold aggregate_dbs. rewrite (bind_ok _ _ _ _ _ Hci).
  pose proof (collect_metadatas_world dbs w) as Hw.
  destruct (collect_metadatas dbs w) as [[md|e'] w'] eqn:Hcm; simpl in Hw; subst w'.
  - rewrite (bind_ok _ _ _ _ _ Hcm). rewrite (bind_lift_err _ _ _ _ He).
    by eexists.
  - rewrite (bind_err _ _ _ _ _ Hcm). by eexists.
Qed.

Lemma ds_definitions_lookup infos defs f :
  ds_definitions_from_infos infos = Ok defs → f ∈ info_features infos →
  ∃ d, (f, d) ∈ defs.
Proof.
  intros Hdefs Hf. apply elem_of_elements in Hf.
  rewrite <- (ds_definitions_names _ _ Hdefs) in Hf.
  apply list_elem_of_fmap in Hf as ([f' d] & -> & Hin). by exists d.
Qed.

End plan_failures.

(** X11 (aggregate_dbs, missing feature or dtype
    clash): when a feature of [infos] has no cell in some source (the
    source lacks it, or holds it as a table), or two sources hold it with
    different dtypes, [aggregate_dbs] raises and leaves the file system
    and the log as they were. *)
Theorem aggregate_dbs_needs_uniform (target : string) (dbs : list string)
    (mode : open_mode) (remove_sources : bool) (w : world)
    (infos : list info_row) (f : string) (i : nat) (ri : info_row) :
  (collect_infos dbs w).1 = Ok infos →
  f ∈ info_features infos → infos !! i = Some ri →
  cell f ri = None
  ∨ (∃ j rj fi fj,
       infos !! j = Some rj ∧ cell f ri = Some fi ∧ cell f rj = Some fj
       ∧ fi_dtype fi ≠ fi_dtype fj) →
  ∃ e, aggregate_dbs target dbs mode remove_sources w = (Err e, w).
Proof.
  intros Hinfos Hf Hi Hbad.
  destruct (ds_definitions_from_infos infos) as [defs|e] eqn:Hdefs;
    [| by eapply aggregate_dbs_plan_fails].
  exfalso. destruct (ds_definitions_lookup _ _ _ Hdefs Hf) as [d Hd].
  apply (ds_definitions_elem _ _ _ _ Hdefs) in Hd.
  apply ds_definition_of_cells in Hd as [_ Hcells].
  apply list_elem_of_lookup_2 in Hi.
  destruct (Hcells ri Hi) as (fi' & n & Hcell & Hdt & _).
  destruct Hbad as [Hnone | (j & rj & fi & fj & Hj & Hfi & Hfj & Hne)].
  - congruence.
  - apply list_elem_of_lookup_2 in Hj.
    destruct (Hcells rj Hj) as (fj' & n' & Hcell' & Hdt' & _). congruence.
Qed.

Lemma aggregate_dbs_needs_uniform_witness :
  let w := Example.built Example.mismatched_paths Example.labelled in
  ∃ e, aggregate_dbs "/out/root.h5" ["/data/s1.h5"; "/data/s2.h5"] ModeW true w
       = (Err e, w).
Proof.
  intros w.
  apply (aggregate_dbs_needs_uniform "/out/root.h5" ["/data/s1.h5"; "/data/s2.h5"]
           ModeW true w Example.labelled_infos "labels" 0
           (InfoRow "/data" "s1.wav" {["f" := Some (FeatInfo "float64" [3; 2])]})).
  - vm_compute. reflexivity.
  - apply (bool_decide_unpack _). vm_compute. exact I.
  - vm_compute. reflexivity.
  - left. reflexivity.
Defined.

(** X12 (planner and allocator composed): on the output
    of a successful plan [create_datasets_from_defs] succeeds in mode
    ["w"], provided no feature name holds a ["/"] or is ["layouts"]; the
    container then holds, for every feature, a
    zero-filled dataset of the planned shape and dtype and the persisted
    layout, and nothing else; no other file and no log line is written. *)
Theorem planned_defs_allocate (target : string) (infos : list info_row)
    (defs : list (string * ds_definition)) (w : world) :
  ds_definitions_from_infos infos = Ok defs →
  (∀ n, n ∈ info_features infos →
        Py.contains slash n = false ∧ n ≠ "layouts") →
  ∃ g,
    create_datasets_from_defs target defs ModeW w
    = (Ok (), World (<[target := g]> (files w)) (log w))
    ∧ (∀ f d, (f, d) ∈ defs →
         ∃ dt rows,
           dtype d = Some dt
           ∧ g !! f = Some (Dataset (NdArray dt (shape d).2 rows) [])
           ∧ length rows = (shape d).1
           ∧ (∀ r, r ∈ rows → ∀ x, x ∈ r → x = 0%Z)
           ∧ g !! ("layouts/" +:+ f)
             = Some (Frame (Metadata.reset_index_rename (layout d))))
    ∧ ∀ k, k ∉ defs.*1 → (∀ n, n ∈ defs.*1 → k ≠ "layouts/" +:+ n) →
           g !! k = None.
Proof.
  intros Hdefs Hplain.
  assert (∀ n n', n ∈ info_features infos → n' ∈ info_features infos →
                  n ≠ "layouts/" +:+ n') as Hclash.
  { intros n n' Hn _ ->. by destruct (Hplain _ Hn) as [[=] _]. }
  pose proof (ds_definitions_names _ _ Hdefs) as Hnames.
  assert (∀ def, def ∈ defs → is_Some (dtype def.2)) as Hdt.
  { intros [f d] Hin. apply (ds_definitions_elem _ _ _ _ Hdefs) in Hin.
    apply ds_definition_of_cells in Hin as [Hne Hcells].
    destruct infos as [|r0 rest]; [done |].
    destruct (Hcells r0) as (fi & n & _ & Hd & _); [left |]. by eexists. }
  destruct (forM_allocate target defs
              (World (<[target := ∅]> (files w)) (log w)) ∅)
    as (g & Hrun & Hlay & Hds & Hframe).
  - apply lookup_insert_eq.
  - rewrite Hnames. apply NoDup_elements.
  - done.
  - done.
  - rewrite Hnames. intros n n' Hn Hn'. apply Hclash; by apply elem_of_elements.
  - exists g. split.
    { unfold create_datasets_from_defs. erewrite bind_ok by reflexivity.
      etransitivity; [exact Hrun |]. cbn [files log].
      by rewrite insert_insert_eq. }
    split.
    + intros f d Hin. destruct (Hdt (f, d) Hin) as [dt Hd]. cbn [snd] in Hd.
      exists dt, (replicate (shape d).1 (replicate (foldr Nat.mul 1 (shape d).2) 0%Z)).
      split; [done |]. split; [by apply (Hds f d dt) |].
      split; [apply length_replicate |]. split; [| by apply Hlay].
      intros r Hr x Hx. apply elem_of_replicate in Hr as [-> _].
      by apply elem_of_replicate in Hx as [-> _].
    + intros k Hk Hk'. by rewrite Hframe.
Qed.

Lemma three_features n :
  n ∈ info_features (src_info <$> [Example.s1; Example.s2; Example.s3]) → n = "f".
Proof.
  intros Hn. apply elem_of_elements in Hn. vm_compute in Hn.
  by apply list_elem_of_singleton in Hn.
Defined.

Lemma planned_defs_allocate_witness :
  ∃ g,
    create_datasets_from_defs "/out/root.h5" Example.three_defs ModeW
      Example.empty_world
    = (Ok (), World {["/out/root.h5" := g]} [])
    ∧ (∀ f d, (f, d) ∈ Example.three_defs →
         ∃ dt rows,
           dtype d = Some dt
           ∧ g !! f = Some (Dataset (NdArray dt (shape d).2 rows) [])
           ∧ length rows = (shape d).1
           ∧ (∀ r, r ∈ rows → ∀ x, x ∈ r → x = 0%Z)
           ∧ g !! ("layouts/" +:+ f)
             = Some (Frame (Metadata.reset_index_rename (layout d))))
    ∧ ∀ k, k ∉ Example.three_defs.*1 →
           (∀ n, n ∈ Example.three_defs.*1 → k ≠ "layouts/" +:+ n) →
           g !! k = None.
Proof.
  apply (planned_defs_allocate "/out/root.h5"
           (src_info <$> [Example.s1; Example.s2; Example.s3])
           Example.three_defs Example.empty_world).
  - vm_compute. reflexivity.
  - intros n Hn. apply three_features in Hn. subst. by split.
Defined.

(** ** Inverting a run of the monad *)

Section inversion.

Context {A B : Type}.

Lemma bind_Ok_inv (c : M A) (k : A → M B) w b w' :
  bind c k w = (Ok b, w') → ∃ a w1, c w = (Ok a, w1) ∧ k a w1 = (Ok b, w').
Proof.
  unfold bind. destruct (c w) as [[a|e] w1]; [| done]. intros H. by exists a, w1.
Qed.

Lemma bind_Err_inv (c : M A) (k : A → M B) w e w' :
  bind c k w = (Err e, w') →
  c w = (Err e, w') ∨ ∃ a w1, c w = (Ok a, w1) ∧ k a w1 = (Err e, w').
Proof.
  unfold bind. destruct (c w) as [[a|e1] w1]; simpl; intros H.
  - right. by exists a, w1.
  - left. by injection H as -> ->.
Qed.

End inversion.

(** ** The scatter step *)

Section scatter.

Implicit Types (w : world) (rows : list row) (indices : nat * nat).

Lemma h5_read_inv path w r w' :
  h5_read path w = (r, w') →
  w' = w ∧ match r with
           | Ok f => files w !! path = Some f
           | Err e => files w !! path = None ∧ e = OSError path
           end.
Proof.
  unfold h5_read. destruct (files w !! path) as [f|]; intros [= <- <-]; done.
Qed.

Lemma read_dataset_Ok path key w a w' :
  read_dataset path key w = (Ok a, w') →
  w' = w ∧ ∃ f attrs, files w !! path = Some f ∧ f !! key = Some (Dataset a attrs).
Proof.
  unfold read_dataset, read_key. intros H.
  apply bind_Ok_inv in H as (n & w1 & H & Hn).
  apply bind_Ok_inv in H as (f & w2 & Hf & H).
  apply h5_read_inv in Hf as [-> Hf].
  destruct (f !! key) as [n'|] eqn:Hkey; [| done].
  assert (n' = n ∧ w = w1) as [-> <-] by (by injection H).
  destruct n as [a' attrs | |]; [| done..].
  assert (a' = a ∧ w = w') as [-> <-] by (by injection Hn).
  split; [done |]. by exists f, attrs.
Qed.

(** What a slice assignment leaves in the rows. *)
Lemma write_rows_Some indices (data : list row) rows rows' :
  write_rows indices data rows = Some rows' →
  length rows' = length rows
  ∧ ∀ j, rows' !! j
         = if decide (indices.1 `min` (indices.2 `min` length rows) ≤ j
                      < indices.2 `min` length rows)
           then data !! (j - indices.1 `min` (indices.2 `min` length rows))
           else rows !! j.
Proof.
  unfold write_rows.
  set (stop' := indices.2 `min` length rows).
  set (start' := indices.1 `min` stop').
  case_decide as Hlen; [| done]. intros [= <-].
  assert (start' ≤ stop' ≤ length rows) as Hb by (unfold start', stop'; lia).
  split.
  - rewrite !length_app, length_take, length_drop. lia.
  - intros j. destruct (decide (j < start')) as [Hj | Hj].
    + rewrite lookup_app_l by (rewrite length_take; lia).
      rewrite lookup_take_lt by done. by rewrite decide_False by lia.
    + rewrite lookup_app_r by (rewrite length_take; lia).
      rewrite length_take, Nat.min_l by lia.
      destruct (decide (j < stop')) as [Hjs | Hjs].
      * rewrite lookup_app_l by lia. by rewrite decide_True by lia.
      * rewrite lookup_app_r by lia. rewrite lookup_drop.
        rewrite decide_False by lia. f_equal. lia.
Qed.

Lemma write_range_Ok path key indices data w w' :
  write_range path key indices data w = (Ok (), w') →
  ∃ f a attrs rows',
    files w !! path = Some f ∧ f !! key = Some (Dataset a attrs)
    ∧ nd_dims data = nd_dims a
    ∧ write_rows indices (nd_rows data) (nd_rows a) = Some rows'
    ∧ w' = World (<[path := <[key := Dataset (NdArray (nd_dtype a) (nd_dims a) rows')
                                       attrs]> f]> (files w)) (log w).
Proof.
  unfold write_range. intros H.
  apply bind_Ok_inv in H as (f & w1 & Hf & H).
  apply h5_read_inv in Hf as [-> Hf].
  destruct (f !! key) as [[a attrs | |]|] eqn:Hkey; [| done..].
  case_decide as Hdims; [| done].
  destruct (write_rows _ _ _) as [rows'|] eqn:Hrows; [| done].
  injection H as <-. by exists f, a, attrs, rows'.
Qed.

Lemma write_range_run path key indices data w f a attrs rows' :
  files w !! path = Some f → f !! key = Some (Dataset a attrs) →
  nd_dims data = nd_dims a →
  write_rows indices (nd_rows data) (nd_rows a) = Some rows' →
  write_range path key indices data w
  = (Ok (), World (<[path := <[key := Dataset (NdArray (nd_dtype a) (nd_dims a) rows')
                                       attrs]> f]> (files w)) (log w)).
Proof.
  intros Hf Hkey Hdims Hrows. unfold write_range.
  rewrite (bind_ok _ _ _ _ _ (h5_read_ok _ _ _ Hf)). rewrite Hkey.
  rewrite decide_True by done. by rewrite Hrows.
Qed.

Lemma write_range_Err path key indices data w e w' :
  write_range path key indices data w = (Err e, w') → w' = w.
Proof.
  unfold write_range, bind, h5_read.
  destruct (files w !! path) as [f|]; [| by intros [= _ <-]].
  destruct (f !! key) as [[a attrs | |]|]; try by intros [= _ <-].
  case_decide; [| by intros [= _ <-]].
  destruct (write_rows _ _ _); [done | by intros [= _ <-]].
Qed.

Lemma read_dataset_world path key w : (read_dataset path key w).2 = w.
Proof.
  unfold read_dataset, bind. pose proof (read_key_world path key w) as H.
  destruct (read_key path key w) as [[n|e] w']; simpl in H; subst; [| done].
  by destruct n.
Qed.

Lemma integrate_Ok target source key indices w w' :
  integrate (target, source, key, indices) w = (Ok (), w') →
  ∃ src gs data attrs_s gt a attrs rows',
    source = LStr src
    ∧ files w !! src = Some gs ∧ gs !! key = Some (Dataset data attrs_s)
    ∧ files w !! target = Some gt ∧ gt !! key = Some (Dataset a attrs)
    ∧ nd_dims data = nd_dims a
    ∧ write_rows indices (nd_rows data) (nd_rows a) = Some rows'
    ∧ w' = World (<[target := <[key := Dataset (NdArray (nd_dtype a) (nd_dims a) rows')
                                         attrs]> gt]> (files w)) (log w).
Proof.
  unfold integrate. destruct source as [i | src]; [done |]. intros H.
  apply bind_Ok_inv in H as (data & w1 & Hread & H).
  apply read_dataset_Ok in Hread as [-> (gs & attrs_s & Hgs & Hdata)].
  apply write_range_Ok in H as (gt & a & attrs & rows' & Hgt & Ha & Hdims & Hrows & ->).
  by exists src, gs, data, attrs_s, gt, a, attrs, rows'.
Qed.

Lemma integrate_run target src key indices w gs data attrs_s gt a attrs rows' :
  files w !! src = Some gs → gs !! key = Some (Dataset data attrs_s) →
  files w !! target = Some gt → gt !! key = Some (Dataset a attrs) →
  nd_dims data = nd_dims a →
  write_rows indices (nd_rows data) (nd_rows a) = Some rows' →
  integrate (target, LStr src, key, indices) w
  = (Ok (), World (<[target := <[key := Dataset (NdArray (nd_dtype a) (nd_dims a) rows')
                                         attrs]> gt]> (files w)) (log w)).
Proof.
  intros Hgs Hdata Hgt Ha Hdims Hrows. unfold integrate.
  rewrite (bind_ok _ _ _ _ _ (read_dataset_ok _ _ _ _ _ _ Hgs Hdata)).
  by apply write_range_run.
Qed.

Lemma integrate_Err arg w e w' : integrate arg w = (Err e, w') → w' = w.
Proof.
  destruct arg as [[[target source] key] indices]. unfold integrate.
  destruct source as [i | src]; [by intros [= _ <-] |].
  intros [H | (data & w1 & Hread & H)]%bind_Err_inv.
  - pose proof (read_dataset_world src key w) as Hw. by rewrite H in Hw.
  - pose proof (read_dataset_world src key w) as Hw. rewrite Hread in Hw.
    simpl in Hw. subst w1. by apply write_range_Err in H.
Qed.

(** Two slice assignments into disjoint ranges commute. *)
Lemma write_rows_commute i1 i2 d1 d2 rows r1 r12 :
  i1.2 ≤ i2.1 ∨ i2.2 ≤ i1.1 →
  write_rows i1 d1 rows = Some r1 → write_rows i2 d2 r1 = Some r12 →
  ∃ r2, write_rows i2 d2 rows = Some r2 ∧ write_rows i1 d1 r2 = Some r12.
Proof.
  intros Hdisj H1 H12.
  destruct (write_rows_Some _ _ _ _ H1) as [Hlen1 Hlook1].
  destruct (write_rows_Some _ _ _ _ H12) as [Hlen12 Hlook12].
  assert (∃ r2, write_rows i2 d2 rows = Some r2) as [r2 H2].
  { revert H12. unfold write_rows. rewrite Hlen1.
    case_decide; [| done]. by eexists. }
  destruct (write_rows_Some _ _ _ _ H2) as [Hlen2 Hlook2].
  assert (∃ r21, write_rows i1 d1 r2 = Some r21) as [r21 H21].
  { revert H1. unfold write_rows. rewrite Hlen2.
    case_decide; [| done]. by eexists. }
  destruct (write_rows_Some _ _ _ _ H21) as [Hlen21 Hlook21].
  exists r2. split; [done |]. rewrite H21. f_equal.
  apply list_eq. intros j. rewrite Hlook21, Hlook12, Hlook1, Hlook2.
  rewrite Hlen1, Hlen2.
  repeat case_decide; try done; lia.
Qed.

End scatter.

(** X13 (integrate, the rows written): when the source store
    holds [data] under [key], the target holds a dataset of the same
    non-leading dimensions under [key], and the range lies within the
    target and is as long as [data], [integrate] succeeds; the target
    dataset keeps its length, dtype and attributes, its rows within the
    range are the rows of [data] in order, and its rows outside the range
    are unchanged. *)
Theorem integrate_writes (target source key : string) (start stop : nat)
    (w : world) (gs gt : gmap string node) (data a : ndarray)
    (attrs_s attrs : attributes) :
  files w !! source = Some gs → gs !! key = Some (Dataset data attrs_s) →
  files w !! target = Some gt → gt !! key = Some (Dataset a attrs) →
  nd_dims data = nd_dims a →
  start ≤ stop ≤ length (nd_rows a) →
  length (nd_rows data) = stop - start →
  ∃ rows',
    integrate (target, LStr source, key, (start, stop)) w
    = (Ok (),
       World (<[target := <[key := Dataset (NdArray (nd_dtype a) (nd_dims a) rows')
                                     attrs]> gt]> (files w)) (log w))
    ∧ length rows' = length (nd_rows a)
    ∧ (∀ j, start ≤ j < stop → rows' !! j = nd_rows data !! (j - start))
    ∧ (∀ j, ¬ (start ≤ j < stop) → rows' !! j = nd_rows a !! j).
Proof.
  intros Hgs Hdata Hgt Ha Hdims Hbounds Hlen.
  destruct (write_rows (start, stop) (nd_rows data) (nd_rows a)) as [rows'|] eqn:Hrows.
  - exists rows'. split; [by eapply integrate_run |].
    destruct (write_rows_Some _ _ _ _ Hrows) as [Hlen' Hlook]. cbn [fst snd] in Hlook.
    rewrite (Nat.min_l stop), (Nat.min_l start) in Hlook by lia.
    split; [done |]. split; intros j Hj; rewrite Hlook.
    + by rewrite decide_True.
    + by rewrite decide_False.
  - exfalso. revert Hrows. unfold write_rows. cbn [fst snd].
    rewrite (Nat.min_l stop), (Nat.min_l start) by lia. by rewrite decide_True.
Qed.

Lemma integrate_writes_witness :
  ∃ rows',
    (integrate ("/out/root.h5", LStr "/data/s2.h5", "f", (10, 30))
       Example.allocated).1 = Ok ()
    ∧ length rows' = 35
    ∧ (∀ j, 10 ≤ j < 30 → rows' !! j = src_rows Example.s2 !! (j - 10))
    ∧ (∀ j, ¬ (10 ≤ j < 30) → rows' !! j = replicate 35 [0; 0]%Z !! j).
Proof.
  destruct (integrate_writes "/out/root.h5" "/data/s2.h5" "f" 10 30
              Example.allocated
              (store_of "/data/s2.wav" (extraction Example.s2))
              (<["layouts/f" := Frame (persisted_layout [Example.s1; Example.s2; Example.s3])]>
                 (<["f" := Dataset (empty_array (35, [2]) "float64") []]> ∅))
              (src_data Example.s2) (empty_array (35, [2]) "float64") [] [])
    as (rows' & Hrun & Hlen & Hin & Hout).
  - vm_compute. reflexivity.
  - reflexivity.
  - vm_compute. reflexivity.
  - reflexivity.
  - reflexivity.
  - vm_compute. lia.
  - reflexivity.
  - exists rows'. split; [by rewrite Hrun |]. split; [exact Hlen |].
    split; [exact Hin | exact Hout].
Defined.



(** X15 (integrate, order of the scatter): two
    calls that copy from stores other than the target into different
    datasets, or into disjoint ranges of one dataset, can be swapped: when
    they succeed in one order they succeed in the other, with the same
    final file system and log. *)
Theorem integrate_disjoint_commute (target k1 k2 : string) (s1 s2 : label)
    (i1 i2 : nat * nat) (w w' : world) :
  s1 ≠ LStr target → s2 ≠ LStr target →
  k1 ≠ k2 ∨ i1.2 ≤ i2.1 ∨ i2.2 ≤ i1.1 →
  bind (integrate (target, s1, k1, i1)) (λ _, integrate (target, s2, k2, i2)) w
  = (Ok (), w') →
  bind (integrate (target, s2, k2, i2)) (λ _, integrate (target, s1, k1, i1)) w
  = (Ok (), w').
Proof.
  intros Hs1 Hs2 Hdisj Hrun.
  apply bind_Ok_inv in Hrun as ([] & w1 & Hrun1 & Hrun2).
  apply integrate_Ok in Hrun1
    as (src1 & gs1 & d1 & as1 & gt & a & attrs & r1 & -> & Hgs1 & Hd1 & Hgt & Ha
        & Hdims1 & Hrows1 & ->).
  apply integrate_Ok in Hrun2
    as (src2 & gs2 & d2 & as2 & gt' & a' & attrs' & r12 & -> & Hgs2 & Hd2 & Hgt' & Ha'
        & Hdims2 & Hrows2 & ->).
  cbn [files log] in *.
  assert (src1 ≠ target) as Hne1 by congruence.
  assert (src2 ≠ target) as Hne2 by congruence.
  rewrite lookup_insert_ne in Hgs2 by done.
  rewrite lookup_insert_eq in Hgt'. injection Hgt' as <-.
  rewrite insert_insert_eq.
  destruct (decide (k1 = k2)) as [<- | Hk].
  - rewrite lookup_insert_eq in Ha'. injection Ha' as <- <-.
    cbn [nd_rows nd_dims nd_dtype] in *.
    destruct (write_rows_commute i1 i2 (nd_rows d1) (nd_rows d2) (nd_rows a) r1 r12)
      as (r2 & Hr2 & Hr21); [by destruct Hdisj | done | done |].
    rewrite (bind_ok _ _ _ _ _
               (integrate_run target src2 k1 i2 w gs2 d2 as2 gt a attrs r2
                  Hgs2 Hd2 Hgt Ha Hdims2 Hr2)).
    erewrite integrate_run; [| cbn [files]; by rewrite lookup_insert_ne
                              | done | cbn [files]; apply lookup_insert_eq
                              | apply lookup_insert_eq | done | exact Hr21].
    cbn [files log nd_dtype nd_dims]. by rewrite !insert_insert_eq.
  - rewrite lookup_insert_ne in Ha' by done.
    rewrite (bind_ok _ _ _ _ _
               (integrate_run target src2 k2 i2 w gs2 d2 as2 gt a' attrs' r12
                  Hgs2 Hd2 Hgt Ha' Hdims2 Hrows2)).
    erewrite integrate_run; [| cbn [files]; by rewrite lookup_insert_ne
                              | done | cbn [files]; apply lookup_insert_eq
                              | by rewrite lookup_insert_ne | done | exact Hrows1].
    cbn [files log]. rewrite !insert_insert_eq.
    by rewrite (insert_insert_ne gt k1 k2).
Qed.

Lemma integrate_disjoint_commute_witness :
  let a1 := ("/out/root.h5", LStr "/data/s1.h5", "f", (0, 10)) in
  let a2 := ("/out/root.h5", LStr "/data/s2.h5", "f", (10, 30)) in
  bind (integrate a2) (λ _, integrate a1) Example.allocated
  = (Ok (), (bind (integrate a1) (λ _, integrate a2) Example.allocated).2).
Proof.
  intros a1 a2.
  apply (integrate_disjoint_commute "/out/root.h5" "f" "f" (LStr "/data/s1.h5")
           (LStr "/data/s2.h5") (0, 10) (10, 30) Example.allocated).
  - discriminate.
  - discriminate.
  - right. left. reflexivity.
  - vm_compute. reflexivity.
Defined.

(** ** The arguments of the scatter step *)

Section integration_args.

Implicit Types (w : world) (g : gmap string node).

Lemma strip_prefix_app (p s : string) : Py.strip_prefix p (p +:+ s) = Some s.
Proof.
  induction p as [|a p IH]; [done |].
  rewrite app_cons. cbn [Py.strip_prefix]. by rewrite decide_True.
Qed.

Lemma strip_prefix_Some (p k s : string) :
  Py.strip_prefix p k = Some s → k = p +:+ s.
Proof.
  revert k. induction p as [|a p IH]; intros k.
  - by intros [= ->].
  - destruct k as [|b k]; [done |]. cbn [Py.strip_prefix].
    case_decide as Hab; [| done]. subst b. intros Hk.
    by rewrite (IH _ Hk).
Qed.

Lemma layouts_keys_Ok g feats feature :
  layouts_keys g = Ok feats →
  (feature ∈ feats ↔ is_Some (g !! ("layouts/" +:+ feature))).
Proof.
  unfold layouts_keys.
  destruct (omap _ _) as [|n names] eqn:Hnames; [done |]. intros [= <-].
  rewrite <- Hnames. rewrite list_elem_of_omap. split.
  - intros (k & Hk & Hstrip). apply elem_of_elements, elem_of_dom in Hk.
    apply strip_prefix_Some in Hstrip. by subst k.
  - intros Hsome. exists ("layouts/" +:+ feature). split.
    + by apply elem_of_elements, elem_of_dom.
    + apply strip_prefix_app.
Qed.

Lemma read_hdf_Ok path key w m w' :
  read_hdf path key w = (Ok m, w') →
  w' = w ∧ ∃ g, files w !! path = Some g ∧ g !! key = Some (Frame m).
Proof.
  unfold read_hdf, read_key. intros H.
  apply bind_Ok_inv in H as (n & w1 & H & Hn).
  apply bind_Ok_inv in H as (g & w2 & Hg & H).
  apply h5_read_inv in Hg as [-> Hg].
  destruct (g !! key) as [n'|] eqn:Hkey; [| done].
  assert (n' = n ∧ w = w1) as [-> <-] by (by injection H).
  destruct n as [| m' |]; [done | | done].
  assert (m' = m ∧ w = w') as [-> <-] by (by injection Hn).
  split; [done |]. by exists g.
Qed.

Lemma elem_of_concat_inv {A} (x : A) (ls : list (list A)) :
  x ∈ concat ls → ∃ l, l ∈ ls ∧ x ∈ l.
Proof.
  induction ls as [|l ls IH]; simpl.
  - by intros ?%elem_of_nil.
  - intros [Hx | Hx]%elem_of_app.
    + exists l. split; [left | done].
    + destruct (IH Hx) as (l' & Hl' & Hx'). exists l'. split; [by right | done].
Qed.

Lemma forM_Ok_inv {A B} (body : A → M B) (l : list A) :
  (∀ x w, (body x w).2 = w) →
  ∀ w ys w',
    forM body l w = (Ok ys, w') →
    w' = w ∧ Forall2 (λ x y, body x w = (Ok y, w)) l ys.
Proof.
  intros Hbody. induction l as [|x l IH]; intros w ys w'.
  - intros [= <- <-]. split; [done | constructor].
  - cbn [forM]. intros H.
    apply bind_Ok_inv in H as (y & w1 & Hx & H).
    apply bind_Ok_inv in H as (ys' & w2 & Hl & H).
    pose proof (Hbody x w) as Hw. rewrite Hx in Hw. simpl in Hw. subst w1.
    apply IH in Hl as [-> Hl]. injection H as <- <-.
    split; [done |]. by constructor.
Qed.

Lemma name_column_Ok (m : list Segment) names :
  Metadata.name_column m = Ok names →
  Forall2 (λ s l, seg_name s = Some l) m names.
Proof.
  unfold Metadata.name_column. intros H. apply mapM_result_Forall2 in H.
  eapply Forall2_impl; [exact H |]. intros s l Hs. simpl in Hs.
  destruct (seg_name s); [| done]. by injection Hs as ->.
Qed.

Lemma layout_args_world target feature w :
  (bind (read_hdf target ("layouts/" +:+ feature))
     (λ df, bind (lift (Metadata.name_column df))
              (λ names,
                 ret (zip_with (λ source indices, (target, source, feature, indices))
                        names (Metadata.slices df)))) w).2 = w.
Proof.
  unfold bind at 1. pose proof (read_hdf_world target ("layouts/" +:+ feature) w) as H.
  destruct (read_hdf _ _ w) as [[m|e] w1]; simpl in H; subst w1; [| done].
  unfold bind, lift. by destruct (Metadata.name_column m).
Qed.

Lemma make_integration_args_world target w :
  (make_integration_args target w).2 = w.
Proof.
  unfold make_integration_args. unfold bind at 1, h5_read.
  destruct (files w !! target) as [g|]; [| done].
  unfold bind at 1, lift. destruct (layouts_keys g) as [feats|e]; [| done].
  unfold bind at 1.
  match goal with |- context [forM ?body feats w] =>
    pose proof (forM_world body feats (layout_args_world target) w) as H;
    destruct (forM body feats w) as [[args|e] w1]
  end; simpl in H; by subst w1.
Qed.

(** The arguments of the scatter step are the segments of the persisted
    layouts, no more and no less. *)
Lemma make_integration_args_Ok target w args w' :
  make_integration_args target w = (Ok args, w') →
  ∃ g,
    files w !! target = Some g
    ∧ (∀ arg, arg ∈ args →
         arg.1.1.1 = target
         ∧ ∃ m s, g !! ("layouts/" +:+ arg.1.2) = Some (Frame m) ∧ s ∈ m
                  ∧ seg_name s = Some arg.1.1.2 ∧ arg.2 = (start s, stop s))
    ∧ (∀ feature m s,
         g !! ("layouts/" +:+ feature) = Some (Frame m) → s ∈ m →
         ∃ source, seg_name s = Some source
                   ∧ (target, source, feature, (start s, stop s)) ∈ args).
Proof.
  unfold make_integration_args. intros H.
  apply bind_Ok_inv in H as (g & w1 & Hg & H).
  apply h5_read_inv in Hg as [-> Hg].
  apply bind_Ok_inv in H as (feats & w1 & Hfeats & H).
  assert (layouts_keys g = Ok feats ∧ w1 = w) as [Hkeys ->]
    by (unfold lift in Hfeats; by injection Hfeats as -> ->).
  apply bind_Ok_inv in H as (argss & w1 & Hloop & H).
  apply forM_Ok_inv in Hloop as [-> Hloop]; [| apply layout_args_world].
  injection H as <- _. exists g. split; [done |].
  assert (∀ feature ys,
            bind (read_hdf target ("layouts/" +:+ feature))
              (λ df, bind (lift (Metadata.name_column df))
                       (λ names,
                          ret (zip_with (λ source indices, (target, source, feature, indices))
                                 names (Metadata.slices df)))) w = (Ok ys, w) →
            ∃ m names,
              g !! ("layouts/" +:+ feature) = Some (Frame m)
              ∧ Forall2 (λ s l, seg_name s = Some l) m names
              ∧ ys = zip_with (λ source indices, (target, source, feature, indices))
                       names (Metadata.slices m)) as Hbody.
  { intros feature ys Hys.
    apply bind_Ok_inv in Hys as (m & w1 & Hm & Hys).
    apply read_hdf_Ok in Hm as [-> (g' & Hg' & Hm)].
    assert (g' = g) as -> by congruence.
    apply bind_Ok_inv in Hys as (names & w1 & Hnames & Hys).
    assert (Metadata.name_column m = Ok names ∧ w1 = w) as [Hcol ->]
      by (unfold lift in Hnames; by injection Hnames as -> ->).
    injection Hys as <-. exists m, names.
    split; [done |]. split; [by apply name_column_Ok | done]. }
  split.
  - intros arg (ys & Hys & Harg)%elem_of_concat_inv.
    apply list_elem_of_lookup in Hys as [k Hk].
    destruct (Forall2_lookup_r _ _ _ _ _ Hloop Hk) as (feature & _ & Hrun).
    apply Hbody in Hrun as (m & names & Hm & Hnames & ->).
    apply list_elem_of_lookup in Harg as [j Hj].
    apply lookup_zip_with_Some in Hj as (source & indices & -> & Hsource & Hindices).
    cbn [fst snd]. split; [done |].
    unfold Metadata.slices in Hindices.
    apply list_lookup_fmap_Some in Hindices as (s & -> & Hs).
    exists m, s. split; [done |]. split; [by eapply list_elem_of_lookup_2 |].
    split; [| done].
    destruct (Forall2_lookup_l _ _ _ _ _ Hnames Hs) as (l & Hl & Hname).
    congruence.
  - intros feature m s Hm Hs.
    assert (feature ∈ feats) as Hfeat.
    { apply (layouts_keys_Ok g feats feature Hkeys). by eexists. }
    apply list_elem_of_lookup in Hfeat as [k Hk].
    destruct (Forall2_lookup_l _ _ _ _ _ Hloop Hk) as (ys & Hys & Hrun).
    apply Hbody in Hrun as (m' & names & Hm' & Hnames & ->).
    assert (m' = m) as -> by congruence.
    apply list_elem_of_lookup in Hs as [j Hj].
    destruct (Forall2_lookup_l _ _ _ _ _ Hnames Hj) as (source & Hsource & Hname).
    exists source. split; [done |].
    eapply elem_of_concat; [| by eapply list_elem_of_lookup_2].
    apply list_elem_of_lookup. exists j.
    apply lookup_zip_with_Some. exists source, (start s, stop s).
    split; [done |]. split; [done |].
    unfold Metadata.slices. by rewrite list_lookup_fmap, Hj.
Qed.

End integration_args.

(** X16 (make_integration_args): the function
    only reads; when it succeeds, every argument it returns names the
    target, a feature with a persisted layout, and the name and bounds of
    one segment of that layout, and every segment of every persisted
    layout of the target gives one of the arguments. *)
Theorem make_integration_args_layouts (target : string) (w : world) :
  (make_integration_args target w).2 = w
  ∧ ∀ args,
      (make_integration_args target w).1 = Ok args →
      ∃ g,
        files w !! target = Some g
        ∧ (∀ t source feature indices,
             (t, source, feature, indices) ∈ args →
             t = target
             ∧ ∃ m s, g !! ("layouts/" +:+ feature) = Some (Frame m) ∧ s ∈ m
                      ∧ seg_name s = Some source ∧ indices = (start s, stop s))
        ∧ (∀ feature m s,
             g !! ("layouts/" +:+ feature) = Some (Frame m) → s ∈ m →
             ∃ source, seg_name s = Some source
                       ∧ (target, source, feature, (start s, stop s)) ∈ args).
Proof.
  split; [apply make_integration_args_world |]. intros args Hargs.
  pose proof (make_integration_args_world target w) as Hw.
  destruct (make_integration_args target w) as [r w'] eqn:Hrun.
  simpl in Hargs, Hw. subst r w'.
  destruct (make_integration_args_Ok _ _ _ _ Hrun) as (g & Hg & Hsound & Hcomplete).
  exists g. split; [done |]. split; [| done].
  intros t source feature indices Hin. apply (Hsound _ Hin).
Qed.

Lemma make_integration_args_layouts_witness :
  ∃ g,
    files Example.allocated !! "/out/root.h5" = Some g
    ∧ (∀ t source feature indices,
         (t, source, feature, indices)
         ∈ [("/out/root.h5", LStr "/data/s1.h5", "f", (0, 10));
            ("/out/root.h5", LStr "/data/s2.h5", "f", (10, 30));
            ("/out/root.h5", LStr "/data/s3.h5", "f", (30, 35))] →
         t = "/out/root.h5"
         ∧ ∃ m s, g !! ("layouts/" +:+ feature) = Some (Frame m) ∧ s ∈ m
                  ∧ seg_name s = Some source ∧ indices = (start s, stop s))
    ∧ (∀ feature m s,
         g !! ("layouts/" +:+ feature) = Some (Frame m) → s ∈ m →
         ∃ source, seg_name s = Some source
                   ∧ (("/out/root.h5", source, feature, (start s, stop s))
                      ∈ [("/out/root.h5", LStr "/data/s1.h5", "f", (0, 10));
                         ("/out/root.h5", LStr "/data/s2.h5", "f", (10, 30));
                         ("/out/root.h5", LStr "/data/s3.h5", "f", (30, 35))])).
Proof.
  apply (proj2 (make_integration_args_layouts "/out/root.h5" Example.allocated)).
  vm_compute. reflexivity.
Defined.

(** ** Footprints of the aggregation *)

Section footprints.

Implicit Types (w : world) (paths : list string).

Lemma touches_unchanged {A} paths (c : M A) :
  (∀ w, (c w).2 = w) → touches paths c.
Proof. intros Hc w. by rewrite Hc. Qed.

Lemma touches_weaken {A} paths paths' (c : M A) :
  (∀ p, p ∈ paths → p ∈ paths') → touches paths c → touches paths' c.
Proof.
  intros Hsub Hc w. destruct (Hc w) as [Hlog Hfiles]. split; [done |].
  intros path Hpath. apply Hfiles. intros Hin. by apply Hpath, Hsub.
Qed.

Lemma touches_bind {A B} paths (c : M A) (k : A → M B) :
  touches paths c →
  (∀ a w w1, c w = (Ok a, w1) → touches paths (k a)) →
  touches paths (bind c k).
Proof.
  intros Hc Hk w. unfold bind. destruct (Hc w) as [Hlog Hfiles].
  destruct (c w) as [[a|e] w1] eqn:Hcw; simpl in *; [| done].
  destruct (Hk a w w1 Hcw w1) as [Hlog' Hfiles'].
  split; [congruence |]. intros path Hpath.
  rewrite Hfiles' by done. by apply Hfiles.
Qed.

Lemma touches_forM_ {A} paths (body : A → M unit) (l : list A) :
  (∀ x, x ∈ l → touches paths (body x)) → touches paths (forM_ body l).
Proof.
  induction l as [|x l IH]; intros Hbody.
  - by apply touches_unchanged.
  - intros w. rewrite forM__cons. revert w. apply touches_bind.
    + apply Hbody. left.
    + intros _ _ _ _. apply IH. intros y Hy. apply Hbody. by right.
Qed.

Lemma touches_h5_open path mode : touches [path] (h5_open path mode).
Proof.
  intros w. unfold h5_open. destruct mode.
  - split; [done |]. intros p Hp. cbn [snd set_files files].
    rewrite lookup_insert_ne; [done |]. intros ->. apply Hp. left.
  - by destruct (files w !! path).
Qed.

Lemma touches_to_hdf path key n : touches [path] (to_hdf path key n).
Proof.
  intros w. unfold to_hdf, bind, h5_read.
  destruct (files w !! path) as [f|]; [| done].
  split; [done |]. intros p Hp. cbn [snd set_files files].
  rewrite lookup_insert_ne; [done |]. intros ->. apply Hp. left.
Qed.

Lemma touches_create_dataset path key a attrs :
  touches [path] (create_dataset path key a attrs).
Proof.
  intros w. unfold create_dataset, bind, h5_read.
  destruct (files w !! path) as [f|]; [| done].
  destruct (f !! key); [done |].
  split; [done |]. intros p Hp. cbn [snd set_files files].
  rewrite lookup_insert_ne; [done |]. intros ->. apply Hp. left.
Qed.

Lemma touches_os_remove path : touches [path] (os_remove path).
Proof.
  intros w. unfold os_remove. destruct (files w !! path); [| done].
  split; [done |]. intros p Hp. cbn [snd set_files files].
  rewrite lookup_delete_ne; [done |]. intros ->. apply Hp. left.
Qed.

Lemma touches_integrate arg : touches [arg.1.1.1] (integrate arg).
Proof.
  intros w. destruct (integrate arg w) as [[[]|e] w'] eqn:Hrun.
  - destruct arg as [[[target source] key] indices].
    apply integrate_Ok in Hrun as (? & ? & ? & ? & ? & ? & ? & ? & _ & _ & _ & _ & _ & _ & _ & ->).
    split; [done |]. intros p Hp. cbn [snd files fst] in *.
    rewrite lookup_insert_ne; [done |]. intros ->. apply Hp. left.
  - apply integrate_Err in Hrun. by subst w'.
Qed.

Lemma touches_allocate target def : touches [target] (allocate target def).
Proof.
  unfold allocate. apply touches_bind.
  - apply touches_unchanged. intros w. by destruct (dtype def.2).
  - intros dt _ _ _. apply touches_bind.
    + apply touches_create_dataset.
    + intros _ _ _ _. apply touches_to_hdf.
Qed.

Lemma touches_create_datasets_from_defs target defs mode :
  touches [target] (create_datasets_from_defs target defs mode).
Proof.
  unfold create_datasets_from_defs. apply touches_bind.
  - apply touches_h5_open.
  - intros _ _ _ _. apply touches_forM_. intros def _. apply touches_allocate.
Qed.

Lemma touches_aggregate_dbs target dbs mode (remove_sources : bool) :
  touches (target :: if remove_sources then dbs else [])
    (aggregate_dbs target dbs mode remove_sources).
Proof.
  assert (∀ A (c : M A), touches [target] c →
            touches (target :: if remove_sources then dbs else []) c) as Htarget.
  { intros A c. apply touches_weaken.
    intros p ->%list_elem_of_singleton. left. }
  unfold aggregate_dbs. apply touches_bind.
  { apply touches_unchanged, collect_infos_world. }
  intros infos _ _ _. apply touches_bind.
  { apply touches_unchanged, collect_metadatas_world. }
  intros md _ _ _. apply touches_bind.
  { by apply touches_unchanged. }
  intros defs _ _ _. apply touches_bind.
  { apply Htarget, touches_create_datasets_from_defs. }
  intros _ _ _ _. apply touches_bind.
  { apply touches_unchanged, make_integration_args_world. }
  intros args w w1 Hargs. apply touches_bind.
  { apply Htarget, touches_forM_. intros arg Harg.
    apply make_integration_args_Ok in Hargs as (g & _ & Hsound & _).
    destruct (Hsound arg Harg) as [<- _]. apply touches_integrate. }
  intros _ _ _ _. apply touches_bind.
  { destruct remove_sources; [| by apply touches_unchanged].
    apply touches_forM_. intros db Hdb. eapply touches_weaken; [| apply touches_os_remove].
    intros p ->%list_elem_of_singleton. by right. }
  intros _ _ _ _. apply touches_bind.
  { apply Htarget, touches_to_hdf. }
  intros _ _ _ _. apply Htarget, touches_to_hdf.
Qed.

(** The removal loop of line 244 succeeds only on distinct, existing
    paths, all of which are gone afterwards. *)
Lemma remove_all_Ok paths :
  ∀ w w',
    forM_ os_remove paths w = (Ok (), w') →
    NoDup paths
    ∧ (∀ p, p ∈ paths → is_Some (files w !! p))
    ∧ (∀ p, p ∈ paths → files w' !! p = None).
Proof.
  induction paths as [|p paths IH]; intros w w' Hrun.
  - split; [constructor |]. split; intros p Hp; by apply elem_of_nil in Hp.
  - rewrite forM__cons in Hrun.
    apply bind_Ok_inv in Hrun as ([] & w1 & Hp & Hrun).
    unfold os_remove in Hp. destruct (files w !! p) as [f|] eqn:Hf; [| done].
    injection Hp as <-.
    destruct (touches_forM_ (A := string) paths os_remove paths) with (w := set_files (delete p) w)
      as [_ Hframe].
    { intros q Hq. eapply touches_weaken; [| apply touches_os_remove].
      by intros ? ->%list_elem_of_singleton. }
    rewrite Hrun in Hframe. cbn [snd] in Hframe.
    apply IH in Hrun as (Hnd & Hex & Hgone).
    assert (p ∉ paths) as Hnotin.
    { intros Hin. destruct (Hex p Hin) as [f' Hf']. cbn [files set_files] in Hf'.
      by rewrite lookup_delete_eq in Hf'. }
    split; [by constructor |]. split.
    + intros q [-> | Hq]%elem_of_cons; [by eexists |].
      destruct (Hex q Hq) as [f' Hf']. cbn [files set_files] in Hf'.
      rewrite lookup_delete_ne in Hf' by (intros ->; done). by eexists.
    + intros q [-> | Hq]%elem_of_cons; [| by apply Hgone].
      rewrite Hframe by done. cbn [files set_files]. apply lookup_delete_eq.
Qed.

Lemma to_hdf_Ok path key n w w' :
  to_hdf path key n w = (Ok (), w') →
  ∃ f, files w !! path = Some f
       ∧ w' = World (<[path := <[key := n]> f]> (files w)) (log w).
Proof.
  unfold to_hdf. intros H. apply bind_Ok_inv in H as (f & w1 & Hf & H).
  apply h5_read_inv in Hf as [-> Hf]. injection H as <-. by exists f.
Qed.

End footprints.

Section aggregate_runs.

Implicit Types (w : world).

(** The steps of a successful [aggregate_dbs]. *)
Lemma aggregate_dbs_Ok target dbs mode (remove_sources : bool) w w' :
  aggregate_dbs target dbs mode remove_sources w = (Ok (), w') →
  ∃ infos md defs w1 args w2 w3 g,
    collect_infos dbs w = (Ok infos, w)
    ∧ collect_metadatas dbs w = (Ok md, w)
    ∧ ds_definitions_from_infos infos = Ok defs
    ∧ create_datasets_from_defs target defs mode w = (Ok (), w1)
    ∧ make_integration_args target w1 = (Ok args, w1)
    ∧ forM_ integrate args w1 = (Ok (), w2)
    ∧ (if remove_sources then forM_ os_remove dbs else ret ()) w2 = (Ok (), w3)
    ∧ files w3 !! target = Some g
    ∧ w' = World (<[target := <["metadata" := Frame md]> (<["info" := Info infos]> g)]>
                    (files w3)) (log w3).
Proof.
  unfold aggregate_dbs. intros H.
  apply bind_Ok_inv in H as (infos & w0 & Hinfos & H).
  pose proof (collect_infos_world dbs w) as Hw. rewrite Hinfos in Hw.
  simpl in Hw. subst w0.
  apply bind_Ok_inv in H as (md & w0 & Hmd & H).
  pose proof (collect_metadatas_world dbs w) as Hw. rewrite Hmd in Hw.
  simpl in Hw. subst w0.
  apply bind_Ok_inv in H as (defs & w0 & Hdefs & H).
  assert (ds_definitions_from_infos infos = Ok defs ∧ w0 = w) as [Hplan ->]
    by (unfold lift in Hdefs; by injection Hdefs as -> ->).
  apply bind_Ok_inv in H as ([] & w1 & Halloc & H).
  apply bind_Ok_inv in H as (args & w1' & Hargs & H).
  pose proof (make_integration_args_world target w1) as Hw. rewrite Hargs in Hw.
  simpl in Hw. subst w1'.
  apply bind_Ok_inv in H as ([] & w2 & Hscatter & H).
  apply bind_Ok_inv in H as ([] & w3 & Hremove & H).
  apply bind_Ok_inv in H as ([] & w4 & Hinfo & H).
  apply to_hdf_Ok in Hinfo as (g & Hg & ->).
  apply to_hdf_Ok in H as (g' & Hg' & ->).
  cbn [files log] in *. rewrite lookup_insert_eq in Hg'. injection Hg' as <-.
  rewrite insert_insert_eq.
  by exists infos, md, defs, w1, args, w2, w3, g.
Qed.

Lemma run_chunks_empty (task : nat → M (list string)) cs schedule :
  (∀ i w, task i w = (Ok [], w)) →
  ∀ w, run_chunks task cs schedule (MkMapResult [] None) w
       = (MkMapResult [] None, w).
Proof.
  intros Htask. induction schedule as [|i rest IH]; intros w; [done |].
  cbn [run_chunks]. rewrite Htask. unfold _set. cbn [_exception _value fmap list_fmap].
  rewrite take_nil, drop_nil. apply IH.
Qed.

End aggregate_runs.

(** X17 (aggregate_dbs, footprint): whatever its
    outcome, [aggregate_dbs] writes no log line and leaves every file
    other than the target as it was, except the source stores when
    [remove_sources] is set. *)
Theorem aggregate_dbs_footprint (target : string) (dbs : list string)
    (mode : open_mode) (remove_sources : bool) (w : world) :
  log (aggregate_dbs target dbs mode remove_sources w).2 = log w
  ∧ ∀ path,
      path ≠ target → remove_sources = false ∨ path ∉ dbs →
      files (aggregate_dbs target dbs mode remove_sources w).2 !! path
      = files w !! path.
Proof.
  destruct (touches_aggregate_dbs target dbs mode remove_sources w) as [Hlog Hfiles].
  split; [done |]. intros path Hpath Hkeep. apply Hfiles.
  intros [-> | Hin]%elem_of_cons; [done |].
  destruct Hkeep as [-> | Hout]; [by apply elem_of_nil in Hin |].
  destruct remove_sources; [by apply Hout | by apply elem_of_nil in Hin].
Qed.

Lemma aggregate_dbs_footprint_witness :
  let w := Example.built Example.three_paths Example.three in
  files (aggregate_dbs "/out/root.h5" Example.three_dbs ModeW false w).2
    !! "/data/s1.h5" = files w !! "/data/s1.h5".
Proof.
  intros w.
  apply (proj2 (aggregate_dbs_footprint "/out/root.h5" Example.three_dbs ModeW
                  false w)).
  - discriminate.
  - left. reflexivity.
Defined.

(** X18 (aggregate_dbs, success): after a successful
    run the target holds under ["info"] and ["metadata"] the tables that
    [collect_infos] and [collect_metadatas] compute from the stores as
    they were before the run; with [remove_sources] the run can only
    succeed when the store paths are pairwise distinct and differ from
    the target, and all of them are gone afterwards. *)
Theorem aggregate_dbs_success (target : string) (dbs : list string)
    (mode : open_mode) (remove_sources : bool) (w w' : world) :
  aggregate_dbs target dbs mode remove_sources w = (Ok (), w') →
  ∃ infos md g,
    collect_infos dbs w = (Ok infos, w)
    ∧ collect_metadatas dbs w = (Ok md, w)
    ∧ files w' !! target = Some g
    ∧ g !! "info" = Some (Info infos)
    ∧ g !! "metadata" = Some (Frame md)
    ∧ (remove_sources = true →
         NoDup dbs ∧ (target ∉ dbs) ∧ ∀ db, db ∈ dbs → files w' !! db = None).
Proof.
  intros Hrun.
  apply aggregate_dbs_Ok in Hrun
    as (infos & md & defs & w1 & args & w2 & w3 & g & Hinfos & Hmd & _ & _ & _ & _
        & Hremove & Hg & ->).
  exists infos, md, (<["metadata" := Frame md]> (<["info" := Info infos]> g)).
  cbn [files]. split; [done |]. split; [done |].
  split; [apply lookup_insert_eq |].
  split; [by rewrite lookup_insert_ne, lookup_insert_eq |].
  split; [apply lookup_insert_eq |].
  intros ->. apply remove_all_Ok in Hremove as (Hnd & _ & Hgone).
  assert (target ∉ dbs) as Hout.
  { intros Hin. rewrite (Hgone _ Hin) in Hg. done. }
  split; [done |]. split; [done |]. intros db Hdb.
  rewrite lookup_insert_ne by (intros ->; done). by apply Hgone.
Qed.

Lemma aggregate_dbs_success_witness :
  let w := Example.built Example.three_paths Example.three in
  ∃ infos md g,
    collect_infos Example.three_dbs w = (Ok infos, w)
    ∧ collect_metadatas Example.three_dbs w = (Ok md, w)
    ∧ files (aggregate_dbs "/out/root.h5" Example.three_dbs ModeW true w).2
        !! "/out/root.h5" = Some g
    ∧ g !! "info" = Some (Info infos)
    ∧ g !! "metadata" = Some (Frame md)
    ∧ (true = true →
         NoDup Example.three_dbs ∧ ("/out/root.h5" ∉ Example.three_dbs)
         ∧ ∀ db, db ∈ Example.three_dbs →
                 files (aggregate_dbs "/out/root.h5" Example.three_dbs ModeW true w).2
                   !! db = None).
Proof.
  intros w.
  apply (aggregate_dbs_success "/out/root.h5" Example.three_dbs ModeW true w).
  vm_compute. reflexivity.
Defined.

(** X19 (no source): on an empty list of stores
    [aggregate_dbs] raises the [ValueError] of [pd.concat] and changes
    nothing; so does [make_root_db] on an empty list of sources, for every
    pool size and schedule. *)
Theorem make_root_db_empty (db_name : string)
    (extract_func : string → result features) (n_cores : nat)
    (remove_sources : bool) (mode : open_mode) (schedule : list nat) (w : world) :
  aggregate_dbs db_name [] mode remove_sources w
  = (Err (ValueError "No objects to concatenate"), w)
  ∧ (0 < n_cores →
       make_root_db db_name [] extract_func n_cores remove_sources schedule w
       = (Err (ValueError "No objects to concatenate"), w)).
Proof.
  split; [done |]. intros Hn.
  assert (make_db_for_each_file [] extract_func n_cores schedule w = (Ok [], w))
    as Hpool.
  { unfold make_db_for_each_file, starmap. rewrite decide_False by lia.
    cbn [length replicate]. by rewrite run_chunks_empty. }
  unfold make_root_db. by rewrite (bind_ok _ _ _ _ _ Hpool).
Qed.

Lemma make_root_db_empty_witness :
  make_root_db "/out/root.h5" [] Example.three 2 true [] Example.empty_world
  = (Err (ValueError "No objects to concatenate"), Example.empty_world).
Proof.
  apply (proj2 (make_root_db_empty "/out/root.h5" Example.three 2 true ModeW []
                  Example.empty_world)).
  lia.
Defined.

(** ** The world after the parallel build *)

Section pool_world.

Variable extract_func : string → result features.

Implicit Types (args sources : list string) (schedule : list nat).

Lemma attempted_all_ok sources :
  (∀ p, p ∈ sources → is_Ok (extract_func p)) →
  attempted extract_func sources = sources.
Proof.
  induction sources as [|p rest IH]; intros Hok; [done |].
  cbn [attempted]. destruct (Hok p) as [rv ->]; [left |].
  rewrite IH; [done |]. intros q Hq. apply Hok. by right.
Qed.

Lemma chunk_succ {A} cs i (l : list A) :
  chunk cs (S i) l = chunk cs i (drop cs l).
Proof. unfold chunk. by rewrite drop_drop. Qed.

Lemma concat_chunks {A} cs k :
  ∀ l : list A,
    length l ≤ k * cs → concat ((λ i, chunk cs i l) <$> seq 0 k) = l.
Proof.
  induction k as [|k IH]; intros l Hlen.
  - simpl in Hlen. by destruct l; [| simpl in Hlen; lia].
  - cbn [seq fmap list_fmap concat]. rewrite <- fmap_S_seq, <- list_fmap_compose.
    rewrite (list_fmap_ext _ (λ i, chunk cs i (drop cs l)) (seq 0 k))
      by (intros; apply chunk_succ).
    rewrite IH by (rewrite length_drop; lia).
    unfold chunk. rewrite drop_0. apply take_drop.
Qed.

Lemma number_left_enough n cs : 0 < cs → n ≤ number_left n cs * cs.
Proof.
  intros Hcs. unfold number_left. rewrite decide_False by lia.
  pose proof (Nat.div_mod_eq n cs). pose proof (Nat.mod_upper_bound n cs).
  case_decide; nia.
Qed.

Lemma concat_fmap_Permutation {A B} (h : A → list B) (l k : list A) :
  l ≡ₚ k → concat (h <$> l) ≡ₚ concat (h <$> k).
Proof.
  induction 1 as [|x l k _ IH | x y l | l k k' _ IH1 _ IH2]; simpl.
  - done.
  - by rewrite IH.
  - rewrite !app_assoc. f_equiv. apply Permutation_app_comm.
  - by rewrite IH1.
Qed.

Lemma fold_set_prefix_ok args cs schedule :
  (∀ j, j ∈ schedule → is_Ok (chunk_result extract_func (chunk cs j args))) →
  ∀ v,
    _exception
      (foldl (λ mr i, _set cs i (chunk_result extract_func (chunk cs i args)) mr)
         (MkMapResult v None) schedule) = None.
Proof.
  induction schedule as [|j rest IH]; intros Hok v; [done |].
  cbn [foldl]. destruct (Hok j) as [res ->]; [left |].
  unfold _set at 2. cbn [_exception]. apply IH. intros k Hk. apply Hok. by right.
Qed.

Lemma set_first_failure cs i e (mr : MapResult) :
  _exception mr = None →
  _set cs i (Err e) mr = MkMapResult (_value mr) (Some e).
Proof. intros Hnone. unfold _set. by rewrite Hnone. Qed.

Lemma chunk_result_first_failure done p rest e :
  (∀ q, q ∈ done → is_Ok (extract_func q)) → extract_func p = Err e →
  chunk_result extract_func (done ++ p :: rest) = Err e.
Proof.
  intros Hok He. induction done as [|q done IH]; cbn [app chunk_result].
  - by rewrite He.
  - destruct (Hok q) as [rv ->]; [left |].
    rewrite IH; [done |]. intros z Hz. apply Hok. by right.
Qed.

End pool_world.

(** X20 (make_db_for_each_file, the stores): when
    every extraction succeeds and the sources lead to distinct stores,
    then for every pool size and completion order the store of every
    source is in place afterwards with the content [file_to_db] gives it,
    no other file is touched, and the log has gained one line per source,
    in some order. *)
Theorem make_db_for_each_file_builds (file_walker : list string)
    (extract_func : string → result features) (n_cores : nat)
    (schedule : list nat) (w : world) :
  0 < n_cores →
  schedule ≡ₚ seq 0 (number_left (length file_walker)
                       (chunksize (length file_walker) n_cores)) →
  (∀ p, p ∈ file_walker → is_Ok (extract_func p)) →
  NoDup (tmp_db_of <$> file_walker) →
  let w' := (make_db_for_each_file file_walker extract_func n_cores schedule w).2 in
  (∀ p rv, p ∈ file_walker → extract_func p = Ok rv →
           files w' !! tmp_db_of p = Some (store_of p rv))
  ∧ (∀ path, path ∉ tmp_db_of <$> file_walker →
             files w' !! path = files w !! path)
  ∧ ∃ lines, log w' = log w ++ lines
             ∧ lines ≡ₚ (λ p, "making db for " +:+ p) <$> file_walker.
Proof.
  intros Hn Hperm Hok Hnd w'. split; [| split].
  - intros p rv [k Hk]%list_elem_of_lookup Hrv.
    by apply (make_db_for_each_file_stores extract_func file_walker n_cores
                schedule w k p rv).
  - intros path Hpath. unfold w'.
    rewrite make_db_for_each_file_run by done. cbn [snd files].
    by apply fold_written_other.
  - unfold w'. rewrite make_db_for_each_file_run by done. cbn [snd log].
    eexists. split; [reflexivity |].
    set (cs := chunksize (length file_walker) n_cores) in *.
    rewrite (list_fmap_ext _ (λ i, making_db <$> chunk cs i file_walker) schedule);
      last first.
    { intros _ i _. simpl. rewrite attempted_all_ok; [done |].
      intros p Hp. apply Hok. by eapply elem_of_chunk. }
    rewrite (concat_fmap_Permutation _ _ _ Hperm).
    destruct (decide (length file_walker = 0)) as [Hz | Hz].
    + apply nil_length_inv in Hz. by subst file_walker.
    + assert (0 < cs) as Hcs by (apply chunksize_pos; lia).
      rewrite (list_fmap_ext _ (λ i, chunk cs i (making_db <$> file_walker))
                 (seq 0 (number_left (length file_walker) cs)))
        by (intros; apply chunk_fmap).
      rewrite concat_chunks; [done |].
      rewrite length_fmap. by apply number_left_enough.
Qed.

Lemma make_db_for_each_file_builds_witness :
  let w' := (make_db_for_each_file Example.three_paths Example.three 2 [2; 0; 1]
               Example.empty_world).2 in
  (∀ p rv, p ∈ Example.three_paths → Example.three p = Ok rv →
           files w' !! tmp_db_of p = Some (store_of p rv))
  ∧ (∀ path, path ∉ tmp_db_of <$> Example.three_paths →
             files w' !! path = files Example.empty_world !! path)
  ∧ ∃ lines, log w' = log Example.empty_world ++ lines
             ∧ lines ≡ₚ (λ p, "making db for " +:+ p) <$> Example.three_paths.
Proof.
  apply (make_db_for_each_file_builds Example.three_paths Example.three 2 [2; 0; 1]
           Example.empty_world).
  - lia.
  - apply (bool_decide_unpack _). vm_compute. exact I.
  - apply three_sources_extract.
  - apply (bool_decide_unpack _). vm_compute. exact I.
Defined.

(** X21 (make_db_for_each_file, which
    exception): when the chunks completed before chunk [i] all succeed and
    chunk [i] fails, the pool raises the exception of the first failing
    source of chunk [i], whatever the chunks completed later do. *)
Theorem make_db_for_each_file_first_failure (file_walker : list string)
    (extract_func : string → result features) (n_cores : nat)
    (before after : list nat) (i : nat) (done rest : list string) (p : string)
    (e : exn) (w : world) :
  0 < n_cores →
  (∀ j q, j ∈ before →
          q ∈ chunk (chunksize (length file_walker) n_cores) j file_walker →
          is_Ok (extract_func q)) →
  chunk (chunksize (length file_walker) n_cores) i file_walker
  = done ++ p :: rest →
  (∀ q, q ∈ done → is_Ok (extract_func q)) →
  extract_func p = Err e →
  (make_db_for_each_file file_walker extract_func n_cores
     (before ++ i :: after) w).1 = Err e.
Proof.
  intros Hn Hbefore Hchunk Hdone He.
  rewrite make_db_for_each_file_run by done. cbn [fst].
  set (cs := chunksize (length file_walker) n_cores) in *.
  rewrite foldl_app. cbn [foldl].
  rewrite Hchunk, (chunk_result_first_failure extract_func done p rest e Hdone He).
  match goal with
  | |- get (foldl ?step (_set cs i (Err e) ?mr) after) = _ =>
      assert (_exception mr = None) as Hnone
  end.
  { apply fold_set_prefix_ok. intros j Hj.
    rewrite chunk_result_all_ok; [by eexists |].
    intros q Hq. by apply (Hbefore j). }
  rewrite (set_first_failure _ _ _ _ Hnone).
  by rewrite (fold_set_failed _ _ _ _ _ e).
Qed.

Lemma make_db_for_each_file_first_failure_witness :
  (make_db_for_each_file Example.five_paths Example.five 2 ([4; 0] ++ 2 :: [1; 3])
     Example.empty_world).1 = Err (RuntimeError "cannot decode").
Proof.
  apply (make_db_for_each_file_first_failure Example.five_paths Example.five 2
           [4; 0] [1; 3] 2 [] [] "/data/s3.wav").
  - lia.
  - intros j q Hj Hq.
    assert (j = 4 ∨ j = 0) as [-> | ->].
    { apply elem_of_cons in Hj as [-> | Hj]; [by left |].
      apply list_elem_of_singleton in Hj. by right. }
    + apply list_elem_of_singleton in Hq as ->. eexists. vm_compute. reflexivity.
    + apply list_elem_of_singleton in Hq as ->. eexists. vm_compute. reflexivity.
  - reflexivity.
  - intros q Hq. by apply elem_of_nil in Hq.
  - reflexivity.
Defined.

(** ** Collecting the metadata tables *)

Section metadatas.

Implicit Types (w : world) (m : list Segment) (ms : list (list Segment))
  (dbs : list string).

Lemma last_shifted_table value offset m :
  stop <$> last (Metadata.set_name value (Metadata.add_offset offset m))
  = (λ n, n + offset) <$> (stop <$> last m).
Proof.
  unfold Metadata.set_name, Metadata.add_offset. rewrite !fmap_last.
  by destruct (last m).
Qed.

Lemma collect_metadatas_loop_run w dbs ms :
  Forall2 (λ db m, ∃ g, files w !! db = Some g
                        ∧ g !! "metadata" = Some (Frame m) ∧ m ≠ []) dbs ms →
  ∀ offset metadatas,
    collect_metadatas_loop dbs offset metadatas w
    = (Ok (metadatas ++ shifted dbs ms offset), w).
Proof.
  induction 1 as [|db m dbs ms (g & Hg & Hm & Hne) _ IH]; intros offset metadatas.
  - simpl. unfold ret. by rewrite app_nil_r.
  - cbn [collect_metadatas_loop shifted]. unfold Database.metadata.
    rewrite (bind_ok _ _ _ _ _ (read_hdf_ok _ _ _ _ _ Hg Hm)).
    set (scr := Metadata.set_name _ _).
    assert (∃ x, last scr = Some x) as [x Hx].
    { destruct (last scr) eqn:Hlast; [by eexists |].
      apply last_None in Hlast. unfold scr, Metadata.set_name, Metadata.add_offset in Hlast.
      by apply fmap_nil_inv, fmap_nil_inv in Hlast. }
    erewrite bind_lift_ok; last first.
    { unfold Metadata.last_stop. by rewrite Hx. }
    rewrite IH, Hx. cbn [fmap option_fmap option_map default].
    by rewrite <- app_assoc.
Qed.

Lemma shifted_lengths dbs ms :
  length dbs = length ms →
  ∀ offset, length <$> shifted dbs ms offset = length <$> ms.
Proof.
  revert ms. induction dbs as [|db dbs IH]; intros [|m ms] Hlen offset;
    simpl in *; [done | done | done |].
  rewrite IH by lia. f_equal.
  unfold Metadata.set_name, Metadata.add_offset. by rewrite !length_fmap.
Qed.

Lemma length_concat {A} (ls : list (list A)) :
  length (concat ls) = sum_list (length <$> ls).
Proof.
  induction ls as [|l ls IH]; [done |]. simpl. by rewrite length_app, IH.
Qed.

Lemma shifted_lookup dbs ms :
  length dbs = length ms →
  (∀ m, m ∈ ms → m ≠ []) →
  ∀ offset k db m j s,
    dbs !! k = Some db → ms !! k = Some m → m !! j = Some s →
    concat (shifted dbs ms offset) !! (rows_before k ms + j)
    = Some (MkSegment (seg_index s)
              (Some (LStr (Py.join "." (Py.init (Py.split dot db)))))
              (start s + (offset + stops_before k ms))
              (stop s + (offset + stops_before k ms))).
Proof.
  unfold rows_before, stops_before.
  revert ms. induction dbs as [|db0 dbs IH]; intros [|m0 ms] Hlen Hne offset k db m j s;
    [done.. |].
  cbn [shifted concat]. set (scr := Metadata.set_name _ _).
  assert (length scr = length m0) as Hscr
    by (unfold scr, Metadata.set_name, Metadata.add_offset; by rewrite !length_fmap).
  destruct k as [|k]; cbn [lookup list_lookup take fmap list_fmap].
  - intros [= <-] [= <-] Hs. cbn [sum_list sum_list_with]. rewrite Nat.add_0_l, Nat.add_0_r.
    rewrite lookup_app_l by (rewrite Hscr; by eapply lookup_lt_Some).
    unfold scr, Metadata.set_name, Metadata.add_offset.
    by rewrite !list_lookup_fmap, Hs.
  - intros Hdb Hm Hs.
    change (sum_list (?n :: ?l)) with (n + sum_list l).
    rewrite lookup_app_r by (rewrite Hscr; lia).
    replace (length m0 + sum_list (length <$> take k ms) + j - length scr)
      with (sum_list (length <$> take k ms) + j) by lia.
    rewrite (IH ms) with (db := db) (m := m) (s := s);
      [| simpl in Hlen; lia | intros ? ?; apply Hne; by right | done..].
    assert (default offset (stop <$> last scr)
            = offset + default 0 (stop <$> last m0)) as ->.
    { unfold scr. rewrite last_shifted_table.
      destruct (last m0) as [x|] eqn:Hlast; simpl; [lia |].
      apply last_None in Hlast. subst m0. destruct (Hne []); [left | done]. }
    do 2 f_equal; lia.
Qed.

End metadatas.

(** X22 (collect_metadatas): when every store holds
    a non-empty ["metadata"] table, the collected table has the rows of
    all tables in the order of the stores, relabelled by position; the
    rows of store [k] are shifted by the sum of the last stops of the
    tables before it and carry the path of the store without its
    extension as [name]; the world is unchanged. *)
Theorem collect_metadatas_offsets (dbs : list string)
    (ms : list (list Segment)) (w : world) :
  dbs ≠ [] →
  Forall2 (λ db m, ∃ g, files w !! db = Some g
                        ∧ g !! "metadata" = Some (Frame m) ∧ m ≠ []) dbs ms →
  ∃ md,
    collect_metadatas dbs w = (Ok md, w)
    ∧ length md = sum_list (length <$> ms)
    ∧ ∀ k db m j s,
        dbs !! k = Some db → ms !! k = Some m → m !! j = Some s →
        md !! (rows_before k ms + j)
        = Some (MkSegment (LInt (rows_before k ms + j))
                  (Some (LStr (Py.join "." (Py.init (Py.split dot db)))))
                  (start s + stops_before k ms)
                  (stop s + stops_before k ms)).
Proof.
  intros Hne Hstores.
  pose proof (Forall2_length _ _ _ Hstores) as Hlen.
  assert (∀ m, m ∈ ms → m ≠ []) as Hms.
  { intros m [k Hk]%list_elem_of_lookup.
    destruct (Forall2_lookup_r _ _ _ _ _ Hstores Hk) as (db & _ & g & _ & _ & Hm).
    done. }
  unfold collect_metadatas.
  rewrite (bind_ok _ _ _ _ _ (collect_metadatas_loop_run w dbs ms Hstores 0 [])).
  cbn [app].
  assert (pd_concat (shifted dbs ms 0) = Ok (concat (shifted dbs ms 0))) as Hcat.
  { destruct dbs as [|db dbs]; [done |]. by destruct ms as [|m ms]. }
  unfold lift. rewrite Hcat. cbn [fmap result_fmap].
  eexists. split; [reflexivity |]. split.
  - unfold Metadata.ignore_index. rewrite length_imap, length_concat.
    by rewrite shifted_lengths.
  - intros k db m j s Hdb Hm Hs. unfold Metadata.ignore_index.
    rewrite list_lookup_imap.
    rewrite (shifted_lookup dbs ms Hlen Hms 0 k db m j s Hdb Hm Hs).
    done.
Qed.

Lemma collect_metadatas_offsets_witness :
  let w := Example.built Example.three_paths Example.three in
  let ms := [src_meta Example.s1; src_meta Example.s2; src_meta Example.s3] in
  ∃ md,
    collect_metadatas Example.three_dbs w = (Ok md, w)
    ∧ length md = 3
    ∧ ∀ k db m j s,
        Example.three_dbs !! k = Some db → ms !! k = Some m → m !! j = Some s →
        md !! (rows_before k ms + j)
        = Some (MkSegment (LInt (rows_before k ms + j))
                  (Some (LStr (Py.join "." (Py.init (Py.split dot db)))))
                  (start s + stops_before k ms)
                  (stop s + stops_before k ms)).
Proof.
  intros w ms.
  apply (collect_metadatas_offsets Example.three_dbs ms w).
  - discriminate.
  - apply Forall2_cons. split.
    { cbv beta. exists (store_of "/data/s1.wav" (extraction Example.s1)).
      split; [vm_compute; reflexivity |]. split; [reflexivity | discriminate]. }
    apply Forall2_cons. split.
    { cbv beta. exists (store_of "/data/s2.wav" (extraction Example.s2)).
      split; [vm_compute; reflexivity |]. split; [reflexivity | discriminate]. }
    apply Forall2_cons. split.
    { cbv beta. exists (store_of "/data/s3.wav" (extraction Example.s3)).
      split; [vm_compute; reflexivity |]. split; [reflexivity | discriminate]. }
    constructor.
Defined.

(** ** The pipeline on any number of sources *)

(** X23 (make_root_db, any number of sources): for
    one or more sources with the dense feature ["f"] (one dtype, the same
    non-leading dimensions) and a non-empty ["metadata"] table, given by
    paths with a directory and an extension that lead to distinct stores
    other than the target, [make_root_db] succeeds for every pool size,
    completion order and [remove_sources] policy; the aggregate dataset
    holds the rows of the sources one after the other in the order of the
    input, its layout and the collected [info] rows are persisted, and the
    per-source stores are all removed or all kept, as [remove_sources]
    says. *)
Theorem make_root_db_concatenates (extract_func : string → result features)
    (sources : list source) (dt : string) (dims : list nat) (db_name : string)
    (n_cores : nat) (remove_sources : bool) (schedule : list nat) (w : world) :
  (∀ s, s ∈ sources → extract_func (src_path s) = Ok (extraction s)) →
  (∀ s, s ∈ sources →
        Py.contains slash (src_path s) = true
        ∧ Py.contains dot (src_path s) = true) →
  NoDup (src_db <$> sources) →
  db_name ∉ src_db <$> sources →
  (∀ s, s ∈ sources →
        nd_dtype (src_data s) = dt ∧ nd_dims (src_data s) = dims) →
  (∀ s, s ∈ sources → src_meta s ≠ []) →
  sources ≠ [] →
  0 < n_cores →
  schedule ≡ₚ seq 0 (number_left (length sources)
                       (chunksize (length sources) n_cores)) →
  ∃ w' g,
    make_root_db db_name (src_path <$> sources) extract_func n_cores
      remove_sources schedule w = (Ok (), w')
    ∧ files w' !! db_name = Some g
    ∧ g !! "f"
      = Some (Dataset (NdArray dt dims (concat (src_rows <$> sources))) [])
    ∧ g !! "layouts/f" = Some (Frame (persisted_layout sources))
    ∧ g !! "info" = Some (Info (src_info <$> sources))
    ∧ ∀ s, s ∈ sources →
           files w' !! src_db s
           = if remove_sources then None
             else Some (store_of (src_path s) (extraction s)).
Proof.
  intros Hextract Hpaths Hdbs Htarget Harrays Hmeta Hne Hn Hperm.
  destruct (make_root_db_sources extract_func sources dt dims db_name
              Hextract Hpaths Hdbs Htarget Harrays Hmeta Hne
              n_cores remove_sources schedule w Hn Hperm)
    as (w' & g & Hrun & Hg & Hf & Hlay).
  exists w', g. split; [exact Hrun |]. split; [exact Hg |].
  split; [exact Hf |]. split; [exact Hlay |].
  assert (∀ q, q ∈ src_path <$> sources → is_Ok (extract_func q)) as Hok.
  { intros q (s & -> & Hs)%list_elem_of_fmap. rewrite Hextract by done.
    by eexists. }
  assert (tmp_db_of <$> (src_path <$> sources) = src_db <$> sources) as Hcomp
    by by rewrite <- list_fmap_compose.
  unfold make_root_db in Hrun.
  apply bind_Ok_inv in Hrun as (dbs & wb & Hpool & Hrun).
  pose proof (make_db_for_each_file_all_ok extract_func (src_path <$> sources)
                n_cores schedule w Hn) as Hres.
  rewrite length_fmap in Hres. specialize (Hres Hperm Hok).
  rewrite Hpool, Hcomp in Hres. cbn [fst] in Hres. injection Hres as ->.
  assert (stores_built sources wb) as Hbuilt.
  { intros s Hs. pose proof Hs as Hs'.
    apply list_elem_of_lookup in Hs' as [k Hk].
    pose proof (make_db_for_each_file_stores extract_func (src_path <$> sources)
                  n_cores schedule w k (src_path s) (extraction s) Hn) as Hstore.
    rewrite length_fmap, Hcomp, Hpool in Hstore. cbn [snd] in Hstore.
    apply Hstore; [done | done | done | | by apply Hextract].
    by rewrite list_lookup_fmap, Hk. }
  pose proof (touches_aggregate_dbs db_name (src_db <$> sources) ModeW
                remove_sources wb) as [_ Hframe].
  rewrite Hrun in Hframe. cbn [snd] in Hframe.
  apply aggregate_dbs_Ok in Hrun
    as (infos & md & defs & w1 & args & w2 & w3 & g' & Hinfos & _ & _ & _ & _ & _
        & Hremove & Hg' & ->).
  rewrite (collect_infos_built sources Hne wb Hbuilt) in Hinfos.
  injection Hinfos as <-.
  cbn [files] in *. rewrite lookup_insert_eq in Hg. injection Hg as <-.
  split; [by rewrite lookup_insert_ne, lookup_insert_eq |].
  intros s Hs.
  assert (src_db s ≠ db_name) as Hdb.
  { intros Heq. apply Htarget. rewrite <- Heq. apply list_elem_of_fmap. by exists s. }
  destruct remove_sources.
  - apply remove_all_Ok in Hremove as (_ & _ & Hgone).
    rewrite lookup_insert_ne by done. apply Hgone.
    apply list_elem_of_fmap. by exists s.
  - rewrite Hframe; [by apply Hbuilt |].
    intros [? | Hin]%elem_of_cons; [done | by apply elem_of_nil in Hin].
Qed.

Lemma make_root_db_concatenates_witness :
  ∃ w' g,
    make_root_db "/out/root.h5" ["/data/s1.wav"; "/data/s2.wav"; "/data/s3.wav"]
      Example.three 2 false [2; 0; 1] Example.empty_world = (Ok (), w')
    ∧ files w' !! "/out/root.h5" = Some g
    ∧ g !! "f"
      = Some (Dataset
                (NdArray "float64" [2]
                   (concat (src_rows <$> [Example.s1; Example.s2; Example.s3]))) [])
    ∧ g !! "layouts/f"
      = Some (Frame (persisted_layout [Example.s1; Example.s2; Example.s3]))
    ∧ g !! "info" = Some (Info (src_info <$> [Example.s1; Example.s2; Example.s3]))
    ∧ ∀ s, s ∈ [Example.s1; Example.s2; Example.s3] →
           files w' !! src_db s = Some (store_of (src_path s) (extraction s)).
Proof.
  apply (make_root_db_concatenates Example.three
           [Example.s1; Example.s2; Example.s3] "float64" [2] "/out/root.h5" 2
           false [2; 0; 1] Example.empty_world).
  - apply three_sources_member; vm_compute; reflexivity.
  - apply three_sources_member; split; reflexivity.
  - apply (bool_decide_unpack _). vm_compute. exact I.
  - apply (bool_decide_unpack _). vm_compute. exact I.
  - apply three_sources_member; split; reflexivity.
  - apply three_sources_member; discriminate.
  - discriminate.
  - lia.
  - apply (bool_decide_unpack _). vm_compute. exact I.
Defined.
